(** * Investment research report manager: client data layer, ordering and
      backend handlers

    A shallow embedding of
    - [utils/api.ts]: the TTL cache, the in-flight request map and
      [makeRequest], with the [companyApi] / [reportApi] wrappers;
    - [components/SortManager.tsx]: [moveItem] and the display-order sort;
    - [supabase/functions/server/company-handlers.tsx] and
      [report-handlers.tsx]: the company and report routes over the
      key-value store and the blob store.

    JavaScript numbers that the code uses as integers (timestamps in
    milliseconds, [order] fields, array indices, HTTP status codes) are [Z].
    Strings are byte strings; template literals are [+:+]. *)

From Stdlib Require Import ZArith Ascii String List Lia Permutation Sorted.
From stdpp Require Import gmap strings list fin_maps pretty sorting.

Local Open Scope Z_scope.

(* ===================================================================== *)
(** * JavaScript values as they travel through [makeRequest]              *)
(* ===================================================================== *)

Module Js.

(** What [response.json()] can produce, plus [undefined] for absent
    properties.  Numbers are restricted to integers. *)
#[warnings="-register-all"]
Inductive value : Type :=
| VUndefined
| VNull
| VBool (b : bool)
| VNum (n : Z)
| VStr (s : string)
| VArr (elems : list value)
| VObj (fields : list (string * value)).

(** ToBoolean, as used by [if (cached)], [!result.success] and [||]. *)
Definition truthy (v : value) : bool :=
  match v with
  | VUndefined | VNull => false
  | VBool b => b
  | VNum n => negb (n =? 0)
  | VStr s => negb (String.eqb s "")
  | VArr _ | VObj _ => true
  end.

(** [a || b] *)
Definition or_else (a b : value) : value := if truthy a then a else b.

Fixpoint assoc (k : string) (fields : list (string * value)) : value :=
  match fields with
  | [] => VUndefined
  | (k', v) :: rest => if String.eqb k k' then v else assoc k rest
  end.

(** Property read [v.k] for the property names the client uses
    ([success], [error], [data], [downloadUrl]); [None] is the TypeError
    raised when [v] is [null] or [undefined]. *)
Definition get (k : string) (v : value) : option value :=
  match v with
  | VUndefined | VNull => None
  | VObj fields => Some (assoc k fields)
  | _ => Some VUndefined
  end.

(** The same read once [v] is known not to be [null] or [undefined]. *)
Definition field (k : string) (v : value) : value :=
  match v with
  | VObj fields => assoc k fields
  | _ => VUndefined
  end.

Fixpoint join (sep : string) (parts : list string) : string :=
  match parts with
  | [] => ""
  | [p] => p
  | p :: rest => p +:+ sep +:+ join sep rest
  end.

(** ToString, as applied by [new Error(x)] to its argument. *)
Fixpoint toString (v : value) : string :=
  match v with
  | VUndefined => "undefined"
  | VNull => "null"
  | VBool true => "true"
  | VBool false => "false"
  | VNum n => pretty n
  | VStr s => s
  | VArr elems =>
      join "," (map (fun e => match e with
                              | VUndefined | VNull => ""
                              | _ => toString e
                              end) elems)
  | VObj _ => "[object Object]"
  end.

Definition dquote : string := String (ascii_of_N 34) "".
Definition backslash : string := String (ascii_of_N 92) "".

Definition hexDigit (n : N) : ascii :=
  ascii_of_N (if (n <? 10)%N then 48 + n else 87 + n).

(** QuoteJSONString on one code unit. *)
Definition quoteChar (c : ascii) : string :=
  let n := N_of_ascii c in
  if (n =? 34)%N then backslash +:+ dquote
  else if (n =? 92)%N then backslash +:+ backslash
  else if (n =? 8)%N then backslash +:+ "b"
  else if (n =? 12)%N then backslash +:+ "f"
  else if (n =? 10)%N then backslash +:+ "n"
  else if (n =? 13)%N then backslash +:+ "r"
  else if (n =? 9)%N then backslash +:+ "t"
  else if (n <? 32)%N
       then backslash +:+ "u00" +:+ String (hexDigit (n / 16)) (String (hexDigit (n mod 16)) "")
  else String c "".

Fixpoint quoteBody (s : string) : string :=
  match s with
  | EmptyString => ""
  | String c rest => quoteChar c +:+ quoteBody rest
  end.

Definition quote (s : string) : string := dquote +:+ quoteBody s +:+ dquote.

(** [JSON.stringify] on a value that is not [undefined] at top level:
    [undefined] properties are dropped, [undefined] array elements print
    as [null]. *)
Fixpoint stringify (v : value) : string :=
  match v with
  | VUndefined => "undefined"
  | VNull => "null"
  | VBool true => "true"
  | VBool false => "false"
  | VNum n => pretty n
  | VStr s => quote s
  | VArr elems =>
      "[" +:+ join "," (map (fun e => match e with
                                      | VUndefined => "null"
                                      | _ => stringify e
                                      end) elems) +:+ "]"
  | VObj fields =>
      "{" +:+ join ","
        (flat_map (fun kv => match kv with
                             | (_, VUndefined) => []
                             | (k, x) => [quote k +:+ ":" +:+ stringify x]
                             end) fields) +:+ "}"
  end.

(** [key.includes(pattern)] *)
Fixpoint includes (pattern key : string) : bool :=
  String.prefix pattern key ||
  match key with
  | EmptyString => false
  | String _ rest => includes pattern rest
  end.

End Js.

(* ===================================================================== *)
(** * utils/api.ts                                                        *)
(* ===================================================================== *)

Module Api.
Import Js.

(** ** Requests *)

Record File := { fileName : string; fileType : string; fileSize : Z; fileBytes : string }.

Inductive FormEntry := FormText (s : string) | FormFile (f : File).

(** A [FormData]: the appended (name, value) pairs, in order. *)
Definition FormData := list (string * FormEntry).

Inductive BodyInit := BodyText (s : string) | BodyForm (fd : FormData).

(** The [RequestInit] literals of this file: [method], [headers], [body],
    written in that order, each possibly absent. *)
Record RequestInit := {
  method : option string;
  headers : option (list (string * string));
  body : option BodyInit
}.

(** The object [JSON.stringify(options)] walks.  A [FormData] has no own
    enumerable property and no [toJSON], so it serialises as an empty
    object whatever was appended to it. *)
Definition optionsValue (o : RequestInit) : value :=
  VObj [("method", match method o with Some m => VStr m | None => VUndefined end);
        ("headers", match headers o with
                    | Some h => VObj (map (fun kv => (fst kv, VStr (snd kv))) h)
                    | None => VUndefined
                    end);
        ("body", match body o with
                 | Some (BodyText s) => VStr s
                 | Some (BodyForm _) => VObj []
                 | None => VUndefined
                 end)].

(** ** Promises and the client state *)

Inductive Exn :=
| Error (message : string)     (* new Error(message) *)
| TypeError                    (* property read on null / undefined *)
| SyntaxError                  (* response.json() on a body that is not JSON *)
| Failure (reason : string).   (* rejection raised by the transport *)

Inductive Outcome := Resolved (v : value) | Rejected (e : Exn).

Record Response := { status : Z; text : string; json : option value }.

(** [response.ok] *)
Definition ok (r : Response) : bool := (200 <=? status r) && (status r <=? 299).

(** Where the promise chain [fetch(..).then(async ..).catch(..)] of one
    request stands: waiting for [fetch], or suspended inside the [then]
    callback at [await response.text()] / [await response.json()]. *)
Inductive Phase := AwaitFetch | AwaitText (r : Response) | AwaitJson (r : Response).

Record Request := {
  rq_url : string;
  rq_options : RequestInit;
  rq_cacheKey : option string;
  rq_phase : Phase
}.

(** The module-level maps [cache] and [pendingRequests], the promises
    created by [makeRequest] (named by a counter), those already settled,
    and the log of [fetch] calls issued. *)
Record State := {
  cache : gmap string (value * Z);
  pendingRequests : gmap string nat;
  inflight : gmap nat Request;
  settled : gmap nat Outcome;
  fetchLog : list (string * RequestInit);
  nextId : nat
}.

Definition initial : State :=
  {| cache := ∅; pendingRequests := ∅; inflight := ∅; settled := ∅;
     fetchLog := []; nextId := 0 |}.

Definition withCache (c : gmap string (value * Z)) (s : State) : State :=
  {| cache := c; pendingRequests := pendingRequests s; inflight := inflight s;
     settled := settled s; fetchLog := fetchLog s; nextId := nextId s |}.

Definition withPending (m : gmap string nat) (s : State) : State :=
  {| cache := cache s; pendingRequests := m; inflight := inflight s;
     settled := settled s; fetchLog := fetchLog s; nextId := nextId s |}.

Definition withPhase (p : nat) (rq : Request) (ph : Phase) (s : State) : State :=
  {| cache := cache s; pendingRequests := pendingRequests s;
     inflight := <[p := {| rq_url := rq_url rq; rq_options := rq_options rq;
                           rq_cacheKey := rq_cacheKey rq; rq_phase := ph |}]> (inflight s);
     settled := settled s; fetchLog := fetchLog s; nextId := nextId s |}.

Definition settle (p : nat) (out : Outcome) (s : State) : State :=
  {| cache := cache s; pendingRequests := pendingRequests s;
     inflight := delete p (inflight s);
     settled := <[p := out]> (settled s); fetchLog := fetchLog s; nextId := nextId s |}.

(** ** Cache management *)

Definition CACHE_DURATION : Z := 5 * 60 * 1000.

Definition getCacheKey (url : string) (params : option value) : string :=
  match params with
  | Some p => if truthy p then url +:+ "_" +:+ stringify p else url
  | None => url
  end.

(** [null] is the miss. *)
Definition getCachedData (now : Z) (c : gmap string (value * Z)) (key : string) : value :=
  match c !! key with
  | Some (data, timestamp) =>
      if now - timestamp <? CACHE_DURATION then data else VNull
  | None => VNull
  end.

Definition setCachedData (now : Z) (key : string) (data : value)
    (c : gmap string (value * Z)) : gmap string (value * Z) :=
  <[key := (data, now)]> c.

Definition clearCachePattern (pattern : string)
    (c : gmap string (value * Z)) : gmap string (value * Z) :=
  filter (fun kv => includes pattern (fst kv) = false) c.

(** ** Request deduplication and [makeRequest] *)

(** [!options.method || options.method === 'GET'] *)
Definition isGet (o : RequestInit) : bool :=
  match method o with
  | None => true
  | Some m => String.eqb m "" || String.eqb m "GET"
  end.

(** [cacheKey && (!options.method || options.method === 'GET')]: the key
    under which this call reads and writes the cache, if any. *)
Definition cacheSlot (o : RequestInit) (cacheKey : option string) : option string :=
  match cacheKey with
  | Some k => if negb (String.eqb k "") && isGet o then Some k else None
  | None => None
  end.

Definition requestKey (url : string) (o : RequestInit) : string :=
  url +:+ "_" +:+ stringify (optionsValue o).

(** What the caller of the [async] function holds: a promise already
    resolved with a cached value, or one that settles as promise [p]. *)
Inductive Result := Now (v : value) | Follow (p : nat).

(** [fetch(url, options)...; pendingRequests.set(requestKey, request)] *)
Definition startFetch (url : string) (o : RequestInit) (cacheKey : option string)
    (s : State) : Result * State :=
  let p := nextId s in
  (Follow p,
   {| cache := cache s;
      pendingRequests := <[requestKey url o := p]> (pendingRequests s);
      inflight := <[p := {| rq_url := url; rq_options := o;
                            rq_cacheKey := cacheKey; rq_phase := AwaitFetch |}]> (inflight s);
      settled := settled s;
      fetchLog := fetchLog s ++ [(url, o)];
      nextId := S p |}).

(** The first block of [makeRequest]: what the cache gives this call,
    [null] when the call does not read the cache or misses. *)
Definition cachedValue (o : RequestInit) (cacheKey : option string) (now : Z)
    (s : State) : value :=
  match cacheSlot o cacheKey with
  | Some k => getCachedData now (cache s) k
  | None => VNull
  end.

Definition makeRequest (url : string) (o : RequestInit) (cacheKey : option string)
    (now : Z) (s : State) : Result * State :=
  let cached := cachedValue o cacheKey now s in
  if truthy cached then (Now cached, s)
  else match pendingRequests s !! requestKey url o with
       | Some p => (Follow p, s)
       | None => startFetch url o cacheKey s
       end.

(** The [catch] callback: [pendingRequests.delete(requestKey); throw error]. *)
Definition catchHandler (p : nat) (rq : Request) (e : Exn) (s : State) : State :=
  settle p (Rejected e)
    (withPending (delete (requestKey (rq_url rq) (rq_options rq)) (pendingRequests s)) s).

(** [fetch] resolves with [resp]: the [then] callback starts, deletes the
    pending entry and suspends on the body. *)
Definition fetchResolved (p : nat) (resp : Response) (s : State) : State :=
  match inflight s !! p with
  | Some rq =>
      match rq_phase rq with
      | AwaitFetch =>
          withPhase p rq (if ok resp then AwaitJson resp else AwaitText resp)
            (withPending (delete (requestKey (rq_url rq) (rq_options rq))
                                 (pendingRequests s)) s)
      | _ => s
      end
  | None => s
  end.

(** [fetch] rejects: the [then] callback is skipped. *)
Definition fetchRejected (p : nat) (e : Exn) (s : State) : State :=
  match inflight s !! p with
  | Some rq =>
      match rq_phase rq with
      | AwaitFetch => catchHandler p rq e s
      | _ => s
      end
  | None => s
  end.

(** The rest of the [then] callback once the JSON body is available. *)
Definition onJson (p : nat) (rq : Request) (now : Z) (result : value) (s : State) : State :=
  match get "success" result with
  | None => catchHandler p rq TypeError s
  | Some success =>
      if negb (truthy success)
      then catchHandler p rq
             (Error (toString (or_else (field "error" result)
                                       (VStr "API request failed")))) s
      else
        let data := field "data" result in
        let s1 := match cacheSlot (rq_options rq) (rq_cacheKey rq) with
                  | Some k => withCache (setCachedData now k data (cache s)) s
                  | None => s
                  end in
        settle p (Resolved data) s1
  end.

(** The awaited body arrives at time [now]. *)
Definition bodyRead (p : nat) (now : Z) (s : State) : State :=
  match inflight s !! p with
  | Some rq =>
      match rq_phase rq with
      | AwaitFetch => s
      | AwaitText resp =>
          catchHandler p rq
            (Error ("HTTP " +:+ pretty (status resp) +:+ ": " +:+ text resp)) s
      | AwaitJson resp =>
          match json resp with
          | Some result => onJson p rq now result s
          | None => catchHandler p rq SyntaxError s
          end
      end
  | None => s
  end.

(** Reading the body fails (the connection drops). *)
Definition bodyFailed (p : nat) (e : Exn) (s : State) : State :=
  match inflight s !! p with
  | Some rq =>
      match rq_phase rq with
      | AwaitFetch => s
      | _ => catchHandler p rq e s
      end
  | None => s
  end.

(** The ways a request in flight moves on. *)
Inductive Completion :=
| FetchResolved (p : nat) (resp : Response)
| FetchRejected (p : nat) (e : Exn)
| BodyRead (p : nat) (now : Z)
| BodyFailed (p : nat) (e : Exn).

Definition complete (s : State) (c : Completion) : State :=
  match c with
  | FetchResolved p resp => fetchResolved p resp s
  | FetchRejected p e => fetchRejected p e s
  | BodyRead p now => bodyRead p now s
  | BodyFailed p e => bodyFailed p e s
  end.

(** [clearCachePattern(pattern)] as a step of the client state. *)
Definition clear (pattern : string) (s : State) : State :=
  withCache (clearCachePattern pattern (cache s)) s.

(** One step of the client: a request in flight moves on, [makeRequest] is
    called, or part of the cache is cleared. *)
Inductive Step :=
| Progress (c : Completion)
| Call (url : string) (o : RequestInit) (cacheKey : option string) (now : Z)
| Clear (pattern : string).

Definition step (s : State) (e : Step) : State :=
  match e with
  | Progress c => complete s c
  | Call url o cacheKey now => snd (makeRequest url o cacheKey now s)
  | Clear pattern => clear pattern s
  end.

(** What a caller observes of its result in state [s]. *)
Definition outcome (s : State) (r : Result) : option Outcome :=
  match r with
  | Now v => Some (Resolved v)
  | Follow p => settled s !! p
  end.

(** ** The exported API objects *)

Section Endpoints.

(** [projectId] and [publicAnonKey] come from [./supabase/info]. *)
Variables projectId publicAnonKey : string.

Definition API_BASE_URL : string :=
  "https://" +:+ projectId +:+ ".supabase.co/functions/v1/make-server-78971119".

Definition createAuthHeaders : list (string * string) :=
  [("Content-Type", "application/json");
   ("Authorization", "Bearer " +:+ publicAnonKey)].

Definition createFormHeaders : list (string * string) :=
  [("Authorization", "Bearer " +:+ publicAnonKey)].

Definition getOptions : RequestInit :=
  {| method := None; headers := Some createAuthHeaders; body := None |}.

Definition jsonOptions (m : string) (b : option value) : RequestInit :=
  {| method := Some m; headers := Some createAuthHeaders;
     body := match b with Some v => Some (BodyText (stringify v)) | None => None end |}.

Definition formOptions (fd : FormData) : RequestInit :=
  {| method := Some "POST"; headers := Some createFormHeaders; body := Some (BodyForm fd) |}.

Definition orderUpdatesValue (orderUpdates : list (string * Z)) : value :=
  VObj [("orderUpdates",
         VArr (map (fun u => VObj [("id", VStr (fst u)); ("order", VNum (snd u))])
                   orderUpdates))].

Definition companyApi_getAll (now : Z) (s : State) : Result * State :=
  makeRequest (API_BASE_URL +:+ "/companies") getOptions
    (Some (getCacheKey "companies_getAll" None)) now s.




Definition companyApi_delete (id : string) (now : Z) (s : State) : Result * State :=
  makeRequest (API_BASE_URL +:+ "/companies/" +:+ id) (jsonOptions "DELETE" None) None now
    (clear ("reports_" +:+ id) (clear "companies" s)).


Definition companyApi_uploadIcon (id : string) (file : File) (now : Z) (s : State)
    : Result * State :=
  makeRequest (API_BASE_URL +:+ "/companies/" +:+ id +:+ "/icon")
    (formOptions [("icon", FormFile file)]) None now
    (clear "companies" s).


(** The mutating operations of [companyApi]. *)
Inductive CompanyMutation :=
| Create (data : value)
| Update (id : string) (data : value)
| Delete (id : string)
| UpdateOrder (orderUpdates : list (string * Z))
| UploadIcon (id : string) (file : File)
| RemoveIcon (id : string).


Definition reportApi_getByCompany (companyId : string) (now : Z) (s : State)
    : Result * State :=
  makeRequest (API_BASE_URL +:+ "/companies/" +:+ companyId +:+ "/reports") getOptions
    (Some (getCacheKey "reports_getByCompany"
             (Some (VObj [("companyId", VStr companyId)])))) now s.

(** The [data] argument of [reportApi.upload]. *)
Record UploadData := {
  up_title : string; up_analyst : string; up_category : string; up_file : File
}.

Definition uploadForm (data : UploadData) : FormData :=
  [("title", FormText (up_title data)); ("analyst", FormText (up_analyst data));
   ("category", FormText (up_category data)); ("file", FormFile (up_file data))].

Definition reportApi_upload (companyId : string) (data : UploadData) (now : Z) (s : State)
    : Result * State :=
  makeRequest (API_BASE_URL +:+ "/companies/" +:+ companyId +:+ "/reports")
    (formOptions (uploadForm data)) None now
    (clear ("reports_" +:+ companyId) s).

(** [const result = await makeRequest(..); return result.downloadUrl]: the
    promise of [getDownloadUrl] settles from the one of [makeRequest]. *)
Definition getDownloadUrl_then (o : Outcome) : Outcome :=
  match o with
  | Resolved result =>
      match get "downloadUrl" result with
      | Some v => Resolved v
      | None => Rejected TypeError
      end
  | Rejected e => Rejected e
  end.

Definition reportApi_getDownloadUrl (companyId reportId : string) (now : Z) (s : State)
    : Result * State :=
  makeRequest (API_BASE_URL +:+ "/reports/" +:+ companyId +:+ "/" +:+ reportId +:+ "/download")
    getOptions None now s.

Definition reportApi_update (companyId reportId : string) (data : value) (now : Z) (s : State)
    : Result * State :=
  makeRequest (API_BASE_URL +:+ "/reports/" +:+ companyId +:+ "/" +:+ reportId)
    (jsonOptions "PUT" (Some data)) None now
    (clear ("reports_" +:+ companyId) s).

Definition reportApi_updateOrder (companyId : string) (orderUpdates : list (string * Z))
    (now : Z) (s : State) : Result * State :=
  makeRequest (API_BASE_URL +:+ "/companies/" +:+ companyId +:+ "/reports/reorder")
    (jsonOptions "POST" (Some (orderUpdatesValue orderUpdates))) None now
    (clear ("reports_" +:+ companyId) s).

Definition reportApi_delete (companyId reportId : string) (now : Z) (s : State)
    : Result * State :=
  makeRequest (API_BASE_URL +:+ "/reports/" +:+ companyId +:+ "/" +:+ reportId)
    (jsonOptions "DELETE" None) None now
    (clear ("reports_" +:+ companyId) s).


(** The two [clearCachePattern] calls every [commentApi] mutation starts
    with. *)
Definition commentClear (companyId reportId : string) (s : State) : State :=
  clear ("reports_" +:+ companyId) (clear ("comments_" +:+ companyId +:+ "_" +:+ reportId) s).

Definition commentApi_create (companyId reportId content : string) (now : Z) (s : State)
    : Result * State :=
  makeRequest (API_BASE_URL +:+ "/reports/" +:+ companyId +:+ "/" +:+ reportId +:+ "/comments")
    (jsonOptions "POST" (Some (VObj [("content", VStr content)]))) None now
    (commentClear companyId reportId s).

Definition commentApi_update (companyId reportId commentId content : string) (now : Z)
    (s : State) : Result * State :=
  makeRequest
    (API_BASE_URL +:+ "/comments/" +:+ companyId +:+ "/" +:+ reportId +:+ "/" +:+ commentId)
    (jsonOptions "PUT" (Some (VObj [("content", VStr content)]))) None now
    (commentClear companyId reportId s).

Definition commentApi_delete (companyId reportId commentId : string) (now : Z) (s : State)
    : Result * State :=
  makeRequest
    (API_BASE_URL +:+ "/comments/" +:+ companyId +:+ "/" +:+ reportId +:+ "/" +:+ commentId)
    (jsonOptions "DELETE" None) None now
    (commentClear companyId reportId s).

(** The mutating operations of [reportApi] and [commentApi] on the reports
    of one company. *)
Inductive ReportMutation :=
| ReportUpload (data : UploadData)
| ReportUpdate (reportId : string) (data : value)
| ReportUpdateOrder (orderUpdates : list (string * Z))
| ReportDelete (reportId : string)
| CommentCreate (reportId content : string)
| CommentUpdate (reportId commentId content : string)
| CommentDelete (reportId commentId : string).

Definition reportApi_mutate (companyId : string) (m : ReportMutation)
    : Z -> State -> Result * State :=
  match m with
  | ReportUpload data => reportApi_upload companyId data
  | ReportUpdate reportId data => reportApi_update companyId reportId data
  | ReportUpdateOrder orderUpdates => reportApi_updateOrder companyId orderUpdates
  | ReportDelete reportId => reportApi_delete companyId reportId
  | CommentCreate reportId content => commentApi_create companyId reportId content
  | CommentUpdate reportId commentId content =>
      commentApi_update companyId reportId commentId content
  | CommentDelete reportId commentId => commentApi_delete companyId reportId commentId
  end.

(** [initSampleData]: the [try] block returns the promise without awaiting
    it, so its [catch] never runs. *)
Definition initSampleData (now : Z) (s : State) : Result * State :=
  makeRequest (API_BASE_URL +:+ "/init-sample-data") (jsonOptions "POST" None) None now s.

End Endpoints.

End Api.

(* ===================================================================== *)
(** * App.tsx: the entity types                                           *)
(* ===================================================================== *)

Module Model.

Record Company := {
  co_id : string;
  co_name : string;
  co_code : string;
  co_type : string;
  co_description : string;
  co_iconUrl : option string;
  co_order : option Z;
  co_createdAt : option string;
  co_updatedAt : option string
}.

Record Comment := {
  cm_id : string;
  cm_content : string;
  cm_createdAt : string;
  cm_updatedAt : option string
}.

Record Report := {
  re_id : string;
  re_companyId : string;
  re_title : string;
  re_analyst : string;
  re_fileName : string;
  re_fileSize : string;
  re_category : string;
  re_comments : option (list Comment);
  re_filePath : option string;
  re_order : option Z;
  re_createdAt : option string;
  re_updatedAt : option string
}.

(** What the display-order sort reads of an item ([Company[] | Report[]]
    in [SortManager]). *)
Class Ordered (A : Type) := {
  orderOf : A -> option Z;
  createdAtOf : A -> option string
}.

#[global] Instance Company_Ordered : Ordered Company :=
  {| orderOf := co_order; createdAtOf := co_createdAt |}.

#[global] Instance Report_Ordered : Ordered Report :=
  {| orderOf := re_order; createdAtOf := re_createdAt |}.

End Model.

(* ===================================================================== *)
(** * Display order and components/SortManager.tsx                        *)
(* ===================================================================== *)

Module Order.
Import Model.

(** ** [Array.prototype.sort] *)

Section ArraySort.
Context {A : Type}.

(** The comparator's number, [None] for NaN. *)
Variable comparefn : A -> A -> option Z.

(** SortCompare: [x] goes strictly in front of [y] when the comparator is
    negative; NaN counts as 0. *)
Definition precedes (x y : A) : bool :=
  match comparefn x y with
  | Some v => v <? 0
  | None => false
  end.

(** The sort is stable: an element only moves behind those that strictly
    precede it.  For a consistent comparator this is the one result the
    language allows. *)
Fixpoint insert (x : A) (sorted : list A) : list A :=
  match sorted with
  | [] => [x]
  | y :: rest => if precedes y x then y :: insert x rest else x :: y :: rest
  end.

Fixpoint sort (arr : list A) : list A :=
  match arr with
  | [] => []
  | x :: rest => insert x (sort rest)
  end.

End ArraySort.

(** ** The comparator used for companies and reports *)

Section DisplayOrder.
Context {A : Type} `{Ordered A}.

(** [new Date(s).getTime()], [None] for NaN. *)
Variable getTime : string -> option Z.

(** [a.order ?? 999999] *)
Definition effectiveOrder (a : A) : Z := default 999999 (orderOf a).

(** [new Date(a.createdAt || '').getTime()] *)
Definition createdTime (a : A) : option Z := getTime (default "" (createdAtOf a)).

Definition compareDisplay (a b : A) : option Z :=
  let orderA := effectiveOrder a in
  let orderB := effectiveOrder b in
  if negb (orderA =? orderB) then Some (orderA - orderB)
  else match createdTime b, createdTime a with
       | Some tb, Some ta => Some (tb - ta)
       | _, _ => None
       end.

Definition computeDisplayOrder (items : list A) : list A := sort compareDisplay items.

End DisplayOrder.

(** ** [SortManager]: [moveItem], [moveUp], [moveDown] *)

Section SortManager.
Context {A : Type}.

(** The value of a destructured element that is not there. *)
Variable undefined : A.

(** [arr.splice(start, deleteCount, ...ins)]: the removed elements and the
    array afterwards. *)
Definition splice (start deleteCount : Z) (ins : list A) (arr : list A)
    : list A * list A :=
  let len := Z.of_nat (length arr) in
  let from := if start <? 0 then Z.max (len + start) 0 else Z.min start len in
  let count := Z.min (Z.max deleteCount 0) (len - from) in
  (take (Z.to_nat count) (drop (Z.to_nat from) arr),
   take (Z.to_nat from) arr ++ ins ++ drop (Z.to_nat (from + count)) arr).

Record SortState := { sortedItems : list A; hasChanges : bool }.

Definition moveItem (fromIndex toIndex : Z) (st : SortState) : SortState :=
  if (toIndex <? 0) || (toIndex >=? Z.of_nat (length (sortedItems st))) then st
  else
    let newItems := sortedItems st in
    let (removed, newItems1) := splice fromIndex 1 [] newItems in
    let movedItem := hd undefined removed in
    let (_, newItems2) := splice toIndex 0 [movedItem] newItems1 in
    {| sortedItems := newItems2; hasChanges := true |}.

Definition moveUp (index : Z) : SortState -> SortState := moveItem index (index - 1).
Definition moveDown (index : Z) : SortState -> SortState := moveItem index (index + 1).

End SortManager.

(** ** [SortManager]: the rows of the dialog and [handleSave] *)

Inductive ItemType := CompanyItem | ReportItem.

Record SortItem := {
  si_id : string;
  si_name : string;
  si_subtitle : string;
  si_badge : string;
  si_iconUrl : option string;
  si_type : ItemType;
  si_originalIndex : nat
}.

(** [{ ...company, order }] and [{ ...report, order }] *)
Definition companyWithOrder (order : Z) (c : Company) : Company :=
  {| co_id := co_id c; co_name := co_name c; co_code := co_code c; co_type := co_type c;
     co_description := co_description c; co_iconUrl := co_iconUrl c; co_order := Some order;
     co_createdAt := co_createdAt c; co_updatedAt := co_updatedAt c |}.

Definition reportWithOrder (order : Z) (r : Report) : Report :=
  {| re_id := re_id r; re_companyId := re_companyId r; re_title := re_title r;
     re_analyst := re_analyst r; re_fileName := re_fileName r; re_fileSize := re_fileSize r;
     re_category := re_category r; re_comments := re_comments r; re_filePath := re_filePath r;
     re_order := Some order; re_createdAt := re_createdAt r; re_updatedAt := re_updatedAt r |}.

(** What [SortManager] does with an item of [Company[] | Report[]]: read
    its id, build its row (the two branches of [sorted.map] in the
    effect), and write its [order]. *)
Class Sortable (A : Type) := {
  itemId : A -> string;
  sortItemOf : nat -> A -> SortItem;
  withOrder : Z -> A -> A
}.

#[global] Instance Company_Sortable : Sortable Company :=
  {| itemId := co_id;
     sortItemOf index company :=
       {| si_id := co_id company; si_name := co_name company; si_subtitle := co_code company;
          si_badge := co_type company; si_iconUrl := co_iconUrl company;
          si_type := CompanyItem; si_originalIndex := index |};
     withOrder := companyWithOrder |}.

#[global] Instance Report_Sortable : Sortable Report :=
  {| itemId := re_id;
     sortItemOf index report :=
       {| si_id := re_id report; si_name := re_title report; si_subtitle := re_analyst report;
          si_badge := re_category report; si_iconUrl := None;
          si_type := ReportItem; si_originalIndex := index |};
     withOrder := reportWithOrder |}.

Section Dialog.
Context {A : Type} `{Ordered A} `{Sortable A}.

Variable getTime : string -> option Z.

(** The effect on [[items, type]]: the rows are rebuilt from the sorted
    items when there is at least one item. *)
Definition initSortItems (items : list A) (st : SortState (A := SortItem))
    : SortState (A := SortItem) :=
  match items with
  | [] => st
  | _ => {| sortedItems := imap sortItemOf (computeDisplayOrder getTime items);
            hasChanges := false |}
  end.

(** The record of the empty object: what [{ ...originalItem!, order }]
    spreads when [items.find] gives [undefined]. *)
Variable blank : A.

(** The list [handleSave] passes to [onReorder]. *)
Definition handleSave (items : list A) (st : SortState (A := SortItem)) : list A :=
  imap (fun index sortItem =>
          withOrder (Z.of_nat index)
            (default blank
               (List.find (fun item => String.eqb (itemId item) (si_id sortItem)) items)))
       (sortedItems st).

End Dialog.

End Order.

(* ===================================================================== *)
(** * supabase/functions/server: key-value store and route handlers       *)
(* ===================================================================== *)

Module Kv.

Section Table.
Context {V : Type}.

(** Modelled from the spec: [kv_store.tsx], the "key-value abstraction"
    the handlers import, is not among the sources; [get] is its lookup. *)
Definition get (key : string) (t : gmap string V) : option V := t !! key.

(** Modelled from the spec: [kv_store.tsx] is missing; [set] stores a
    value under a key, replacing what was there. *)
Definition set (key : string) (v : V) (t : gmap string V) : gmap string V := <[key := v]> t.

(** Modelled from the spec: [kv_store.tsx] is missing; [del] removes a
    key. *)
Definition del (key : string) (t : gmap string V) : gmap string V := delete key t.

(** Modelled from the spec: [kv_store.tsx] is missing; [getByPrefix]
    gives the values of all keys that start with the prefix, in no
    promised order. *)
Definition getByPrefix (prefix : string) (t : gmap string V) : list V :=
  map snd (map_to_list (filter (fun kv => String.prefix prefix (fst kv) = true) t)).

End Table.

End Kv.

Module Server.
Import Js Model Order.

(** The store is one table whose keys all start with one of the literals
    [company:], [report:], [comment:]; no key with one of these prefixes
    has another of them as a prefix, so the three families are kept as
    three tables indexed by the full key.  [reportBlobs] is the content of
    bucket [make-78971119-reports], [iconBlobs] that of
    [make-78971119-company-icons].

    The table operations are total here, so the [catch] branch of a
    handler (answer 500 when the store throws) has no counterpart; the
    one failure the handlers expect and swallow, a blob removal that does
    not happen, is kept (see [storageRemove]). *)
Record Store := {
  companies : gmap string Company;
  reports : gmap string Report;
  comments : gmap string Comment;
  reportBlobs : gset string;
  iconBlobs : gset string
}.

Definition empty : Store :=
  {| companies := ∅; reports := ∅; comments := ∅; reportBlobs := ∅; iconBlobs := ∅ |}.

Definition withCompanies (t : gmap string Company) (st : Store) : Store :=
  {| companies := t; reports := reports st; comments := comments st;
     reportBlobs := reportBlobs st; iconBlobs := iconBlobs st |}.

Definition withReports (t : gmap string Report) (st : Store) : Store :=
  {| companies := companies st; reports := t; comments := comments st;
     reportBlobs := reportBlobs st; iconBlobs := iconBlobs st |}.

Definition withComments (t : gmap string Comment) (st : Store) : Store :=
  {| companies := companies st; reports := reports st; comments := t;
     reportBlobs := reportBlobs st; iconBlobs := iconBlobs st |}.

Definition withReportBlobs (b : gset string) (st : Store) : Store :=
  {| companies := companies st; reports := reports st; comments := comments st;
     reportBlobs := b; iconBlobs := iconBlobs st |}.

Definition withIconBlobs (b : gset string) (st : Store) : Store :=
  {| companies := companies st; reports := reports st; comments := comments st;
     reportBlobs := reportBlobs st; iconBlobs := b |}.

Definition companyKey (id : string) : string := "company:" +:+ id.
Definition reportPrefix (companyId : string) : string := "report:" +:+ companyId +:+ ":".
Definition reportKey (companyId reportId : string) : string :=
  "report:" +:+ companyId +:+ ":" +:+ reportId.
Definition commentPrefix (companyId reportId : string) : string :=
  "comment:" +:+ companyId +:+ ":" +:+ reportId +:+ ":".
Definition commentKey (companyId reportId commentId : string) : string :=
  "comment:" +:+ companyId +:+ ":" +:+ reportId +:+ ":" +:+ commentId.

(** ** Responses: [c.json(body, status)] *)

Definition jsonResponse (status : Z) (body : value) : Api.Response :=
  {| Api.status := status; Api.text := stringify body; Api.json := Some body |}.

Definition failure (status : Z) (error : string) : Api.Response :=
  jsonResponse status (VObj [("success", VBool false); ("error", VStr error)]).

Definition success (data : value) : Api.Response :=
  jsonResponse 200 (VObj [("success", VBool true); ("data", data)]).

Definition successNoData : Api.Response :=
  jsonResponse 200 (VObj [("success", VBool true)]).

(** JSON form of the records; absent properties are left out. *)
Definition optField (k : string) (v : option value) : list (string * value) :=
  match v with Some x => [(k, x)] | None => [] end.

Definition companyValue (c : Company) : value :=
  VObj ([("id", VStr (co_id c)); ("name", VStr (co_name c)); ("code", VStr (co_code c));
         ("type", VStr (co_type c)); ("description", VStr (co_description c))]
        ++ optField "iconUrl" (VStr <$> co_iconUrl c)
        ++ optField "order" (VNum <$> co_order c)
        ++ optField "createdAt" (VStr <$> co_createdAt c)
        ++ optField "updatedAt" (VStr <$> co_updatedAt c)).

Definition commentValue (c : Comment) : value :=
  VObj ([("id", VStr (cm_id c)); ("content", VStr (cm_content c));
         ("createdAt", VStr (cm_createdAt c))]
        ++ optField "updatedAt" (VStr <$> cm_updatedAt c)).

Definition reportValue (r : Report) : value :=
  VObj ([("id", VStr (re_id r)); ("companyId", VStr (re_companyId r));
         ("title", VStr (re_title r)); ("analyst", VStr (re_analyst r));
         ("fileName", VStr (re_fileName r)); ("fileSize", VStr (re_fileSize r));
         ("category", VStr (re_category r))]
        ++ optField "comments" ((fun l => VArr (map commentValue l)) <$> re_comments r)
        ++ optField "filePath" (VStr <$> re_filePath r)
        ++ optField "order" (VNum <$> re_order r)
        ++ optField "createdAt" (VStr <$> re_createdAt r)
        ++ optField "updatedAt" (VStr <$> re_updatedAt r)).

Section Handlers.

(** [new Date(s).getTime()], [None] for NaN. *)
Variable getTime : string -> option Z.

(** ** company-handlers.tsx *)

(** The sorted list built by [GET /companies]. *)
Definition listCompanies (st : Store) : list Company :=
  computeDisplayOrder getTime (Kv.getByPrefix "company:" (companies st)).

Definition getCompanies (st : Store) : Api.Response :=
  success (VArr (map companyValue (listCompanies st))).

Definition getCompany (id : string) (st : Store) : Api.Response :=
  match Kv.get (companyKey id) (companies st) with
  | None => failure 404 "Company not found"
  | Some company => success (companyValue company)
  end.

(** The body of [POST /companies]; an absent field and an empty one are
    both falsy. *)
Record CompanyForm := {
  f_name : string; f_code : string; f_type : string; f_description : string
}.

Definition isEmpty (s : string) : bool := String.eqb s "".

(** [companies.reduce((max, company) => Math.max(max, company.order ?? 0), -1)] *)
Definition maxOrder (all : list Company) : Z :=
  fold_left (fun max company => Z.max max (default 0 (co_order company))) all (-1).

(** [uuid] is [crypto.randomUUID()], [now] is [new Date().toISOString()]. *)
Definition newCompany (body : CompanyForm) (uuid now : string) (st : Store) : Company :=
  {| co_id := uuid; co_name := f_name body; co_code := f_code body; co_type := f_type body;
     co_description := f_description body; co_iconUrl := None;
     co_order := Some (maxOrder (Kv.getByPrefix "company:" (companies st)) + 1);
     co_createdAt := Some now; co_updatedAt := Some now |}.

Definition createCompany (body : CompanyForm) (uuid now : string) (st : Store)
    : Api.Response * Store :=
  if isEmpty (f_name body) || isEmpty (f_code body) || isEmpty (f_type body)
  then (failure 400 "Missing required fields: name, code, type", st)
  else
    let company := newCompany body uuid now st in
    (success (companyValue company),
     withCompanies (Kv.set (companyKey uuid) company (companies st)) st).

Definition setOrder (order : Z) (now : string) (c : Company) : Company :=
  {| co_id := co_id c; co_name := co_name c; co_code := co_code c; co_type := co_type c;
     co_description := co_description c; co_iconUrl := co_iconUrl c;
     co_order := Some order;
     co_createdAt := co_createdAt c; co_updatedAt := Some now |}.

(** One callback of [orderUpdates.map(async ({id, order}) => ..)]. *)
Definition applyOrderUpdate (now : string) (t : gmap string Company) (u : string * Z)
    : gmap string Company :=
  match Kv.get (companyKey (fst u)) t with
  | Some existingCompany => Kv.set (companyKey (fst u)) (setOrder (snd u) now existingCompany) t
  | None => t
  end.

(** [POST /companies/reorder]; [None] is a body whose [orderUpdates] is not
    an array.  The callbacks run under [Promise.all]; they touch disjoint
    keys when the ids are distinct, and are taken here in list order. *)
Definition reorderCompanies (orderUpdates : option (list (string * Z))) (now : string)
    (st : Store) : Api.Response * Store :=
  match orderUpdates with
  | None => (failure 400 "orderUpdates must be an array", st)
  | Some updates =>
      (successNoData, withCompanies (fold_left (applyOrderUpdate now) updates (companies st)) st)
  end.

(** [s.split('/').pop()] *)
Fixpoint lastSegment (s : string) : string :=
  match s with
  | EmptyString => ""
  | String c rest =>
      if includes "/" rest then lastSegment rest
      else if Ascii.eqb c "/" then rest else s
  end.

(** [await supabase.storage.from(bucket).remove([path])] inside
    [try .. catch]: the blob goes away when the blob store carries the
    removal out ([removed path]); a failure is logged and ignored. *)
Definition storageRemove (removed : string -> bool) (path : string) (blobs : gset string)
    : gset string :=
  if removed path then blobs ∖ {[path]} else blobs.

(** The body of [for (const report of reports)] in [DELETE /companies/:id]. *)
Definition deleteReportOf (removed : string -> bool) (id : string) (st : Store)
    (report : Report) : Store :=
  let st1 := match re_filePath report with
             | Some filePath =>
                 if isEmpty filePath then st
                 else withReportBlobs (storageRemove removed filePath (reportBlobs st)) st
             | None => st
             end in
  let found := Kv.getByPrefix (commentPrefix id (re_id report)) (comments st1) in
  let st2 := withComments
               (fold_left (fun t comment => Kv.del (commentKey id (re_id report) (cm_id comment)) t)
                          found (comments st1)) st1 in
  withReports (Kv.del (reportKey id (re_id report)) (reports st2)) st2.

Definition deleteCompany (removed : string -> bool) (id : string) (st : Store)
    : Api.Response * Store :=
  match Kv.get (companyKey id) (companies st) with
  | None => (failure 404 "Company not found", st)
  | Some company =>
      let st1 := match co_iconUrl company with
                 | Some iconUrl =>
                     if isEmpty iconUrl || isEmpty (lastSegment iconUrl) then st
                     else withIconBlobs
                            (storageRemove removed ("company-icons/" +:+ lastSegment iconUrl)
                                           (iconBlobs st)) st
                 | None => st
                 end in
      let found := Kv.getByPrefix (reportPrefix id) (reports st1) in
      let st2 := fold_left (deleteReportOf removed id) found st1 in
      (successNoData, withCompanies (Kv.del (companyKey id) (companies st2)) st2)
  end.

(** ** report-handlers.tsx *)

(** [new Date(a.createdAt).getTime() - new Date(b.createdAt).getTime()] *)
Definition compareComments (a b : Comment) : option Z :=
  match getTime (cm_createdAt a), getTime (cm_createdAt b) with
  | Some ta, Some tb => Some (ta - tb)
  | _, _ => None
  end.

Definition withCommentList (l : list Comment) (r : Report) : Report :=
  {| re_id := re_id r; re_companyId := re_companyId r; re_title := re_title r;
     re_analyst := re_analyst r; re_fileName := re_fileName r; re_fileSize := re_fileSize r;
     re_category := re_category r; re_comments := Some l; re_filePath := re_filePath r;
     re_order := re_order r; re_createdAt := re_createdAt r; re_updatedAt := re_updatedAt r |}.

(** The list built by [GET /companies/:companyId/reports]. *)
Definition listReports (companyId : string) (st : Store) : list Report :=
  let found := Kv.getByPrefix (reportPrefix companyId) (reports st) in
  let attached :=
    map (fun report =>
           withCommentList
             (sort compareComments
                (Kv.getByPrefix (commentPrefix companyId (re_id report)) (comments st)))
             report) found in
  computeDisplayOrder getTime attached.

Definition getReports (companyId : string) (st : Store) : Api.Response :=
  success (VArr (map reportValue (listReports companyId st))).

(** [supabase.storage.from(bucket).createSignedUrl(path, expiresIn)]:
    the signed URL, or [None] for the [error] case. *)
Variable createSignedUrl : option string -> Z -> option string.

(** [GET /reports/:companyId/:reportId/download] *)
Definition downloadReport (companyId reportId : string) (st : Store) : Api.Response :=
  match Kv.get (reportKey companyId reportId) (reports st) with
  | None => failure 404 "Report not found"
  | Some report =>
      match createSignedUrl (re_filePath report) 3600 with
      | None => failure 500 "Failed to generate download link"
      | Some signedUrl =>
          jsonResponse 200 (VObj [("success", VBool true); ("downloadUrl", VStr signedUrl)])
      end
  end.

(** ** company-handlers.tsx: update and icon *)

Definition withCompanyFields (body : CompanyForm) (now : string) (c : Company) : Company :=
  {| co_id := co_id c; co_name := f_name body; co_code := f_code body; co_type := f_type body;
     co_description := f_description body; co_iconUrl := co_iconUrl c; co_order := co_order c;
     co_createdAt := co_createdAt c; co_updatedAt := Some now |}.

(** [PUT /companies/:id] *)
Definition updateCompany (id : string) (body : CompanyForm) (now : string) (st : Store)
    : Api.Response * Store :=
  match Kv.get (companyKey id) (companies st) with
  | None => (failure 404 "Company not found", st)
  | Some existingCompany =>
      if isEmpty (f_name body) || isEmpty (f_code body) || isEmpty (f_type body)
      then (failure 400 "Missing required fields: name, code, type", st)
      else
        let updatedCompany := withCompanyFields body now existingCompany in
        (success (companyValue updatedCompany),
         withCompanies (Kv.set (companyKey id) updatedCompany (companies st)) st)
  end.

(** [s.split(sep).pop()] for a one-character separator. *)
Fixpoint lastPart (sep : ascii) (s : string) : string :=
  match s with
  | EmptyString => ""
  | String c rest =>
      if includes (String sep "") rest then lastPart sep rest
      else if Ascii.eqb c sep then rest else s
  end.

Definition withIconUrl (iconUrl : option string) (now : string) (c : Company) : Company :=
  {| co_id := co_id c; co_name := co_name c; co_code := co_code c; co_type := co_type c;
     co_description := co_description c; co_iconUrl := iconUrl; co_order := co_order c;
     co_createdAt := co_createdAt c; co_updatedAt := Some now |}.

(** The [if (existingCompany.iconUrl) { try { .. remove .. } catch .. }]
    block that the icon routes share with [DELETE /companies/:id]. *)
Definition removeOldIcon (removed : string -> bool) (company : Company) (st : Store) : Store :=
  match co_iconUrl company with
  | Some iconUrl =>
      if isEmpty iconUrl || isEmpty (lastSegment iconUrl) then st
      else withIconBlobs
             (storageRemove removed ("company-icons/" +:+ lastSegment iconUrl)
                            (iconBlobs st)) st
  | None => st
  end.

(** [supabase.storage.from(bucket).getPublicUrl(path).data.publicUrl] *)
Variable getPublicUrl : string -> string.

(** [POST /companies/:id/icon]; [icon] is [formData.get('icon')], a file or
    nothing.  [uploaded path] tells whether the blob store carries the
    upload out; with [upsert] the blob replaces one at the same path. *)
Definition uploadIcon (uploaded removed : string -> bool) (id : string)
    (icon : option Api.File) (now : string) (st : Store) : Api.Response * Store :=
  match Kv.get (companyKey id) (companies st) with
  | None => (failure 404 "Company not found", st)
  | Some existingCompany =>
      match icon with
      | None => (failure 400 "No icon file provided", st)
      | Some iconFile =>
          if negb (String.prefix "image/" (Api.fileType iconFile))
          then (failure 400 "File must be an image", st)
          else if Api.fileSize iconFile >? 5 * 1024 * 1024
          then (failure 400 "File size must be less than 5MB", st)
          else
            let fileExtension := lastPart "." (Api.fileName iconFile) in
            let filePath := "company-icons/" +:+ id +:+ "." +:+ fileExtension in
            let st1 := removeOldIcon removed existingCompany st in
            if negb (uploaded filePath) then (failure 500 "Failed to upload icon", st1)
            else
              let st2 := withIconBlobs (iconBlobs st1 ∪ {[filePath]}) st1 in
              let updatedCompany :=
                withIconUrl (Some (getPublicUrl filePath)) now existingCompany in
              (success (companyValue updatedCompany),
               withCompanies (Kv.set (companyKey id) updatedCompany (companies st2)) st2)
      end
  end.

(** [DELETE /companies/:id/icon] *)
Definition removeIcon (removed : string -> bool) (id : string) (now : string) (st : Store)
    : Api.Response * Store :=
  match Kv.get (companyKey id) (companies st) with
  | None => (failure 404 "Company not found", st)
  | Some existingCompany =>
      let st1 := removeOldIcon removed existingCompany st in
      let updatedCompany := withIconUrl None now existingCompany in
      (success (companyValue updatedCompany),
       withCompanies (Kv.set (companyKey id) updatedCompany (companies st1)) st1)
  end.

(** ** report-handlers.tsx: upload, update, reorder, delete *)

(** The multipart form of [POST /companies/:companyId/reports] as the
    client builds it: three text fields and a file; an absent field and an
    empty one are both falsy. *)
Record ReportForm := {
  rf_title : string; rf_analyst : string; rf_category : string; rf_file : option Api.File
}.

(** [(size / 1024 / 1024).toFixed(1)]: the two divisions are exact, and
    [toFixed] takes the nearest tenth, the larger one on a tie. *)
Definition toFixed1 (size : Z) : string :=
  let n := (20 * size + 1048576) / 2097152 in
  pretty (n / 10) +:+ "." +:+ pretty (n mod 10).

(** [existingReports.reduce((max, report) => Math.max(max, report.order ?? 0), -1)] *)
Definition maxReportOrder (all : list Report) : Z :=
  fold_left (fun max report => Z.max max (default 0 (re_order report))) all (-1).

Definition newReport (companyId : string) (title analyst category : string) (file : Api.File)
    (reportId filePath now : string) (st : Store) : Report :=
  {| re_id := reportId; re_companyId := companyId; re_title := title; re_analyst := analyst;
     re_fileName := Api.fileName file;
     re_fileSize := toFixed1 (Api.fileSize file) +:+ "MB";
     re_category := category; re_comments := Some [];
     re_filePath := Some filePath;
     re_order :=
       Some (maxReportOrder (Kv.getByPrefix (reportPrefix companyId) (reports st)) + 1);
     re_createdAt := Some now; re_updatedAt := Some now |}.

(** [POST /companies/:companyId/reports]; [uuid] is [crypto.randomUUID()].
    Without [upsert] the upload fails when the path is taken, which
    [uploaded] decides together with every other failure. *)
Definition uploadReport (uploaded : string -> bool) (companyId : string) (form : ReportForm)
    (uuid now : string) (st : Store) : Api.Response * Store :=
  match rf_file form with
  | None => (failure 400 "Missing required fields", st)
  | Some file =>
      if isEmpty (rf_title form) || isEmpty (rf_analyst form) || isEmpty (rf_category form)
      then (failure 400 "Missing required fields", st)
      else if negb (includes "pdf" (Api.fileType file))
      then (failure 400 "Only PDF files are allowed", st)
      else
        let fileExtension := lastPart "." (Api.fileName file) in
        let filePath := companyId +:+ "/" +:+ uuid +:+ "." +:+ fileExtension in
        if negb (uploaded filePath) then (failure 500 "Failed to upload file", st)
        else
          let st1 := withReportBlobs (reportBlobs st ∪ {[filePath]}) st in
          let report :=
            newReport companyId (rf_title form) (rf_analyst form) (rf_category form) file
                      uuid filePath now st1 in
          (success (reportValue report),
           withReports (Kv.set (reportKey companyId uuid) report (reports st1)) st1)
  end.

(** The body of [PUT /reports/:companyId/:reportId]. *)
Record ReportEdit := {
  e_title : string; e_analyst : string; e_category : string; e_createdAt : string
}.

Definition withReportFields (body : ReportEdit) (now : string) (r : Report) : Report :=
  {| re_id := re_id r; re_companyId := re_companyId r; re_title := e_title body;
     re_analyst := e_analyst body; re_fileName := re_fileName r; re_fileSize := re_fileSize r;
     re_category := e_category body; re_comments := re_comments r;
     re_filePath := re_filePath r; re_order := re_order r;
     re_createdAt :=
       if isEmpty (e_createdAt body) then re_createdAt r else Some (e_createdAt body);
     re_updatedAt := Some now |}.

Definition updateReport (companyId reportId : string) (body : ReportEdit) (now : string)
    (st : Store) : Api.Response * Store :=
  match Kv.get (reportKey companyId reportId) (reports st) with
  | None => (failure 404 "Report not found", st)
  | Some existingReport =>
      if isEmpty (e_title body) || isEmpty (e_analyst body) || isEmpty (e_category body)
      then (failure 400 "Missing required fields: title, analyst, category", st)
      else
        let updatedReport := withReportFields body now existingReport in
        (success (reportValue updatedReport),
         withReports (Kv.set (reportKey companyId reportId) updatedReport (reports st)) st)
  end.

Definition setReportOrder (order : Z) (now : string) (r : Report) : Report :=
  {| re_id := re_id r; re_companyId := re_companyId r; re_title := re_title r;
     re_analyst := re_analyst r; re_fileName := re_fileName r; re_fileSize := re_fileSize r;
     re_category := re_category r; re_comments := re_comments r;
     re_filePath := re_filePath r; re_order := Some order;
     re_createdAt := re_createdAt r; re_updatedAt := Some now |}.

Definition applyReportOrderUpdate (companyId now : string) (t : gmap string Report)
    (u : string * Z) : gmap string Report :=
  match Kv.get (reportKey companyId (fst u)) t with
  | Some existingReport =>
      Kv.set (reportKey companyId (fst u)) (setReportOrder (snd u) now existingReport) t
  | None => t
  end.

(** [POST /companies/:companyId/reports/reorder], read as
    [reorderCompanies]. *)
Definition reorderReports (companyId : string) (orderUpdates : option (list (string * Z)))
    (now : string) (st : Store) : Api.Response * Store :=
  match orderUpdates with
  | None => (failure 400 "orderUpdates must be an array", st)
  | Some updates =>
      (successNoData,
       withReports (fold_left (applyReportOrderUpdate companyId now) updates (reports st)) st)
  end.

(** [DELETE /reports/:companyId/:reportId].  The blob removal is not
    guarded here: its [error] result is logged and ignored, and a report
    without [filePath] has nothing removed. *)
Definition deleteReport (removed : string -> bool) (companyId reportId : string) (st : Store)
    : Api.Response * Store :=
  match Kv.get (reportKey companyId reportId) (reports st) with
  | None => (failure 404 "Report not found", st)
  | Some report =>
      let st1 := match re_filePath report with
                 | Some filePath =>
                     withReportBlobs (storageRemove removed filePath (reportBlobs st)) st
                 | None => st
                 end in
      let found := Kv.getByPrefix (commentPrefix companyId reportId) (comments st1) in
      let st2 := withComments
                   (fold_left
                      (fun t comment => Kv.del (commentKey companyId reportId (cm_id comment)) t)
                      found (comments st1)) st1 in
      (successNoData, withReports (Kv.del (reportKey companyId reportId) (reports st2)) st2)
  end.

(** ** comment-handlers.tsx *)

(** [String.prototype.trim] *)
Variable trim : string -> string.

(** [allComments.sort(..)] as every comment route returns it. *)
Definition listComments (companyId reportId : string) (t : gmap string Comment) : list Comment :=
  sort compareComments (Kv.getByPrefix (commentPrefix companyId reportId) t).

Definition commentsResponse (companyId reportId : string) (t : gmap string Comment)
    : Api.Response :=
  success (VArr (map commentValue (listComments companyId reportId t))).

(** [POST /reports/:companyId/:reportId/comments]; [content] is the
    [content] property of the body, empty when absent. *)
Definition addComment (companyId reportId content uuid now : string) (st : Store)
    : Api.Response * Store :=
  if isEmpty content || isEmpty (trim content)
  then (failure 400 "Comment content is required", st)
  else
    match Kv.get (reportKey companyId reportId) (reports st) with
    | None => (failure 404 "Report not found", st)
    | Some _ =>
        let comment := {| cm_id := uuid; cm_content := trim content;
                          cm_createdAt := now; cm_updatedAt := None |} in
        let t := Kv.set (commentKey companyId reportId uuid) comment (comments st) in
        (commentsResponse companyId reportId t, withComments t st)
    end.

(** [PUT /reports/:companyId/:reportId/comments/:commentId] *)
Definition updateComment (companyId reportId commentId content now : string) (st : Store)
    : Api.Response * Store :=
  if isEmpty content || isEmpty (trim content)
  then (failure 400 "Comment content is required", st)
  else
    match Kv.get (commentKey companyId reportId commentId) (comments st) with
    | None => (failure 404 "Comment not found", st)
    | Some existingComment =>
        let updatedComment := {| cm_id := cm_id existingComment; cm_content := trim content;
                                 cm_createdAt := cm_createdAt existingComment;
                                 cm_updatedAt := Some now |} in
        let t := Kv.set (commentKey companyId reportId commentId) updatedComment
                        (comments st) in
        (commentsResponse companyId reportId t, withComments t st)
    end.

(** [DELETE /reports/:companyId/:reportId/comments/:commentId] *)
Definition deleteComment (companyId reportId commentId : string) (st : Store)
    : Api.Response * Store :=
  match Kv.get (commentKey companyId reportId commentId) (comments st) with
  | None => (failure 404 "Comment not found", st)
  | Some _ =>
      let t := Kv.del (commentKey companyId reportId commentId) (comments st) in
      (commentsResponse companyId reportId t, withComments t st)
  end.

(** ** index.tsx: sample data *)

Definition sampleRecord (id name code type description now : string) : Company :=
  {| co_id := id; co_name := name; co_code := code; co_type := type;
     co_description := description; co_iconUrl := None; co_order := None;
     co_createdAt := Some now; co_updatedAt := Some now |}.

Definition sampleCompanies (now : string) : list Company :=
  [sampleRecord "1" "海外TMT追踪" "TMT" "行业"
     "TMT赛道，海外科技投资track【股票类型：行业报告】" now;
   sampleRecord "2" "Figma" "FIG.N" "美股" "协作设计软件龙头【股票类型：美股】" now;
   sampleRecord "3" "DraftKings" "DKNG" "美股"
     "美国领先的体育博彩和幻想体育平台【股票类型：美股】" now;
   sampleRecord "4" "腾讯控股" "0700.HK" "港股" "中国互联网巨头，游戏和社交平台领导者" now;
   sampleRecord "5" "阿里巴巴" "9988.HK" "港股" "中国电商和云计算领军企业" now;
   sampleRecord "6" "台积电" "TSM" "美股" "全球最大的半导体代工制造商" now].

(** [POST /init-sample-data]: the six records are written over whatever
    is stored under their keys; the answer carries a [message] and no
    [data]. *)
Definition initSample (now : string) (st : Store) : Api.Response * Store :=
  (jsonResponse 200 (VObj [("success", VBool true);
                           ("message", VStr "Sample data initialized")]),
   withCompanies
     (fold_left (fun t company => Kv.set (companyKey (co_id company)) company t)
                (sampleCompanies now) (companies st)) st).

(** ** The routes as one transition function *)

(** A request as a route sees it: the path parameters, the parsed body,
    and what the handler draws from its environment ([uuid] for
    [crypto.randomUUID()], [now] for [new Date().toISOString()]). *)
Inductive Request :=
| GetCompanies
| GetCompany (id : string)
| PostCompany (body : CompanyForm) (uuid now : string)
| PutCompany (id : string) (body : CompanyForm) (now : string)
| PostCompaniesReorder (orderUpdates : option (list (string * Z))) (now : string)
| PostCompanyIcon (id : string) (icon : option Api.File) (now : string)
| DeleteCompanyIcon (id : string) (now : string)
| DeleteCompany (id : string)
| GetReports (companyId : string)
| PostReport (companyId : string) (form : ReportForm) (uuid now : string)
| PutReport (companyId reportId : string) (body : ReportEdit) (now : string)
| PostReportsReorder (companyId : string) (orderUpdates : option (list (string * Z)))
    (now : string)
| GetDownload (companyId reportId : string)
| DeleteReport (companyId reportId : string)
| PostComment (companyId reportId content uuid now : string)
| PutComment (companyId reportId commentId content now : string)
| DeleteComment (companyId reportId commentId : string)
| PostInitSampleData (now : string).

(** [uploaded] and [removed] say which blob operations the blob store
    carries out while the request is handled. *)
Definition handle (uploaded removed : string -> bool) (req : Request) (st : Store)
    : Api.Response * Store :=
  match req with
  | GetCompanies => (getCompanies st, st)
  | GetCompany id => (getCompany id st, st)
  | PostCompany body uuid now => createCompany body uuid now st
  | PutCompany id body now => updateCompany id body now st
  | PostCompaniesReorder orderUpdates now => reorderCompanies orderUpdates now st
  | PostCompanyIcon id icon now => uploadIcon uploaded removed id icon now st
  | DeleteCompanyIcon id now => removeIcon removed id now st
  | DeleteCompany id => deleteCompany removed id st
  | GetReports companyId => (getReports companyId st, st)
  | PostReport companyId form uuid now => uploadReport uploaded companyId form uuid now st
  | PutReport companyId reportId body now => updateReport companyId reportId body now st
  | PostReportsReorder companyId orderUpdates now =>
      reorderReports companyId orderUpdates now st
  | GetDownload companyId reportId => (downloadReport companyId reportId st, st)
  | DeleteReport companyId reportId => deleteReport removed companyId reportId st
  | PostComment companyId reportId content uuid now =>
      addComment companyId reportId content uuid now st
  | PutComment companyId reportId commentId content now =>
      updateComment companyId reportId commentId content now st
  | DeleteComment companyId reportId commentId =>
      deleteComment companyId reportId commentId st
  | PostInitSampleData now => initSample now st
  end.

End Handlers.

(** ** index.tsx: the buckets *)

(** The bucket the report routes name, and the one the icon routes and
    [DELETE /companies/:id] name. *)
Definition reportsBucket : string := "make-78971119-reports".
Definition companyIconsBucket : string := "make-78971119-company-icons".

(** The [buckets] array of [initStorage]. *)
Definition startupBuckets : list string := ["make-78971119-reports"; "make-78971119-icons"].

(** What [supabase.storage.listBuckets()] does in one round of the loop:
    it gives the bucket list, gives no [data], or throws. *)
Inductive Listing := Lists | ListsNothing | ListingThrows.

(** One round of [for (const bucket of buckets)]; [created name] tells
    whether [createBucket] puts the bucket in place. *)
Definition initBucket (listing : string -> Listing) (created : string -> bool)
    (existing : gset string) (name : string) : gset string :=
  match listing name with
  | ListingThrows => existing
  | answer =>
      let bucketExists := match answer with
                          | Lists => bool_decide (name ∈ existing)
                          | _ => false
                          end in
      if bucketExists then existing
      else if created name then existing ∪ {[name]} else existing
  end.

Definition initStorage (listing : string -> Listing) (created : string -> bool)
    (existing : gset string) : gset string :=
  fold_left (initBucket listing created) startupBuckets existing.

End Server.

(* ===================================================================== *)
(** * supabase/functions/server/index.tsx: the route table                *)
(* ===================================================================== *)

Module Router.




(** [s.split(sep)] for a one-character separator. *)
Fixpoint split (sep : ascii) (s : string) : list string :=
  match s with
  | EmptyString => [""]
  | String c rest =>
      if Ascii.eqb c sep then "" :: split sep rest
      else match split sep rest with
           | [] => [String c ""]
           | segment :: segments => String c segment :: segments
           end
  end.







(** What the framework answers when no route matches. *)
Definition notFound : Api.Response :=
  {| Api.status := 404; Api.text := "404 Not Found"; Api.json := None |}.

End Router.

(* ===================================================================== *)
(** * App.tsx: [handleCompaniesReorder]                                   *)
(* ===================================================================== *)

Module App.
Import Model.

Section Reorder.
Variables projectId publicAnonKey : string.



End Reorder.

(** ** The updaters passed to [setCompanies] *)

(** [prev => [newCompany, ...prev]] *)
Definition handleCompanyCreated (newCompany : Company) (prev : list Company) : list Company :=
  newCompany :: prev.



(** ** [loadCompanies] *)

Section Load.
Import Js.
Variables projectId publicAnonKey : string.

(** [data.length === 0]; [None] is the TypeError on [null] and
    [undefined]. *)
Definition lengthIsZero (data : value) : option bool :=
  match data with
  | VUndefined | VNull => None
  | VArr elems => Some (match elems with [] => true | _ => false end)
  | VStr s => Some (String.eqb s "")
  | VObj fields => Some (match assoc "length" fields with VNum 0 => true | _ => false end)
  | VBool _ | VNum _ => Some false
  end.

(** Where one run of [loadCompanies] is suspended. *)
Inductive LoadStage :=
| NotLoading
| AwaitGetAll (r : Api.Result)
| AwaitInit (r : Api.Result)
| AwaitSampleData (r : Api.Result).

(** The [companies] state as [setCompanies] left it, the stage of the
    run, and whether the [catch] branch has shown its toast. *)
Record Loader := { shown : value; stage : LoadStage; failed : bool }.

Definition atStage (st : LoadStage) (ld : Loader) : Loader :=
  {| shown := shown ld; stage := st; failed := failed ld |}.

Definition finished (data : value) (ld : Loader) : Loader :=
  {| shown := data; stage := NotLoading; failed := failed ld |}.

Definition caught (ld : Loader) : Loader :=
  {| shown := shown ld; stage := NotLoading; failed := true |}.

(** The call of [loadCompanies(forceRefresh)] up to its first [await];
    [closureLength] is [companies.length] as the callback's closure has
    it. *)
Definition loadCompanies (forceRefresh : bool) (closureLength : Z) (isInitialLoad : bool)
    (now : Z) (ld : Loader) (s : Api.State) : Loader * Api.State :=
  if negb forceRefresh && (0 <? closureLength) && negb isInitialLoad then (ld, s)
  else
    let (r, s') := Api.companyApi_getAll projectId publicAnonKey now s in
    (atStage (AwaitGetAll r) ld, s').

(** The run goes on at time [now] when the awaited promise has settled. *)
Definition resume (now : Z) (ld : Loader) (s : Api.State) : Loader * Api.State :=
  match stage ld with
  | NotLoading => (ld, s)
  | AwaitGetAll r =>
      match Api.outcome s r with
      | None => (ld, s)
      | Some (Api.Rejected _) => (caught ld, s)
      | Some (Api.Resolved data) =>
          match lengthIsZero data with
          | None => (caught ld, s)
          | Some true =>
              let (r', s') := Api.initSampleData projectId publicAnonKey now s in
              (atStage (AwaitInit r') ld, s')
          | Some false => (finished data ld, s)
          end
      end
  | AwaitInit r =>
      match Api.outcome s r with
      | None => (ld, s)
      | Some (Api.Rejected _) => (caught ld, s)
      | Some (Api.Resolved _) =>
          let (r', s') := Api.companyApi_getAll projectId publicAnonKey now s in
          (atStage (AwaitSampleData r') ld, s')
      end
  | AwaitSampleData r =>
      match Api.outcome s r with
      | None => (ld, s)
      | Some (Api.Rejected _) => (caught ld, s)
      | Some (Api.Resolved sampleData) => (finished sampleData ld, s)
      end
  end.

End Load.

End App.

(* ===================================================================== *)
(** * components/CompanyList.tsx                                          *)
(* ===================================================================== *)

Module CompanyList.
Import Js Model Order.

Section View.

(** [String.prototype.toLowerCase] *)
Variable toLowerCase : string -> string.
Variable getTime : string -> option Z.

Definition allTypes : string := "全部类型".

Definition filteredCompanies (searchTerm selectedType : string) (companies : list Company)
    : list Company :=
  List.filter
    (fun company =>
       let matchesSearch :=
         includes (toLowerCase searchTerm) (toLowerCase (co_name company))
         || includes (toLowerCase searchTerm) (toLowerCase (co_code company)) in
       let matchesType :=
         String.eqb selectedType allTypes || String.eqb (co_type company) selectedType in
       matchesSearch && matchesType)
    companies.

Definition sortedCompanies (searchTerm selectedType : string) (companies : list Company)
    : list Company :=
  computeDisplayOrder getTime (filteredCompanies searchTerm selectedType companies).

End View.

Section Delete.
Variables projectId publicAnonKey : string.

(** [handleConfirmDelete] up to its [await]: nothing happens without a
    company to delete. *)
Definition handleConfirmDelete (companyToDelete : option Company) (now : Z) (s : Api.State)
    : Api.State :=
  match companyToDelete with
  | None => s
  | Some company => snd (Api.companyApi_delete projectId publicAnonKey (co_id company) now s)
  end.

End Delete.

End CompanyList.

(* ===================================================================== *)
(** * components/PasswordConfirmDialog.tsx                                *)
(* ===================================================================== *)

Module PasswordConfirmDialog.

Definition correctPassword : string := "1111".

(** What [handleSubmit] ends in: one of its two messages, or the call of
    [onConfirm]. *)
Inductive Verdict := AskPassword | WrongPassword | Confirmed.

Definition handleSubmit (password : string) : Verdict :=
  if String.eqb password "" then AskPassword
  else if String.eqb password correctPassword then Confirmed
  else WrongPassword.

End PasswordConfirmDialog.

(* ===================================================================== *)
(** * components/CompanyDetail.tsx: the upload form                       *)
(* ===================================================================== *)

Module CompanyDetail.
Import Js Model.

Record UploadForm := {
  uf_title : string; uf_analyst : string; uf_category : string; uf_file : option Api.File
}.

Definition emptyUploadForm : UploadForm :=
  {| uf_title := ""; uf_analyst := ""; uf_category := "会议纪要"; uf_file := None |}.

Definition withFile (file : Api.File) (form : UploadForm) : UploadForm :=
  {| uf_title := uf_title form; uf_analyst := uf_analyst form;
     uf_category := uf_category form; uf_file := Some file |}.

(** [handleFileUpload]: [file] is [event.target.files?.[0]]; a file that
    is refused leaves the form as it was. *)
Definition handleFileUpload (file : option Api.File) (form : UploadForm) : UploadForm :=
  match file with
  | None => form
  | Some file =>
      if negb (includes "pdf" (Api.fileType file)) then form
      else if Api.fileSize file >? 50 * 1024 * 1024 then form
      else withFile file form
  end.

Section Submit.
Variables projectId publicAnonKey : string.

(** [handleUploadSubmit] up to its [await]. *)
Definition handleUploadSubmit (companyId : string) (now : Z) (form : UploadForm)
    (s : Api.State) : option Api.Result * Api.State :=
  match uf_file form with
  | None => (None, s)
  | Some file =>
      if String.eqb (uf_title form) "" || String.eqb (uf_analyst form) "" then (None, s)
      else
        let (r, s') :=
          Api.reportApi_upload projectId publicAnonKey companyId
            {| Api.up_title := uf_title form; Api.up_analyst := uf_analyst form;
               Api.up_category := uf_category form; Api.up_file := file |} now s in
        (Some r, s')
  end.

(** What happens to the dialog: the inputs change, a file is chosen, the
    form is submitted, a submitted upload comes back, or a request of the
    data layer moves on. *)
Inductive Event :=
| SetTitle (title : string)
| SetAnalyst (analyst : string)
| SetCategory (category : string)
| SelectFile (file : option Api.File)
| Submit (now : Z)
| UploadReturned (r : Api.Result)
| Network (c : Api.Completion).

Definition react (companyId : string) (st : UploadForm * Api.State) (e : Event)
    : UploadForm * Api.State :=
  let (form, s) := st in
  match e with
  | SetTitle title =>
      ({| uf_title := title; uf_analyst := uf_analyst form;
          uf_category := uf_category form; uf_file := uf_file form |}, s)
  | SetAnalyst analyst =>
      ({| uf_title := uf_title form; uf_analyst := analyst;
          uf_category := uf_category form; uf_file := uf_file form |}, s)
  | SetCategory category =>
      ({| uf_title := uf_title form; uf_analyst := uf_analyst form;
          uf_category := category; uf_file := uf_file form |}, s)
  | SelectFile file => (handleFileUpload file form, s)
  | Submit now => (form, snd (handleUploadSubmit companyId now form s))
  | UploadReturned r =>
      match Api.outcome s r with
      | Some (Api.Resolved _) => (emptyUploadForm, s)
      | _ => (form, s)
      end
  | Network c => (form, Api.complete s c)
  end.

End Submit.

End CompanyDetail.

(* ===================================================================== *)
(** * components/CompanyIconUpload.tsx                                    *)
(* ===================================================================== *)

Module CompanyIconUpload.

(** [handleFileSelect]: the file that becomes [selectedFile], if any. *)
Definition handleFileSelect (file : option Api.File) (selectedFile : option Api.File)
    : option Api.File :=
  match file with
  | None => selectedFile
  | Some file =>
      if negb (String.prefix "image/" (Api.fileType file)) then selectedFile
      else if Api.fileSize file >? 2 * 1024 * 1024 then selectedFile
      else Some file
  end.

Section Upload.
Variables projectId publicAnonKey : string.

(** [handleUpload] up to its [await]. *)
Definition handleUpload (companyId : string) (selectedFile : option Api.File) (now : Z)
    (s : Api.State) : option Api.Result * Api.State :=
  match selectedFile with
  | None => (None, s)
  | Some file =>
      let (r, s') := Api.companyApi_uploadIcon projectId publicAnonKey companyId file now s in
      (Some r, s')
  end.

End Upload.

End CompanyIconUpload.

(* ===================================================================== *)
(** * utils/helpers.ts                                                    *)
(* ===================================================================== *)

Module Helpers.
Import Model.

Section Dates.

(** [new Date(s).getTime()], [None] for NaN. *)
Variable getTime : string -> option Z.

(** [new Date(s).toLocaleDateString('zh-CN', ..)] *)
Variable toLocaleDateString : string -> string.

Definition formatDate (dateString : string) : string :=
  if String.eqb dateString "" then "" else toLocaleDateString dateString.

(** [new Date(report.createdAt || '') > new Date(latest.createdAt || '')];
    a comparison with an invalid date is false. *)
Definition newer (report latest : Report) : bool :=
  match getTime (default "" (re_createdAt report)),
        getTime (default "" (re_createdAt latest)) with
  | Some a, Some b => b <? a
  | _, _ => false
  end.

(** [reports.reduce((latest, report) => .. ? report : latest)] on a list
    that is not empty. *)
Definition latestOf (first : Report) (rest : list Report) : Report :=
  fold_left (fun latest report => if newer report latest then report else latest) rest first.

Definition getLatestReportDate (reports : list Report) : string :=
  match reports with
  | [] => "-"
  | first :: rest => formatDate (default "" (re_createdAt (latestOf first rest)))
  end.

End Dates.

(** [new Set(reports.map(report => report.analyst)).size] *)
Definition getAnalystCount (reports : list Report) : nat :=
  size (list_to_set (map re_analyst reports) : gset string).

(** [reports.reduce((total, report) => total + (report.comments?.length || 0), 0)] *)
Definition getTotalComments (reports : list Report) : Z :=
  fold_left (fun total report =>
               total + match re_comments report with
                       | Some comments => Z.of_nat (length comments)
                       | None => 0
                       end)
            reports 0.

End Helpers.

(* ===================================================================== *)
(** * Facts about strings                                                 *)
(* ===================================================================== *)

Section StringFacts.
Import Js.

Lemma append_cons x (a b : string) : String x a +:+ b = String x (a +:+ b).
Proof. reflexivity. Qed.

Lemma append_assoc (a b c : string) : (a +:+ b) +:+ c = a +:+ (b +:+ c).
Proof.
  induction a as [|x a IH]; [done|]. rewrite !append_cons. by rewrite IH.
Qed.

Lemma prefix_append (a b : string) : String.prefix a (a +:+ b) = true.
Proof.
  induction a as [|x a IH]; [by destruct b|].
  rewrite append_cons. simpl. destruct (ascii_dec x x); [done|congruence].
Qed.

Lemma prefix_cons_inv x a y b :
  String.prefix (String x a) (String y b) = true -> x = y /\ String.prefix a b = true.
Proof. simpl. destruct (ascii_dec x y); [done|discriminate]. Qed.

Lemma includes_of_prefix (pattern s : string) :
  String.prefix pattern s = true -> includes pattern s = true.
Proof. intros Hp. destruct s; unfold includes; fold includes; by rewrite Hp. Qed.

Lemma includes_prefix (pattern rest : string) : includes pattern (pattern +:+ rest) = true.
Proof. apply includes_of_prefix, prefix_append. Qed.

End StringFacts.

(* ===================================================================== *)
(** * Properties of the client data layer                                 *)
(* ===================================================================== *)

Section ApiFacts.
Import Js Api.

(** ** Three ways through [makeRequest] *)

Lemma makeRequest_hit url o ck now s k d ts :
  cacheSlot o ck = Some k ->
  cache s !! k = Some (d, ts) ->
  now - ts < CACHE_DURATION ->
  truthy d = true ->
  makeRequest url o ck now s = (Now d, s).
Proof.
  intros Hslot Hc Hage Ht. unfold makeRequest, cachedValue, getCachedData.
  rewrite Hslot, Hc.
  destruct (Z.ltb_spec (now - ts) CACHE_DURATION) as [_|Hge]; [|lia].
  by rewrite Ht.
Qed.

Lemma makeRequest_shared url o ck now s p :
  truthy (cachedValue o ck now s) = false ->
  pendingRequests s !! requestKey url o = Some p ->
  makeRequest url o ck now s = (Follow p, s).
Proof. intros Hm Hp. unfold makeRequest. by rewrite Hm, Hp. Qed.

Lemma makeRequest_fresh url o ck now s :
  truthy (cachedValue o ck now s) = false ->
  pendingRequests s !! requestKey url o = None ->
  makeRequest url o ck now s = startFetch url o ck s.
Proof. intros Hm Hp. unfold makeRequest. by rewrite Hm, Hp. Qed.

(** A call that reads no cache slot always misses. *)
Lemma cachedValue_no_slot o ck now s :
  cacheSlot o ck = None -> cachedValue o ck now s = VNull.
Proof. intros H. unfold cachedValue. by rewrite H. Qed.

(** An entry that is expired or absent stays so as the clock advances. *)
Lemma cachedValue_miss_later o ck t1 t2 s :
  t1 <= t2 ->
  truthy (cachedValue o ck t1 s) = false ->
  truthy (cachedValue o ck t2 s) = false.
Proof.
  unfold cachedValue, getCachedData. intros Hle.
  destruct (cacheSlot o ck) as [k|]; [|done].
  destruct (cache s !! k) as [[d ts]|]; [|done].
  destruct (Z.ltb_spec (t1 - ts) CACHE_DURATION), (Z.ltb_spec (t2 - ts) CACHE_DURATION);
    try done; lia.
Qed.

(** ** The promise chain of one request *)

Lemma startFetch_inflight url o ck s :
  inflight (snd (startFetch url o ck s)) !! nextId s
  = Some {| rq_url := url; rq_options := o; rq_cacheKey := ck; rq_phase := AwaitFetch |}.
Proof. simpl. apply lookup_insert_eq. Qed.

Lemma startFetch_pending url o ck s :
  pendingRequests (snd (startFetch url o ck s)) !! requestKey url o = Some (nextId s).
Proof. simpl. apply lookup_insert_eq. Qed.

Lemma fetchResolved_pending p resp s rq :
  inflight s !! p = Some rq -> rq_phase rq = AwaitFetch ->
  pendingRequests (fetchResolved p resp s) !! requestKey (rq_url rq) (rq_options rq) = None.
Proof.
  intros Hp Hph. unfold fetchResolved. rewrite Hp, Hph. simpl. apply lookup_delete_eq.
Qed.

Lemma fetchRejected_pending p e s rq :
  inflight s !! p = Some rq -> rq_phase rq = AwaitFetch ->
  pendingRequests (fetchRejected p e s) !! requestKey (rq_url rq) (rq_options rq) = None.
Proof.
  intros Hp Hph. unfold fetchRejected. rewrite Hp, Hph. simpl. apply lookup_delete_eq.
Qed.

Lemma fetchRejected_settled p e s rq :
  inflight s !! p = Some rq -> rq_phase rq = AwaitFetch ->
  settled (fetchRejected p e s) !! p = Some (Rejected e).
Proof.
  intros Hp Hph. unfold fetchRejected. rewrite Hp, Hph. simpl. apply lookup_insert_eq.
Qed.

(** After the response of a request that was waiting for [fetch], reading
    the body runs the rest of the [then] callback. *)
Lemma bodyRead_after_response p resp now s rq :
  inflight s !! p = Some rq -> rq_phase rq = AwaitFetch ->
  bodyRead p now (fetchResolved p resp s)
  = let s1 := fetchResolved p resp s in
    if ok resp then
      match json resp with
      | Some result => onJson p rq now result s1
      | None => catchHandler p rq SyntaxError s1
      end
    else catchHandler p rq
           (Error ("HTTP " +:+ pretty (status resp) +:+ ": " +:+ text resp)) s1.
Proof.
  intros Hp Hph. unfold bodyRead.
  assert (inflight (fetchResolved p resp s) !! p
          = Some {| rq_url := rq_url rq; rq_options := rq_options rq;
                    rq_cacheKey := rq_cacheKey rq;
                    rq_phase := if ok resp then AwaitJson resp else AwaitText resp |}) as ->.
  { unfold fetchResolved. rewrite Hp, Hph. simpl. apply lookup_insert_eq. }
  simpl. destruct (ok resp); simpl; [|done].
  destruct (json resp); [|done]. unfold onJson. simpl. done.
Qed.

Lemma catchHandler_settled p rq e s :
  settled (catchHandler p rq e s) !! p = Some (Rejected e).
Proof. simpl. apply lookup_insert_eq. Qed.

Lemma onJson_failure p rq now fields s :
  truthy (assoc "success" fields) = false ->
  settled (onJson p rq now (VObj fields) s) !! p
  = Some (Rejected (Error (toString (or_else (assoc "error" fields)
                                             (VStr "API request failed"))))).
Proof. intros H. unfold onJson. simpl. rewrite H. simpl. apply lookup_insert_eq. Qed.

Lemma onJson_success p rq now fields s :
  truthy (assoc "success" fields) = true ->
  settled (onJson p rq now (VObj fields) s) !! p = Some (Resolved (assoc "data" fields)).
Proof. intros H. unfold onJson. simpl. rewrite H. simpl. apply lookup_insert_eq. Qed.

(** ** Failure semantics *)

(** C7.  For a request that [makeRequest] has sent and whose [fetch] is
    outstanding, once the response [resp] has arrived and its body has been
    read: a status outside 200..299 rejects the promise with
    [Error("HTTP <status>: <body text>")]; a 2xx response whose envelope has
    [success: false] rejects it with the envelope's [error] message, or with
    ["API request failed"] when the envelope carries no (truthy) [error];
    a 2xx response whose envelope has [success: true] resolves it with the
    envelope's [data]. *)
Theorem makeRequest_response_semantics s p rq resp now :
  inflight s !! p = Some rq ->
  rq_phase rq = AwaitFetch ->
  let s' := bodyRead p now (fetchResolved p resp s) in
  (status resp < 200 \/ 299 < status resp ->
     settled s' !! p
     = Some (Rejected (Error ("HTTP " +:+ pretty (status resp) +:+ ": " +:+ text resp))))
  /\ (forall fields,
        200 <= status resp <= 299 ->
        json resp = Some (VObj fields) ->
        assoc "success" fields = VBool false ->
        (forall msg, assoc "error" fields = VStr msg -> msg <> "" ->
           settled s' !! p = Some (Rejected (Error msg)))
        /\ (truthy (assoc "error" fields) = false ->
              settled s' !! p = Some (Rejected (Error "API request failed"))))
  /\ (forall fields,
        200 <= status resp <= 299 ->
        json resp = Some (VObj fields) ->
        assoc "success" fields = VBool true ->
        settled s' !! p = Some (Resolved (assoc "data" fields))).
Proof.
  intros Hp Hph s'. subst s'. rewrite (bodyRead_after_response _ _ _ _ _ Hp Hph). simpl.
  split; [|split].
  - intros Hst. assert (ok resp = false) as ->.
    { unfold ok. destruct (Z.leb_spec 200 (status resp)), (Z.leb_spec (status resp) 299);
        simpl; try done; lia. }
    apply catchHandler_settled.
  - intros fields Hst Hj Hs. assert (ok resp = true) as ->.
    { unfold ok. destruct (Z.leb_spec 200 (status resp)), (Z.leb_spec (status resp) 299);
        simpl; try done; lia. }
    rewrite Hj. rewrite onJson_failure by (by rewrite Hs). split.
    + intros msg He Hne. rewrite He. unfold or_else. simpl.
      destruct (String.eqb_spec msg ""); [done|]. done.
    + intros He. unfold or_else. by rewrite He.
  - intros fields Hst Hj Hs. assert (ok resp = true) as ->.
    { unfold ok. destruct (Z.leb_spec 200 (status resp)), (Z.leb_spec (status resp) 299);
        simpl; try done; lia. }
    rewrite Hj. apply onJson_success. by rewrite Hs.
Qed.

(** A request sent from the initial state, answered with a 404. *)
Definition sampleRequest : Request :=
  {| rq_url := "https://p.supabase.co/functions/v1/make-server-78971119/companies/7";
     rq_options := getOptions "k"; rq_cacheKey := None; rq_phase := AwaitFetch |}.

Definition sampleSent : State :=
  snd (makeRequest (rq_url sampleRequest) (rq_options sampleRequest) None 0 initial).

Definition notFound : Response :=
  {| status := 404; text := "gone"; json := None |}.

Lemma makeRequest_response_semantics_witness :
  settled (bodyRead 0 7 (fetchResolved 0 notFound sampleSent)) !! 0%nat
  = Some (Rejected (Error "HTTP 404: gone")).
Proof.
  assert (inflight sampleSent !! 0%nat = Some sampleRequest) as Hp by (vm_compute; reflexivity).
  destruct (makeRequest_response_semantics sampleSent 0 sampleRequest notFound 7 Hp eq_refl)
    as [H _].
  apply H. right. simpl. lia.
Defined.

(** ** Request deduplication *)

(** C1, as the code has it.  Take a call that is not answered from the
    cache while no identical request is pending.  It issues one [fetch] and
    registers its promise [p].  Every identical call made while that entry
    is in [pendingRequests] and not answered from the cache (in particular
    one made right after the first, at the same or a later time) issues no
    [fetch] and settles as [p] does, so both callers see the same value or
    the same error.  The entry is removed when the response arrives or the
    [fetch] fails; from then on an identical call that is not answered from
    the cache issues a fresh [fetch]. *)
Theorem makeRequest_dedup url o ck t1 s :
  truthy (cachedValue o ck t1 s) = false ->
  pendingRequests s !! requestKey url o = None ->
  let p := nextId s in
  let s1 := snd (makeRequest url o ck t1 s) in
  makeRequest url o ck t1 s = (Follow p, s1)
  /\ fetchLog s1 = fetchLog s ++ [(url, o)]
  /\ (forall t2, t1 <= t2 ->
        makeRequest url o ck t2 s1 = (Follow p, s1))
  /\ (forall s' t2,
        pendingRequests s' !! requestKey url o = Some p ->
        truthy (cachedValue o ck t2 s') = false ->
        makeRequest url o ck t2 s' = (Follow p, s')
        /\ forall s'', outcome s'' (fst (makeRequest url o ck t2 s')) = outcome s'' (Follow p))
  /\ (forall resp, pendingRequests (fetchResolved p resp s1) !! requestKey url o = None)
  /\ (forall e, pendingRequests (fetchRejected p e s1) !! requestKey url o = None
                /\ settled (fetchRejected p e s1) !! p = Some (Rejected e))
  /\ (forall s' t3,
        pendingRequests s' !! requestKey url o = None ->
        truthy (cachedValue o ck t3 s') = false ->
        fetchLog (snd (makeRequest url o ck t3 s')) = fetchLog s' ++ [(url, o)]).
Proof.
  intros Hmiss Hnone p s1. subst p s1.
  rewrite (makeRequest_fresh _ _ _ _ _ Hmiss Hnone).
  pose proof (startFetch_inflight url o ck s) as Hin.
  pose proof (startFetch_pending url o ck s) as Hpend.
  split; [done|]. split; [done|]. split; [|split; [|split; [|split]]].
  - intros t2 Hle. apply makeRequest_shared; [|exact Hpend].
    apply (cachedValue_miss_later o ck t1 t2); [done|]. exact Hmiss.
  - intros s' t2 Hp Hm. rewrite (makeRequest_shared _ _ _ _ _ _ Hm Hp). done.
  - intros resp. apply (fetchResolved_pending _ resp _ _ Hin eq_refl).
  - intros e. split.
    + apply (fetchRejected_pending _ e _ _ Hin eq_refl).
    + apply (fetchRejected_settled _ e _ _ Hin eq_refl).
  - intros s' t3 Hn Hm. by rewrite (makeRequest_fresh _ _ _ _ _ Hm Hn).
Qed.

Definition companiesUrl : string :=
  "https://p.supabase.co/functions/v1/make-server-78971119/companies".

Lemma makeRequest_dedup_witness :
  makeRequest companiesUrl (getOptions "k") (Some "companies_getAll") 5
    (snd (makeRequest companiesUrl (getOptions "k") (Some "companies_getAll") 0 initial))
  = (Follow 0,
     snd (makeRequest companiesUrl (getOptions "k") (Some "companies_getAll") 0 initial)).
Proof.
  destruct (makeRequest_dedup companiesUrl (getOptions "k") (Some "companies_getAll") 0
              initial eq_refl eq_refl) as (_ & _ & H & _).
  apply H. lia.
Defined.

(** The envelope [{success: true, data}] with status 200. *)
Definition okResponse (data : value) : Response :=
  {| status := 200; text := stringify (VObj [("success", VBool true); ("data", data)]);
     json := Some (VObj [("success", VBool true); ("data", data)]) |}.

(** C1 as stated fails in two ways.  (a) After a cached read has completed,
    an identical call within the TTL is answered from the cache: no fresh
    network request.  (b) The [then] callback deletes the pending entry
    before it awaits the body, so an identical call made after the response
    has arrived but before the first promise has settled issues a second
    [fetch]. *)
Lemma makeRequest_dedup_counterexample :
  let call := makeRequest companiesUrl (getOptions "k") (Some "companies_getAll") in
  let sent := snd (call 0 initial) in
  let arrived := fetchResolved 0 (okResponse (VArr [VStr "A"])) sent in
  let done := bodyRead 0 1 arrived in
  (pendingRequests done !! requestKey companiesUrl (getOptions "k") = None
   /\ fst (call 2 done) = Now (VArr [VStr "A"])
   /\ fetchLog (snd (call 2 done)) = fetchLog sent)
  /\ (settled arrived !! 0%nat = None
      /\ fst (call 1 arrived) = Follow 1
      /\ fetchLog (snd (call 1 arrived))
         = [(companiesUrl, getOptions "k"); (companiesUrl, getOptions "k")]).
Proof. vm_compute. repeat split. Qed.

(** ** The TTL cache *)

Lemma CACHE_DURATION_ms : CACHE_DURATION = 300000.
Proof. reflexivity. Qed.




(** ** Multipart bodies under the deduplication key *)

(** Without a cache key [makeRequest] is the deduplicator alone. *)
Lemma makeRequest_uncached url o now s :
  makeRequest url o None now s
  = match pendingRequests s !! requestKey url o with
    | Some p => (Follow p, s)
    | None => startFetch url o None s
    end.
Proof. reflexivity. Qed.

(** C10.  The deduplication key of a request with a [FormData] body does
    not depend on the form's content.  Hence two [reportApi.upload] calls
    for the same company, the second made while the first is pending,
    share one promise: the second call issues no [fetch], and when the
    first one went to the network the only upload sent is the first. *)
Theorem upload_requests_collide projectId key companyId d1 d2 t1 t2 s :
  let url := API_BASE_URL projectId +:+ "/companies/" +:+ companyId +:+ "/reports" in
  (forall fd1 fd2,
     requestKey url (formOptions key fd1) = requestKey url (formOptions key fd2))
  /\ let first := reportApi_upload projectId key companyId d1 t1 s in
     let second := reportApi_upload projectId key companyId d2 t2 (snd first) in
     (exists p, fst first = Follow p /\ fst second = Follow p)
     /\ fetchLog (snd second) = fetchLog (snd first)
     /\ (pendingRequests s !! requestKey url (formOptions key (uploadForm d1)) = None ->
           fetchLog (snd second)
           = fetchLog s ++ [(url, formOptions key (uploadForm d1))]).
Proof.
  intros url. split; [done|]. intros first second. subst first second.
  unfold reportApi_upload. fold url.
  set (o1 := formOptions key (uploadForm d1)).
  set (o2 := formOptions key (uploadForm d2)).
  assert (requestKey url o2 = requestKey url o1) as Hk by done.
  rewrite !makeRequest_uncached.
  destruct (pendingRequests (clear ("reports_" +:+ companyId) s) !! requestKey url o1)
    as [p0|] eqn:Hp; simpl in Hp.
  - simpl. rewrite Hk, Hp. simpl. split; [by exists p0|]. split; [done|].
    intros Hn. by rewrite Hn in Hp.
  - simpl. rewrite Hk, lookup_insert_eq. simpl. split; [by eexists|]. done.
Qed.

End ApiFacts.

(* ===================================================================== *)
(** * Cache invalidation by company mutations                             *)
(* ===================================================================== *)

Section Invalidation.
Import Js Api.

Variables projectId publicAnonKey : string.

(** The deduplication key of [companyApi.getAll]. *)
Definition getAllKey : string :=
  requestKey (API_BASE_URL projectId +:+ "/companies") (getOptions publicAnonKey).

(** The request a mutation sends and the invalidation it performs first. *)
Definition mutationTarget (m : CompanyMutation) : string * RequestInit :=
  let base := API_BASE_URL projectId in
  match m with
  | Create data => (base +:+ "/companies", jsonOptions publicAnonKey "POST" (Some data))
  | Update id data =>
      (base +:+ "/companies/" +:+ id, jsonOptions publicAnonKey "PUT" (Some data))
  | Delete id => (base +:+ "/companies/" +:+ id, jsonOptions publicAnonKey "DELETE" None)
  | UpdateOrder orderUpdates =>
      (base +:+ "/companies/reorder",
       jsonOptions publicAnonKey "POST" (Some (orderUpdatesValue orderUpdates)))
  | UploadIcon id file =>
      (base +:+ "/companies/" +:+ id +:+ "/icon",
       formOptions publicAnonKey [("icon", FormFile file)])
  | RemoveIcon id =>
      (base +:+ "/companies/" +:+ id +:+ "/icon", jsonOptions publicAnonKey "DELETE" None)
  end.





Lemma mutationKey_ne m :
  requestKey (fst (mutationTarget m)) (snd (mutationTarget m)) <> getAllKey.
Proof.
  unfold getAllKey, requestKey.
  destruct m; simpl fst; simpl snd; generalize (API_BASE_URL projectId) as base; intros base;
    rewrite !append_assoc; intros H; apply (inj (String.append base)) in H.
  - apply (inj (String.append "/companies")) in H.
    apply (inj (String.append "_")) in H.
    cbv in H. discriminate H.
  - revert H.
    generalize (stringify (optionsValue (jsonOptions publicAnonKey "PUT" (Some data)))).
    generalize (stringify (optionsValue (getOptions publicAnonKey))). intros a b H.
    cbv in H. discriminate H.
  - revert H. generalize (stringify (optionsValue (jsonOptions publicAnonKey "DELETE" None))).
    generalize (stringify (optionsValue (getOptions publicAnonKey))). intros a b H.
    cbv in H. discriminate H.
  - revert H.
    generalize (stringify (optionsValue
                  (jsonOptions publicAnonKey "POST" (Some (orderUpdatesValue orderUpdates))))).
    generalize (stringify (optionsValue (getOptions publicAnonKey))). intros a b H.
    cbv in H. discriminate H.
  - revert H.
    generalize (stringify (optionsValue (formOptions publicAnonKey [("icon", FormFile file)]))).
    generalize (stringify (optionsValue (getOptions publicAnonKey))). intros a b H.
    cbv in H. discriminate H.
  - revert H. generalize (stringify (optionsValue (jsonOptions publicAnonKey "DELETE" None))).
    generalize (stringify (optionsValue (getOptions publicAnonKey))). intros a b H.
    cbv in H. discriminate H.
Qed.





(** *** The quiet condition is kept by every completion *)






(** *** A mutation establishes it *)



(** The cache keys of both company reads contain [companies]. *)
Lemma company_cache_keys id :
  includes "companies" (getCacheKey "companies_getAll" None) = true
  /\ includes "companies"
       (getCacheKey "companies_getById" (Some (VObj [("id", VStr id)]))) = true.
Proof.
  split; [done|]. unfold getCacheKey. cbv [truthy].
  change ("companies_getById" +:+ ?r) with ("companies" +:+ "_getById" +:+ r).
  apply includes_prefix.
Qed.

(** *** ... and by every step that is not a company read *)

(** A call that neither fills a cache slot whose key contains [companies]
    nor has the deduplication key of [getAll]. *)
Definition apartFromCompanies (e : Step) : Prop :=
  match e with
  | Call url o cacheKey _ =>
      (forall k, cacheSlot o cacheKey = Some k -> includes "companies" k = false)
      /\ requestKey url o <> getAllKey
  | _ => True
  end.



(** Another company mutation, as the two steps it consists of, is such a
    step sequence. *)
Lemma mutation_apart m now :
  Forall apartFromCompanies
    [Clear "companies"; Call (fst (mutationTarget m)) (snd (mutationTarget m)) None now].
Proof.
  repeat constructor; [done|apply mutationKey_ne].
Qed.


End Invalidation.

(* ===================================================================== *)
(** * SortManager: moving an item                                         *)
(* ===================================================================== *)

Section MoveItem.
Import Order.
Context {A : Type} (undefined : A).

Lemma splice_remove_one (items : list A) (i : nat) (x : A) :
  items !! i = Some x ->
  splice (Z.of_nat i) 1 [] items = ([x], delete i items).
Proof.
  intros Hx. pose proof (lookup_lt_Some _ _ _ Hx) as Hlt. unfold splice.
  destruct (Z.ltb_spec (Z.of_nat i) 0) as [|_]; [lia|].
  replace (Z.min (Z.of_nat i) (Z.of_nat (length items))) with (Z.of_nat i) by lia.
  replace (Z.min (Z.max 1 0) (Z.of_nat (length items) - Z.of_nat i)) with 1 by lia.
  replace (Z.to_nat (Z.of_nat i + 1)) with (S i) by lia.
  rewrite Nat2Z.id. change (Z.to_nat 1) with 1%nat. f_equal.
  - rewrite (drop_S _ _ _ Hx). simpl. by rewrite take_0.
  - simpl. symmetry. apply delete_take_drop.
Qed.

Lemma splice_insert_one (rest : list A) (j : nat) (x : A) :
  (j <= length rest)%nat ->
  snd (splice (Z.of_nat j) 0 [x] rest) = take j rest ++ x :: drop j rest.
Proof.
  intros Hle. unfold splice. simpl snd.
  destruct (Z.ltb_spec (Z.of_nat j) 0) as [|_]; [lia|].
  replace (Z.min (Z.of_nat j) (Z.of_nat (length rest))) with (Z.of_nat j) by lia.
  replace (Z.min (Z.max 0 0) (Z.of_nat (length rest) - Z.of_nat j)) with 0 by lia.
  rewrite Z.add_0_r, Nat2Z.id. done.
Qed.

(** The list [moveItem] builds for indices in range. *)
Lemma moveItem_in_range (items : list A) (changed : bool) (i j : nat) (x : A) :
  items !! i = Some x ->
  (j < length items)%nat ->
  moveItem undefined (Z.of_nat i) (Z.of_nat j)
    {| sortedItems := items; hasChanges := changed |}
  = {| sortedItems := take j (delete i items) ++ x :: drop j (delete i items);
       hasChanges := true |}.
Proof.
  intros Hx Hj. pose proof (lookup_lt_Some _ _ _ Hx) as Hi. unfold moveItem. simpl sortedItems.
  destruct (Z.ltb_spec (Z.of_nat j) 0) as [|_]; [lia|].
  destruct (Z.geb_spec (Z.of_nat j) (Z.of_nat (length items))) as [|_]; [lia|].
  simpl orb. cbv iota. rewrite (splice_remove_one _ _ _ Hx). simpl hd.
  pose proof (splice_insert_one (delete i items) j x) as Hins.
  destruct (splice (Z.of_nat j) 0 [x] (delete i items)) as [removed newItems2].
  simpl in Hins. rewrite Hins; [done|].
  rewrite length_delete by (by eexists). lia.
Qed.

Lemma moved_list_lookup (items : list A) (i j k : nat) (x : A) :
  items !! i = Some x ->
  (j < length items)%nat ->
  (take j (delete i items) ++ x :: drop j (delete i items)) !! k
  = if decide (k = j) then Some x
    else if decide (i <= k < j)%nat then items !! S k
    else if decide (j < k <= i)%nat then items !! (k - 1)%nat
    else items !! k.
Proof.
  intros Hx Hj. pose proof (lookup_lt_Some _ _ _ Hx) as Hi.
  assert (length (delete i items) = (length items - 1)%nat) as Hlen
    by (rewrite length_delete by (by eexists); lia).
  assert (length (take j (delete i items)) = j) as Htake
    by (rewrite length_take; lia).
  destruct (decide (k = j)) as [->|Hkj].
  - rewrite lookup_app_r by lia. rewrite Htake, Nat.sub_diag. done.
  - destruct (decide (k < j)%nat) as [Hlt|Hge].
    + rewrite lookup_app_l by lia. rewrite lookup_take_lt by lia.
      destruct (decide (i <= k < j)%nat) as [Hr|Hr].
      * by rewrite list_lookup_delete_ge by lia.
      * destruct (decide (j < k <= i)%nat); [lia|].
        by rewrite list_lookup_delete_lt by lia.
    + rewrite lookup_app_r by lia. rewrite Htake.
      replace (k - j)%nat with (S (k - j - 1)) by lia. simpl.
      rewrite lookup_drop. replace (j + (k - j - 1))%nat with (k - 1)%nat by lia.
      destruct (decide (i <= k < j)%nat); [lia|].
      destruct (decide (j < k <= i)%nat) as [Hr|Hr].
      * by rewrite list_lookup_delete_lt by lia.
      * rewrite list_lookup_delete_ge by lia. f_equal. lia.
Qed.

(** C5.  For a valid [fromIndex] (item [x] stands there) and a [toIndex]
    in range, [moveItem] takes [x] out and puts it back at [toIndex]: the
    new list has [x] at [toIndex], the items between the two positions
    moved by one place towards [fromIndex], all others where they were; it
    is a permutation of the old list.  For [toIndex < 0] or
    [toIndex >= length] the call changes nothing. *)
Theorem moveItem_spec (items : list A) (changed : bool) (i : nat) (x : A) :
  items !! i = Some x ->
  let st := {| sortedItems := items; hasChanges := changed |} in
  (forall j, (j < length items)%nat ->
     let moved := sortedItems (moveItem undefined (Z.of_nat i) (Z.of_nat j) st) in
     moved = take j (delete i items) ++ x :: drop j (delete i items)
     /\ moved ≡ₚ items
     /\ length moved = length items
     /\ moved !! j = Some x
     /\ (forall k, k <> j ->
           moved !! k = if decide (i <= k < j)%nat then items !! S k
                        else if decide (j < k <= i)%nat then items !! (k - 1)%nat
                        else items !! k))
  /\ (forall fromIndex toIndex,
        toIndex < 0 \/ Z.of_nat (length items) <= toIndex ->
        moveItem undefined fromIndex toIndex st = st).
Proof.
  intros Hx st. split.
  - intros j Hj moved. subst moved st. rewrite (moveItem_in_range _ _ _ _ _ Hx Hj).
    simpl sortedItems.
    assert ((take j (delete i items) ++ x :: drop j (delete i items)) ≡ₚ items) as Hperm.
    { rewrite <- Permutation_middle, take_drop.
      symmetry. by apply delete_Permutation. }
    split; [done|]. split; [done|]. split; [by rewrite Hperm|]. split.
    + rewrite (moved_list_lookup _ _ _ _ _ Hx Hj). by rewrite decide_True.
    + intros k Hk. rewrite (moved_list_lookup _ _ _ _ _ Hx Hj). by rewrite decide_False.
  - intros fromIndex toIndex Hout. unfold moveItem. subst st. simpl sortedItems.
    destruct Hout as [Hneg|Hbig].
    + destruct (Z.ltb_spec toIndex 0); [done|lia].
    + destruct (Z.geb_spec toIndex (Z.of_nat (length items))); [|lia].
      by rewrite orb_true_r.
Qed.

End MoveItem.

Lemma moveItem_spec_witness :
  Order.sortedItems
    (Order.moveItem "?" 0 2
       {| Order.sortedItems := ["a"; "b"; "c"; "d"]; Order.hasChanges := false |})
  = ["b"; "c"; "a"; "d"]
  /\ Order.moveItem "?" 0 (-1)
       {| Order.sortedItems := ["a"; "b"; "c"; "d"]; Order.hasChanges := false |}
     = {| Order.sortedItems := ["a"; "b"; "c"; "d"]; Order.hasChanges := false |}.
Proof.
  destruct (moveItem_spec "?" ["a"; "b"; "c"; "d"] false 0 "a" eq_refl) as [Hin Hout].
  split.
  - destruct (Hin 2%nat ltac:(simpl; lia)) as [H _]. exact H.
  - apply Hout. left. lia.
Defined.


(* ===================================================================== *)
(** * The display-order sort                                              *)
(* ===================================================================== *)

Section SortFacts.
Import Order.
Context {A : Type} (comparefn : A -> A -> option Z).

Lemma insert_perm (x : A) (l : list A) : insert comparefn x l ≡ₚ x :: l.
Proof.
  induction l as [|y l IH]; simpl; [done|].
  destruct (precedes comparefn y x); [|done].
  rewrite IH. apply Permutation_swap.
Qed.

Lemma sort_perm (l : list A) : sort comparefn l ≡ₚ l.
Proof.
  induction l as [|x l IH]; simpl; [done|]. by rewrite insert_perm, IH.
Qed.

Lemma sort_elem (l : list A) (x : A) : x ∈ sort comparefn l <-> x ∈ l.
Proof. by rewrite sort_perm. Qed.

(** When the comparator decides a transitive relation [le] on the elements
    of the list, the result is sorted for [le]. *)
Lemma sort_sorted (le : A -> A -> Prop) (l : list A) :
  (forall x y z, le x y -> le y z -> le x z) ->
  (forall x y, x ∈ l -> y ∈ l -> if precedes comparefn y x then le y x else le x y) ->
  StronglySorted le (sort comparefn l).
Proof.
  intros Htrans. induction l as [|x l IH]; intros Hdec; simpl; [constructor|].
  assert (StronglySorted le (sort comparefn l)) as Hs.
  { apply IH. intros a b Ha Hb. apply Hdec; by right. }
  assert (forall y, y ∈ sort comparefn l ->
            if precedes comparefn y x then le y x else le x y) as Hx.
  { intros y Hy. apply Hdec; [left|right]. by apply sort_elem. }
  clear IH Hdec. induction Hs as [|y rest Hs IHs Hall]; simpl.
  - repeat constructor.
  - pose proof (Hx y ltac:(left)) as Hy.
    destruct (precedes comparefn y x).
    + constructor.
      * apply IHs. intros z Hz. apply Hx. by right.
      * apply Forall_forall. intros z Hz.
        apply (elem_of_Permutation_proper _ _ _ (insert_perm x rest)) in Hz.
        apply elem_of_cons in Hz as [->|Hz]; [done|].
        rewrite Forall_forall in Hall. by apply Hall.
    + constructor; [by constructor|].
      constructor; [done|].
      apply Forall_forall. intros z Hz. rewrite Forall_forall in Hall.
      apply (Htrans _ y); [done|by apply Hall].
Qed.

End SortFacts.

Section SortedLists.
Context {A : Type}.

Lemma StronglySorted_lookup (R : A -> A -> Prop) (l : list A) (i j : nat) (x y : A) :
  StronglySorted R l -> (i < j)%nat -> l !! i = Some x -> l !! j = Some y -> R x y.
Proof.
  intros Hs. revert i j. induction Hs as [|z l Hs IH Hall]; intros i j Hij Hi Hj; [done|].
  destruct j as [|j]; [lia|]. simpl in Hj. destruct i as [|i].
  - simpl in Hi. injection Hi as ->. rewrite Forall_forall in Hall.
    apply Hall. by apply (list_elem_of_lookup_2 _ j).
  - simpl in Hi. apply (IH i j); [lia|done..].
Qed.

Lemma StronglySorted_weaken (R S : A -> A -> Prop) (l : list A) :
  StronglySorted R l ->
  (forall x y, x ∈ l -> y ∈ l -> R x y -> S x y) ->
  StronglySorted S l.
Proof.
  induction 1 as [|x l Hs IH Hall]; intros Himp; [constructor|].
  constructor.
  - apply IH. intros a b Ha Hb. apply Himp; by right.
  - rewrite Forall_forall in Hall. apply Forall_forall. intros z Hz.
    apply Himp; [by left|by right|by apply Hall].
Qed.

Lemma StronglySorted_strict (key : A -> Z) (l : list A) :
  StronglySorted (fun a b => key a <= key b) l ->
  NoDup (map key l) ->
  StronglySorted (fun a b => key a < key b) l.
Proof.
  induction 1 as [|x l Hs IH Hall]; intros Hnd; [constructor|].
  simpl in Hnd. apply NoDup_cons in Hnd as [Hx Hnd]. constructor; [by apply IH|].
  rewrite Forall_forall in Hall. apply Forall_forall. intros z Hz.
  pose proof (Hall z Hz). assert (key x <> key z); [|lia].
  intros E. apply Hx. rewrite E. apply list_elem_of_fmap. by exists z.
Qed.

(** A list sorted strictly by a key is the only such arrangement of its
    elements. *)
Lemma strictly_sorted_unique (key : A -> Z) (l1 l2 : list A) :
  StronglySorted (fun a b => key a < key b) l1 ->
  StronglySorted (fun a b => key a < key b) l2 ->
  l1 ≡ₚ l2 -> l1 = l2.
Proof.
  apply StronglySorted_unique_strong. intros x1 x2 _ _ H1 H2. lia.
Qed.

End SortedLists.

Section DisplayFacts.
Import Model Order.
Context {A : Type} `{Ordered A}.
Variable getTime : string -> option Z.

(** [a] may stand before [b]: smaller effective order, or the same one and
    a creation time that is not earlier. *)
Definition displayLe (a b : A) : Prop :=
  effectiveOrder a < effectiveOrder b
  \/ (effectiveOrder a = effectiveOrder b
      /\ exists ta tb, createdTime getTime a = Some ta
                       /\ createdTime getTime b = Some tb /\ tb <= ta).

Lemma displayLe_trans a b c : displayLe a b -> displayLe b c -> displayLe a c.
Proof.
  intros [Hab|(Eab & ta & tb & Ha & Hb & Hab)] [Hbc|(Ebc & tb' & tc & Hb' & Hc & Hbc)].
  - left. lia.
  - left. lia.
  - left. lia.
  - right. split; [lia|]. exists ta, tc. rewrite Hb in Hb'. injection Hb' as <-.
    repeat split; [done..|lia].
Qed.

Lemma displayLe_order a b : displayLe a b -> effectiveOrder a <= effectiveOrder b.
Proof. intros [?|[? _]]; lia. Qed.

Lemma precedes_order x y :
  if precedes (compareDisplay getTime) y x
  then effectiveOrder y <= effectiveOrder x
  else effectiveOrder x <= effectiveOrder y.
Proof.
  unfold precedes, compareDisplay.
  destruct (Z.eqb_spec (effectiveOrder y) (effectiveOrder x)) as [E|E]; simpl.
  - destruct (createdTime getTime x), (createdTime getTime y); try lia.
    destruct (_ <? 0); lia.
  - destruct (Z.ltb_spec (effectiveOrder y - effectiveOrder x) 0); lia.
Qed.

Lemma precedes_display x y :
  is_Some (createdTime getTime x) -> is_Some (createdTime getTime y) ->
  if precedes (compareDisplay getTime) y x then displayLe y x else displayLe x y.
Proof.
  intros [tx Hx] [ty Hy]. unfold precedes, compareDisplay, displayLe.
  destruct (Z.eqb_spec (effectiveOrder y) (effectiveOrder x)) as [E|E]; simpl.
  - rewrite Hx, Hy. destruct (Z.ltb_spec (tx - ty) 0).
    + right. split; [done|]. exists ty, tx. repeat split; [done..|lia].
    + right. split; [done|]. exists tx, ty. repeat split; [done..|lia].
  - destruct (Z.ltb_spec (effectiveOrder y - effectiveOrder x) 0); left; lia.
Qed.

Lemma display_sorted_by_order (items : list A) :
  StronglySorted (fun a b => effectiveOrder a <= effectiveOrder b)
    (computeDisplayOrder getTime items).
Proof.
  apply sort_sorted.
  - intros x y z. lia.
  - intros x y _ _. apply precedes_order.
Qed.

(** With pairwise distinct effective orders the comparator never reads a
    date and the result is strictly ascending. *)
Lemma display_sorted_strict (items : list A) :
  NoDup (map effectiveOrder items) ->
  StronglySorted (fun a b => effectiveOrder a < effectiveOrder b)
    (computeDisplayOrder getTime items).
Proof.
  intros Hnd. apply StronglySorted_strict; [apply display_sorted_by_order|].
  unfold computeDisplayOrder. by rewrite sort_perm.
Qed.

(** C4, as the code has it.  The display-order sort returns a permutation
    of the items.  When every item has a [createdAt] that parses to a time,
    the result is in ascending order of [order], an item without [order]
    counting as 999999, and items with the same such order stand by
    [createdAt] descending (so the items without [order] are by [createdAt]
    descending among themselves); every item without [order] then stands
    after every item whose [order] is below 999999.  When the orders, with
    999999 for a missing one, are pairwise distinct (in particular when all
    items have an [order] and these are distinct) the result is strictly
    ascending. *)
Theorem computeDisplayOrder_spec (items : list A) :
  let out := computeDisplayOrder getTime items in
  out ≡ₚ items
  /\ ((forall x, x ∈ items -> is_Some (createdTime getTime x)) ->
      StronglySorted displayLe out
      /\ ((forall x o, x ∈ items -> orderOf x = Some o -> o < 999999) ->
          forall i j x y,
            out !! i = Some x -> out !! j = Some y ->
            orderOf x = None -> is_Some (orderOf y) -> (j < i)%nat))
  /\ (NoDup (map effectiveOrder items) ->
      StronglySorted (fun a b => effectiveOrder a < effectiveOrder b) out)
  /\ ((forall x, x ∈ items -> is_Some (orderOf x)) ->
      NoDup (map orderOf items) ->
      StronglySorted (fun a b => exists oa ob, orderOf a = Some oa /\ orderOf b = Some ob
                                               /\ oa < ob) out).
Proof.
  intros out.
  assert (out ≡ₚ items) as Hperm by apply sort_perm.
  assert (NoDup (map effectiveOrder items) ->
          StronglySorted (fun a b => effectiveOrder a < effectiveOrder b) out) as Hstrict
    by apply display_sorted_strict.
  split; [done|]. split; [|split; [done|]].
  - intros Hvalid.
    assert (StronglySorted displayLe out) as Hs.
    { apply sort_sorted; [apply displayLe_trans|].
      intros x y Hx Hy. apply precedes_display; by apply Hvalid. }
    split; [done|]. intros Hbound i j x y Hi Hj Hx [o Hy].
    assert (x ∈ items /\ y ∈ items) as [Hxin Hyin].
    { split; rewrite <- Hperm; by eapply list_elem_of_lookup_2. }
    pose proof (Hbound y o Hyin Hy) as Ho.
    destruct (Nat.lt_trichotomy i j) as [Hlt|[->|Hgt]]; [|congruence|done].
    pose proof (displayLe_order _ _ (StronglySorted_lookup _ _ _ _ _ _ Hs Hlt Hi Hj)) as Hle.
    unfold effectiveOrder in Hle. rewrite Hx, Hy in Hle. simpl in Hle. lia.
  - intros Hdef Hnd.
    assert (NoDup (map effectiveOrder items)) as Hnd'.
    { replace (map effectiveOrder items) with (default 999999 <$> (orderOf <$> items)).
      - apply NoDup_fmap_2_strong; [|done].
        intros a b [x [-> Hx]]%list_elem_of_fmap [y [-> Hy]]%list_elem_of_fmap.
        destruct (Hdef x Hx) as [ox ->], (Hdef y Hy) as [oy ->]. simpl. congruence.
      - rewrite <- list_fmap_compose. done. }
    pose proof (Hstrict Hnd') as Hs.
    apply (StronglySorted_weaken _ _ _ Hs). intros a b Ha Hb Hab.
    rewrite Hperm in Ha, Hb.
    destruct (Hdef a Ha) as [oa Hoa], (Hdef b Hb) as [ob Hob].
    exists oa, ob. unfold effectiveOrder in Hab. rewrite Hoa, Hob in Hab. done.
Qed.

End DisplayFacts.

(** ** Sample data *)

(** [new Date(s).getTime()] on the strings used below. *)
Definition sampleTime (s : string) : option Z :=
  if String.eqb s "2024-01-01T00:00:00.000Z" then Some 1704067200000
  else if String.eqb s "2024-01-02T00:00:00.000Z" then Some 1704153600000
  else if String.eqb s "2024-01-03T00:00:00.000Z" then Some 1704240000000
  else None.

Definition jan1 : option string := Some "2024-01-01T00:00:00.000Z".
Definition jan2 : option string := Some "2024-01-02T00:00:00.000Z".
Definition jan3 : option string := Some "2024-01-03T00:00:00.000Z".

Definition sampleCompany (id : string) (order : option Z) (createdAt : option string)
    : Model.Company :=
  {| Model.co_id := id; Model.co_name := id; Model.co_code := id; Model.co_type := "HK";
     Model.co_description := ""; Model.co_iconUrl := None; Model.co_order := order;
     Model.co_createdAt := createdAt; Model.co_updatedAt := createdAt |}.

Definition sampleItems : list Model.Company :=
  [sampleCompany "a" (Some 2) jan1; sampleCompany "b" None jan1;
   sampleCompany "c" (Some 1) jan2; sampleCompany "d" None jan2;
   sampleCompany "e" (Some 1) jan3].

Example computeDisplayOrder_sample :
  map Model.co_id (Order.computeDisplayOrder sampleTime sampleItems) = ["e"; "c"; "a"; "d"; "b"].
Proof. reflexivity. Qed.

Lemma computeDisplayOrder_spec_witness :
  StronglySorted (displayLe sampleTime) (Order.computeDisplayOrder sampleTime sampleItems)
  /\ forall i j x y,
       Order.computeDisplayOrder sampleTime sampleItems !! i = Some x ->
       Order.computeDisplayOrder sampleTime sampleItems !! j = Some y ->
       Model.orderOf x = None -> is_Some (Model.orderOf y) -> (j < i)%nat.
Proof.
  destruct (computeDisplayOrder_spec sampleTime sampleItems) as (_ & H & _).
  assert (forall x, x ∈ sampleItems -> is_Some (Order.createdTime sampleTime x)) as Hvalid.
  { intros x Hx. unfold sampleItems in Hx.
    repeat (apply elem_of_cons in Hx as [->|Hx]; [by eexists|]).
    by apply elem_of_nil in Hx. }
  destruct (H Hvalid) as [Hs Hm]. split; [exact Hs|].
  apply Hm. intros x o Hx Ho. unfold sampleItems in Hx.
  repeat (apply elem_of_cons in Hx as [->|Hx];
          [simpl in Ho; first [discriminate Ho | injection Ho as <-; lia]|]).
  by apply elem_of_nil in Hx.
Defined.

(** C4 as stated fails in two ways.  (a) An item whose [order] exceeds the
    sentinel 999999 is placed after an item without [order].  (b) Among
    items with the same [order], one without a parseable [createdAt]
    compares equal to both its neighbours, and an older item stays in front
    of a newer one. *)
Lemma computeDisplayOrder_counterexample :
  Order.computeDisplayOrder sampleTime
    [sampleCompany "x" (Some 1000000) jan1; sampleCompany "y" None jan1]
  = [sampleCompany "y" None jan1; sampleCompany "x" (Some 1000000) jan1]
  /\ Order.computeDisplayOrder sampleTime
       [sampleCompany "a" (Some 1) jan1; sampleCompany "b" (Some 1) None;
        sampleCompany "c" (Some 1) jan2]
     = [sampleCompany "a" (Some 1) jan1; sampleCompany "b" (Some 1) None;
        sampleCompany "c" (Some 1) jan2].
Proof. split; reflexivity. Qed.

(* ===================================================================== *)
(** * The key-value table                                                 *)
(* ===================================================================== *)

Section KvFacts.
Context {V : Type}.

Lemma elem_of_getByPrefix (prefix : string) (t : gmap string V) (v : V) :
  v ∈ Kv.getByPrefix prefix t
  <-> exists key, t !! key = Some v /\ String.prefix prefix key = true.
Proof.
  unfold Kv.getByPrefix. change (map snd ?l) with (snd <$> l).
  rewrite list_elem_of_fmap. split.
  - intros [[key v'] [-> Hin]]. apply elem_of_map_to_list in Hin.
    apply map_lookup_filter_Some in Hin as [Hl Hp]. by exists key.
  - intros (key & Hl & Hp). exists (key, v). split; [done|].
    apply elem_of_map_to_list, map_lookup_filter_Some. done.
Qed.

Lemma getByPrefix_nil (prefix : string) (t : gmap string V) :
  (forall key, String.prefix prefix key = true -> t !! key = None) ->
  Kv.getByPrefix prefix t = [].
Proof.
  intros Hnone. apply elem_of_nil_inv. intros v [key [Hl Hp]]%elem_of_getByPrefix.
  rewrite (Hnone key Hp) in Hl. discriminate.
Qed.

(** Removing, one after the other, the keys computed from a list. *)
Lemma fold_del_lookup {B : Type} (keyOf : B -> string) (l : list B) (t : gmap string V)
    (key : string) :
  fold_left (fun t b => Kv.del (keyOf b) t) l t !! key
  = if decide (key ∈ map keyOf l) then None else t !! key.
Proof.
  revert t. induction l as [|b l IH]; intros t.
  - done.
  - simpl fold_left. rewrite IH. unfold Kv.del.
    change (map keyOf (b :: l)) with (keyOf b :: map keyOf l).
    destruct (decide (key ∈ map keyOf l)) as [Hin|Hin].
    + rewrite decide_True; [done|by right].
    + destruct (decide (key = keyOf b)) as [->|Hne].
      * rewrite lookup_delete_eq. rewrite decide_True; [done|by left].
      * rewrite lookup_delete_ne by done. rewrite decide_False; [done|].
        intros [?|?]%elem_of_cons; done.
Qed.

End KvFacts.

(* ===================================================================== *)
(** * DELETE /companies/:id                                               *)
(* ===================================================================== *)

Section DeleteFacts.
Import Js Model Server.

Variable getTime : string -> option Z.
Variable removed : string -> bool.
Variable id : string.

(** The comments of one report, as the loop body removes them. *)
Definition purgeComments (reportId : string) (t : gmap string Comment) : gmap string Comment :=
  fold_left (fun t comment => Kv.del (commentKey id reportId (cm_id comment)) t)
            (Kv.getByPrefix (commentPrefix id reportId) t) t.

Definition dropBlob (report : Report) (blobs : gset string) : gset string :=
  match re_filePath report with
  | Some filePath => if isEmpty filePath then blobs else storageRemove removed filePath blobs
  | None => blobs
  end.

Lemma deleteReportOf_fields st report :
  let st' := deleteReportOf removed id st report in
  companies st' = companies st
  /\ iconBlobs st' = iconBlobs st
  /\ reports st' = Kv.del (reportKey id (re_id report)) (reports st)
  /\ comments st' = purgeComments (re_id report) (comments st)
  /\ reportBlobs st' = dropBlob report (reportBlobs st).
Proof.
  unfold deleteReportOf, dropBlob, purgeComments.
  destruct (re_filePath report) as [filePath|]; [destruct (isEmpty filePath)|]; done.
Qed.

Lemma deleteReports_fields found st :
  let st' := fold_left (deleteReportOf removed id) found st in
  companies st' = companies st
  /\ iconBlobs st' = iconBlobs st
  /\ reports st' = fold_left (fun t r => Kv.del (reportKey id (re_id r)) t) found (reports st)
  /\ comments st' = fold_left (fun t r => purgeComments (re_id r) t) found (comments st)
  /\ reportBlobs st' = fold_left (fun b r => dropBlob r b) found (reportBlobs st).
Proof.
  revert st. induction found as [|r found IH]; intros st; [done|].
  simpl fold_left. destruct (IH (deleteReportOf removed id st r)) as (Hc & Hi & Hr & Hm & Hb).
  destruct (deleteReportOf_fields st r) as (Hc' & Hi' & Hr' & Hm' & Hb').
  simpl. rewrite Hc, Hi, Hr, Hm, Hb, Hc', Hi', Hr', Hm', Hb'. done.
Qed.

(** *** Comments *)

Lemma purgeComments_sub reportId t : purgeComments reportId t ⊆ t.
Proof.
  apply map_subseteq_spec. intros key c. unfold purgeComments.
  rewrite fold_del_lookup. by case_decide.
Qed.

Lemma purgeComments_clears reportId t key :
  (forall kc c, t !! kc = Some c ->
     String.prefix (commentPrefix id reportId) kc = true ->
     kc = commentKey id reportId (cm_id c)) ->
  String.prefix (commentPrefix id reportId) key = true ->
  purgeComments reportId t !! key = None.
Proof.
  intros Hkeys Hp. unfold purgeComments. rewrite fold_del_lookup.
  case_decide as Hin; [done|].
  destruct (t !! key) as [c|] eqn:Hl; [|done]. exfalso. apply Hin.
  change (map ?f ?l) with (f <$> l). apply list_elem_of_fmap. exists c. split.
  - by apply Hkeys.
  - apply elem_of_getByPrefix. by exists key.
Qed.

Lemma purgeAll_sub found t :
  fold_left (fun t (r : Report) => purgeComments (re_id r) t) found t ⊆ t.
Proof.
  revert t. induction found as [|r found IH]; intros t; [done|].
  simpl. etrans; [apply IH|apply purgeComments_sub].
Qed.

Lemma purgeAll_clears found t r key :
  (forall kc c r', r' ∈ found -> t !! kc = Some c ->
     String.prefix (commentPrefix id (re_id r')) kc = true ->
     kc = commentKey id (re_id r') (cm_id c)) ->
  r ∈ found ->
  String.prefix (commentPrefix id (re_id r)) key = true ->
  fold_left (fun t (r : Report) => purgeComments (re_id r) t) found t !! key = None.
Proof.
  revert t. induction found as [|r0 found IH]; intros t Hkeys Hr Hp.
  - by apply elem_of_nil in Hr.
  - simpl. apply elem_of_cons in Hr as [->|Hr].
    + eapply lookup_weaken_None; [|apply purgeAll_sub].
      apply purgeComments_clears; [|done]. intros kc c. apply Hkeys. by left.
    + apply IH; [|done..]. intros kc c r' Hr' Hl. apply Hkeys; [by right|].
      by eapply lookup_weaken; [|apply purgeComments_sub].
Qed.

(** *** Blobs *)

Lemma dropBlob_sub r blobs : dropBlob r blobs ⊆ blobs.
Proof.
  unfold dropBlob, storageRemove.
  destruct (re_filePath r) as [fp|]; [|done].
  destruct (isEmpty fp); [done|]. destruct (removed fp); [|done].
  intros x [Hx _]%elem_of_difference. done.
Qed.

Lemma dropAll_sub found blobs :
  fold_left (fun b (r : Report) => dropBlob r b) found blobs ⊆ blobs.
Proof.
  revert blobs. induction found as [|r found IH]; intros blobs; [done|].
  simpl. etrans; [apply IH|apply dropBlob_sub].
Qed.

Lemma dropAll_removes found blobs r filePath :
  r ∈ found ->
  re_filePath r = Some filePath ->
  isEmpty filePath = false ->
  removed filePath = true ->
  filePath ∉ fold_left (fun b (r : Report) => dropBlob r b) found blobs.
Proof.
  revert blobs. induction found as [|r0 found IH]; intros blobs Hr Hfp Hne Hrm.
  - by apply elem_of_nil in Hr.
  - simpl. apply elem_of_cons in Hr as [<-|Hr]; [|by apply IH].
    intros Hin. apply dropAll_sub in Hin. revert Hin.
    unfold dropBlob, storageRemove. rewrite Hfp, Hne, Hrm.
    intros [_ Hn]%elem_of_difference. apply Hn. by apply elem_of_singleton.
Qed.

(** *** The handler *)

(** The first step of the handler, the removal of the icon, leaves the
    tables and the report bucket alone. *)
Definition afterIcon (company : Company) (st : Store) : Store :=
  match co_iconUrl company with
  | Some iconUrl =>
      if isEmpty iconUrl || isEmpty (lastSegment iconUrl) then st
      else withIconBlobs
             (storageRemove removed ("company-icons/" +:+ lastSegment iconUrl)
                            (iconBlobs st)) st
  | None => st
  end.

Lemma afterIcon_fields company st :
  companies (afterIcon company st) = companies st
  /\ reports (afterIcon company st) = reports st
  /\ comments (afterIcon company st) = comments st
  /\ reportBlobs (afterIcon company st) = reportBlobs st.
Proof.
  unfold afterIcon. destruct (co_iconUrl company) as [u|]; [|done].
  by destruct (isEmpty u || isEmpty (lastSegment u)).
Qed.

Lemma deleteCompany_unfold st company :
  companies st !! companyKey id = Some company ->
  deleteCompany removed id st
  = let st1 := afterIcon company st in
    let st2 := fold_left (deleteReportOf removed id)
                 (Kv.getByPrefix (reportPrefix id) (reports st1)) st1 in
    (successNoData, withCompanies (Kv.del (companyKey id) (companies st2)) st2).
Proof. intros Hc. unfold deleteCompany, Kv.get. by rewrite Hc. Qed.

(** C9, as the code has it.  Let company [id] be in the store, and let the
    reports under [report:<id>:] and the comments under their
    [comment:<id>:<reportId>:] prefixes be stored at the keys built from
    their own ids.  Then [DELETE /companies/:id] answers [{success: true}]
    and afterwards: the company record is gone; no report record is left
    under [report:<id>:]; no comment record is left under any of these
    reports; every report blob whose removal the blob store carried out is
    gone (a failed removal is ignored and leaves the blob); listing the
    reports of [id] gives the empty list and reading the company gives
    404. *)
Theorem deleteCompany_cascade st company :
  companies st !! companyKey id = Some company ->
  (forall kr r, reports st !! kr = Some r ->
     String.prefix (reportPrefix id) kr = true -> kr = reportKey id (re_id r)) ->
  (forall kr r kc c, reports st !! kr = Some r ->
     String.prefix (reportPrefix id) kr = true ->
     comments st !! kc = Some c ->
     String.prefix (commentPrefix id (re_id r)) kc = true ->
     kc = commentKey id (re_id r) (cm_id c)) ->
  let st' := snd (deleteCompany removed id st) in
  fst (deleteCompany removed id st) = successNoData
  /\ companies st' !! companyKey id = None
  /\ (forall kr, String.prefix (reportPrefix id) kr = true -> reports st' !! kr = None)
  /\ (forall kr r kc, reports st !! kr = Some r ->
        String.prefix (reportPrefix id) kr = true ->
        String.prefix (commentPrefix id (re_id r)) kc = true ->
        comments st' !! kc = None)
  /\ (forall kr r filePath, reports st !! kr = Some r ->
        String.prefix (reportPrefix id) kr = true ->
        re_filePath r = Some filePath -> filePath <> "" ->
        removed filePath = true ->
        filePath ∉ reportBlobs st')
  /\ listReports getTime id st' = []
  /\ getReports getTime id st' = success (VArr [])
  /\ getCompany id st' = failure 404 "Company not found".
Proof.
  intros Hcompany Hrkeys Hckeys st'. subst st'.
  rewrite (deleteCompany_unfold _ _ Hcompany). cbv zeta. simpl fst. simpl snd.
  destruct (afterIcon_fields company st) as (Ec & Er & Em & Eb).
  rewrite Er. set (found := Kv.getByPrefix (reportPrefix id) (reports st)).
  destruct (deleteReports_fields found (afterIcon company st)) as (Fc & _ & Fr & Fm & Fb).
  cbv zeta in Fc, Fr, Fm, Fb. rewrite Er in Fr. rewrite Em in Fm. rewrite Eb in Fb.
  assert (forall kr r, reports st !! kr = Some r ->
            String.prefix (reportPrefix id) kr = true -> r ∈ found) as Hfound.
  { intros kr r Hl Hp. apply elem_of_getByPrefix. by exists kr. }
  assert (forall kr, String.prefix (reportPrefix id) kr = true ->
            fold_left (fun t r => Kv.del (reportKey id (re_id r)) t) found (reports st) !! kr
            = None) as Hreports.
  { intros kr Hp. rewrite fold_del_lookup. case_decide as Hin; [done|].
    destruct (reports st !! kr) as [r|] eqn:Hl; [|done]. exfalso. apply Hin.
    change (map ?f ?l) with (f <$> l). apply list_elem_of_fmap. exists r.
    split; [by apply Hrkeys|by apply (Hfound kr)]. }
  split; [done|]. split; [simpl; apply lookup_delete_eq|].
  split; [simpl; by rewrite Fr|]. split; [|split; [|split; [|split]]].
  - intros kr r kc Hl Hp Hpc. simpl. rewrite Fm.
    apply (purgeAll_clears found (comments st) r kc); [|by apply (Hfound kr)|done].
    intros kc' c r' [kr' [Hl' Hp']]%elem_of_getByPrefix Hc Hpc'.
    by apply (Hckeys kr' r' kc' c).
  - intros kr r filePath Hl Hp Hfp Hne Hrm. simpl. rewrite Fb.
    apply (dropAll_removes found (reportBlobs st) r filePath); [by apply (Hfound kr)|done| |done].
    unfold isEmpty. by destruct (String.eqb_spec filePath "").
  - unfold listReports. simpl. rewrite Fr. by rewrite (getByPrefix_nil _ _ Hreports).
  - unfold getReports, listReports. simpl. rewrite Fr.
    by rewrite (getByPrefix_nil _ _ Hreports).
  - unfold getCompany, Kv.get. simpl. unfold Kv.del. by rewrite lookup_delete_eq.
Qed.

End DeleteFacts.

(** ** A store with one company, two reports and their comments *)

Definition sampleReport (companyId id : string) (order : option Z) : Model.Report :=
  {| Model.re_id := id; Model.re_companyId := companyId; Model.re_title := id;
     Model.re_analyst := "analyst"; Model.re_fileName := id +:+ ".pdf";
     Model.re_fileSize := "1.0MB"; Model.re_category := "note";
     Model.re_comments := Some [];
     Model.re_filePath := Some (companyId +:+ "/" +:+ id +:+ ".pdf");
     Model.re_order := order; Model.re_createdAt := jan1; Model.re_updatedAt := jan1 |}.

Definition sampleComment (id : string) : Model.Comment :=
  {| Model.cm_id := id; Model.cm_content := "text";
     Model.cm_createdAt := "2024-01-02T00:00:00.000Z"; Model.cm_updatedAt := None |}.

Definition sampleStore : Server.Store :=
  {| Server.companies := {[ "company:c1" := sampleCompany "c1" (Some 0) jan1 ]};
     Server.reports := {[ "report:c1:r1" := sampleReport "c1" "r1" (Some 0);
                          "report:c1:r2" := sampleReport "c1" "r2" (Some 1) ]};
     Server.comments := {[ "comment:c1:r1:m1" := sampleComment "m1";
                           "comment:c1:r2:m2" := sampleComment "m2" ]};
     Server.reportBlobs := {[ "c1/r1.pdf"; "c1/r2.pdf" ]};
     Server.iconBlobs := ∅ |}.

Example sampleStore_reports :
  map Model.re_id (Server.listReports sampleTime "c1" sampleStore) = ["r1"; "r2"].
Proof. vm_compute. reflexivity. Qed.

(** C9 as stated fails for the blobs: when the blob store does not carry
    out the removal, the handler still answers [{success: true}] and the
    report's blob stays. *)
Lemma deleteCompany_counterexample :
  let result := Server.deleteCompany (fun _ => false) "c1" sampleStore in
  fst result = Server.successNoData
  /\ Server.reports (snd result) = ∅
  /\ Server.reportBlobs (snd result) = {[ "c1/r1.pdf"; "c1/r2.pdf" ]}.
Proof. vm_compute. repeat split. Qed.

Lemma sampleStore_report_keys kr r :
  Server.reports sampleStore !! kr = Some r ->
  kr = Server.reportKey "c1" (Model.re_id r).
Proof.
  simpl. intros [[<- <-]|[_ H]]%lookup_insert_Some; [done|].
  by apply lookup_singleton_Some in H as [<- <-].
Qed.

Lemma sampleStore_comment_keys kr r kc c :
  Server.reports sampleStore !! kr = Some r ->
  Server.comments sampleStore !! kc = Some c ->
  String.prefix (Server.commentPrefix "c1" (Model.re_id r)) kc = true ->
  kc = Server.commentKey "c1" (Model.re_id r) (Model.cm_id c).
Proof.
  simpl. intros [[<- <-]|[_ Hr]]%lookup_insert_Some [[<- <-]|[_ Hc]]%lookup_insert_Some Hp;
    try apply lookup_singleton_Some in Hr as [<- <-];
    try apply lookup_singleton_Some in Hc as [<- <-];
    first [done | by vm_compute in Hp].
Qed.

Lemma deleteCompany_cascade_witness :
  let st' := snd (Server.deleteCompany (fun _ => true) "c1" sampleStore) in
  Server.listReports sampleTime "c1" st' = []
  /\ Server.comments st' !! "comment:c1:r2:m2" = None
  /\ "c1/r1.pdf" ∉ Server.reportBlobs st'.
Proof.
  destruct (deleteCompany_cascade sampleTime (fun _ => true) "c1" sampleStore
              (sampleCompany "c1" (Some 0) jan1) eq_refl
              (fun kr r H _ => sampleStore_report_keys kr r H)
              (fun kr r kc c Hr _ Hc Hp => sampleStore_comment_keys kr r kc c Hr Hc Hp))
    as (_ & _ & _ & Hcomments & Hblobs & Hlist & _).
  split; [exact Hlist|]. split.
  - apply (Hcomments "report:c1:r2" (sampleReport "c1" "r2" (Some 1))); reflexivity.
  - apply (Hblobs "report:c1:r1" (sampleReport "c1" "r1" (Some 0))); try reflexivity.
    discriminate.
Defined.

(* ===================================================================== *)
(** * Keys built from ids                                                 *)
(* ===================================================================== *)

Section KeyDiscipline.
Import Js Model Server.

(** Ids are UUIDs or small numerals: they contain no colon. *)
Definition colonFree (s : string) : Prop := includes ":" s = false.

(** Every report and comment sits at the key the upload and comment
    handlers build for it. *)
Definition keyedByIds (st : Store) : Prop :=
  (forall k r, reports st !! k = Some r ->
     k = reportKey (re_companyId r) (re_id r)
     /\ colonFree (re_companyId r) /\ colonFree (re_id r))
  /\ (forall k c, comments st !! k = Some c ->
        exists companyId reportId,
          k = commentKey companyId reportId (cm_id c)
          /\ colonFree companyId /\ colonFree reportId).

Lemma colonFree_cons c s : colonFree (String c s) -> c <> ":"%char /\ colonFree s.
Proof.
  unfold colonFree. intros H. change (includes ":" (String c s))
    with (String.prefix ":" (String c s) || includes ":" s) in H.
  apply orb_false_elim in H as [Hp Hi]. split; [|done]. intros ->.
  change (String ":" s) with (":" +:+ s) in Hp. rewrite prefix_append in Hp. discriminate.
Qed.

Lemma prefix_append_inv (p a b : string) :
  String.prefix (p +:+ a) (p +:+ b) = true -> String.prefix a b = true.
Proof.
  induction p as [|c p IH]; [done|]. rewrite !append_cons. simpl.
  by destruct (ascii_dec c c).
Qed.

(** Two colon-free segments that end at the same place are the same. *)
Lemma segment_prefix (a b rest y : string) :
  colonFree a -> colonFree b ->
  String.prefix (a +:+ ":" +:+ rest) (b +:+ ":" +:+ y) = true ->
  a = b /\ String.prefix rest y = true.
Proof.
  revert b. induction a as [|c a IH]; intros b Ha Hb Hp.
  - destruct b as [|d b].
    + split; [done|]. by apply (prefix_append_inv ":").
    + rewrite append_cons in Hp. apply prefix_cons_inv in Hp as [<- _].
      by apply colonFree_cons in Hb as [? _].
  - apply colonFree_cons in Ha as [Hc Ha]. destruct b as [|d b].
    + rewrite append_cons in Hp. apply prefix_cons_inv in Hp as [-> _]. done.
    + rewrite !append_cons in Hp. apply prefix_cons_inv in Hp as [<- Hp].
      apply colonFree_cons in Hb as [_ Hb]. destruct (IH b Ha Hb Hp) as [-> ?]. done.
Qed.

Lemma keyedByIds_report_keys st id kr r :
  keyedByIds st -> colonFree id ->
  reports st !! kr = Some r ->
  String.prefix (reportPrefix id) kr = true ->
  kr = reportKey id (re_id r).
Proof.
  intros [Hr _] Hid Hl Hp. destruct (Hr kr r Hl) as (-> & Hc & _).
  unfold reportPrefix, reportKey in *. apply (prefix_append_inv "report:") in Hp.
  replace (id +:+ ":") with (id +:+ ":" +:+ "") in Hp by done.
  by destruct (segment_prefix _ _ _ _ Hid Hc Hp) as [-> _].
Qed.

Lemma keyedByIds_comment_keys st id kr r kc c :
  keyedByIds st -> colonFree id ->
  reports st !! kr = Some r ->
  comments st !! kc = Some c ->
  String.prefix (commentPrefix id (re_id r)) kc = true ->
  kc = commentKey id (re_id r) (cm_id c).
Proof.
  intros [Hr Hc] Hid Hlr Hlc Hp. destruct (Hr kr r Hlr) as (_ & _ & Hrid).
  destruct (Hc kc c Hlc) as (companyId & reportId & -> & Hcf & Hrf).
  unfold commentPrefix, commentKey in *. apply (prefix_append_inv "comment:") in Hp.
  destruct (segment_prefix _ _ _ _ Hid Hcf Hp) as [-> Hp'].
  replace (re_id r +:+ ":") with (re_id r +:+ ":" +:+ "") in Hp' by done.
  by destruct (segment_prefix _ _ _ _ Hrid Hrf Hp') as [-> _].
Qed.

End KeyDiscipline.

(* ===================================================================== *)
(** * Creating and reordering companies                                   *)
(* ===================================================================== *)

Section ReorderFacts.
Import Js Model Order Server.

Variable getTime : string -> option Z.

(** ** [maxOrder] *)

Lemma maxOrder_fold (all : list Company) (start : Z) :
  let m := fold_left (fun max company => Z.max max (default 0 (co_order company))) all start in
  start <= m
  /\ (forall c, c ∈ all -> default 0 (co_order c) <= m)
  /\ (m = start \/ exists c, c ∈ all /\ m = default 0 (co_order c)).
Proof.
  revert start. induction all as [|c all IH]; intros start; simpl; cbv zeta.
  - split; [lia|]. split; [|by left]. intros c Hc. by apply elem_of_nil in Hc.
  - destruct (IH (Z.max start (default 0 (co_order c)))) as (Hge & Hall & Hatt).
    cbv zeta in Hge, Hall, Hatt. split; [lia|]. split.
    + intros c' [->|Hc']%elem_of_cons; [lia|by apply Hall].
    + destruct Hatt as [Hm|(c' & Hc' & Hm)].
      * destruct (Z.max_spec start (default 0 (co_order c))) as [[_ E]|[_ E]].
        -- right. exists c. split; [by left|]. by etrans.
        -- left. by etrans.
      * right. exists c'. split; [by right|done].
Qed.


Lemma createCompany_stores body uuid now st :
  isEmpty (f_name body) = false -> isEmpty (f_code body) = false ->
  isEmpty (f_type body) = false ->
  createCompany body uuid now st
  = (success (companyValue (newCompany body uuid now st)),
     withCompanies (<[companyKey uuid := newCompany body uuid now st]> (companies st)) st).
Proof. intros Hn Hc Ht. unfold createCompany. by rewrite Hn, Hc, Ht. Qed.

(** ** The reorder handler *)









(** ** Listing after a reorder *)

Section RoundTrip.

Variable now : string.
Variable reordered : list Company.
Variable t : gmap string Company.

Hypothesis Hnd : NoDup (map co_id reordered).
Hypothesis Hkeys : forall key c, t !! key = Some c -> key = companyKey (co_id c).
Hypothesis Hlisted : forall key c, t !! key = Some c -> co_id c ∈ map co_id reordered.
Hypothesis Hall : forall c, c ∈ reordered -> is_Some (t !! companyKey (co_id c)).









End RoundTrip.

End ReorderFacts.

Section RoundTripClaim.
Import Js Model Order Server.

Variable getTime : string -> option Z.
Variables projectId publicAnonKey : string.


End RoundTripClaim.

(** ** The scenario: create A, create B, reorder [B, A] *)

Definition formA : Server.CompanyForm :=
  {| Server.f_name := "Company A"; Server.f_code := "AAA"; Server.f_type := "US";
     Server.f_description := "" |}.

Definition formB : Server.CompanyForm :=
  {| Server.f_name := "Company B"; Server.f_code := "BBB"; Server.f_type := "HK";
     Server.f_description := "" |}.

Definition storeA : Server.Store :=
  snd (Server.createCompany formA "a" "2024-01-01T00:00:00.000Z" Server.empty).

Definition storeAB : Server.Store :=
  snd (Server.createCompany formB "b" "2024-01-02T00:00:00.000Z" storeA).

Definition recordA : Model.Company :=
  Server.newCompany formA "a" "2024-01-01T00:00:00.000Z" Server.empty.

Definition recordB : Model.Company :=
  Server.newCompany formB "b" "2024-01-02T00:00:00.000Z" storeA.

Example scenario_orders :
  Model.co_order recordA = Some 0 /\ Model.co_order recordB = Some 1
  /\ Server.listCompanies sampleTime storeAB = [recordA; recordB].
Proof. vm_compute. repeat split. Qed.




(* ===================================================================== *)
(** * Client and server together                                          *)
(* ===================================================================== *)

Section Download.
Import Js Model Server.

Variable createSignedUrl : option string -> Z -> option string.

(** C8 at any existing report.  The handler puts the signed URL (made with
    an expiry of 3600 s) in the property [downloadUrl] of its envelope and
    gives the envelope no [data]; [makeRequest] resolves with the
    envelope's [data], which is [undefined]; reading [.downloadUrl] of that
    raises a TypeError, so the promise of [getDownloadUrl] is rejected and
    never carries the URL. *)
Theorem getDownloadUrl_rejects companyId reportId st report signedUrl s p rq now :
  reports st !! reportKey companyId reportId = Some report ->
  createSignedUrl (re_filePath report) 3600 = Some signedUrl ->
  Api.inflight s !! p = Some rq ->
  Api.rq_phase rq = Api.AwaitFetch ->
  let resp := downloadReport createSignedUrl companyId reportId st in
  let s' := Api.bodyRead p now (Api.fetchResolved p resp s) in
  Api.json resp = Some (VObj [("success", VBool true); ("downloadUrl", VStr signedUrl)])
  /\ Api.settled s' !! p = Some (Api.Resolved VUndefined)
  /\ Api.getDownloadUrl_then <$> Api.settled s' !! p = Some (Api.Rejected Api.TypeError).
Proof.
  intros Hr Hsign Hp Hph resp s'.
  assert (resp = jsonResponse 200
                   (VObj [("success", VBool true); ("downloadUrl", VStr signedUrl)])) as ->.
  { subst resp. unfold downloadReport, Kv.get. by rewrite Hr, Hsign. }
  subst s'. rewrite (bodyRead_after_response _ _ _ _ _ Hp Hph). cbv zeta.
  change (Api.ok (jsonResponse 200 ?b)) with true.
  change (Api.json (jsonResponse 200 ?b)) with (Some b). cbv iota.
  rewrite onJson_success by done. done.
Qed.

End Download.

(** The blob store signs every path. *)
Definition signAll (path : option string) (expiresIn : Z) : option string :=
  Some ("https://blobs.example/" +:+ default "" path +:+ "?expires=" +:+ pretty expiresIn).

Lemma getDownloadUrl_rejects_witness :
  let call := Api.reportApi_getDownloadUrl "p" "k" "c1" "r1" 0 Api.initial in
  let resp := Server.downloadReport signAll "c1" "r1" sampleStore in
  let s' := Api.bodyRead 0 1 (Api.fetchResolved 0 resp (snd call)) in
  fst call = Api.Follow 0
  /\ Api.json resp
     = Some (Js.VObj [("success", Js.VBool true);
                      ("downloadUrl",
                       Js.VStr "https://blobs.example/c1/r1.pdf?expires=3600")])
  /\ Api.getDownloadUrl_then <$> Api.outcome s' (fst call)
     = Some (Api.Rejected Api.TypeError).
Proof.
  intros call resp s'. split; [reflexivity|].
  assert (Api.inflight (snd call) !! 0%nat
          = Some {| Api.rq_url := Api.API_BASE_URL "p" +:+ "/reports/c1/r1/download";
                    Api.rq_options := Api.getOptions "k"; Api.rq_cacheKey := None;
                    Api.rq_phase := Api.AwaitFetch |}) as Hin by (vm_compute; reflexivity).
  destruct (getDownloadUrl_rejects signAll "c1" "r1" sampleStore
              (sampleReport "c1" "r1" (Some 0))
              "https://blobs.example/c1/r1.pdf?expires=3600"
              (snd call) 0 _ 1 eq_refl eq_refl Hin eq_refl) as (Hj & _ & Hrej).
  split; [exact Hj|exact Hrej].
Defined.

(** ** Invalidation against the backend *)





(** ** Two different uploads *)

Definition uploadOne : Api.UploadData :=
  {| Api.up_title := "Q1 notes"; Api.up_analyst := "Li"; Api.up_category := "note";
     Api.up_file := {| Api.fileName := "q1.pdf"; Api.fileType := "application/pdf";
                       Api.fileSize := 1000; Api.fileBytes := "one" |} |}.

Definition uploadTwo : Api.UploadData :=
  {| Api.up_title := "Initiation"; Api.up_analyst := "Wang"; Api.up_category := "first";
     Api.up_file := {| Api.fileName := "init.pdf"; Api.fileType := "application/pdf";
                       Api.fileSize := 2000; Api.fileBytes := "two" |} |}.

Lemma upload_requests_collide_witness :
  let first := Api.reportApi_upload "p" "k" "c1" uploadOne 0 Api.initial in
  let second := Api.reportApi_upload "p" "k" "c1" uploadTwo 1 (snd first) in
  Api.fetchLog (snd second)
  = [(Api.API_BASE_URL "p" +:+ "/companies/c1/reports",
      Api.formOptions "k" (Api.uploadForm uploadOne))].
Proof.
  destruct (upload_requests_collide "p" "k" "c1" uploadOne uploadTwo 0 1 Api.initial)
    as (_ & _ & _ & H).
  apply H. apply lookup_empty.
Defined.

(* ===================================================================== *)
(** * The cache and the pending requests over every run of the client *)
(* ===================================================================== *)

Section CacheWrites.
Import Js Api.

Lemma get_field k v x : get k v = Some x -> field k v = x.
Proof. destruct v; simpl; congruence. Qed.

Lemma makeRequest_cache url o ck now s : cache (snd (makeRequest url o ck now s)) = cache s.
Proof.
  unfold makeRequest. destruct (truthy _); [done|].
  by destruct (pendingRequests s !! _).
Qed.

(** X1.  The cache is written only by a successful cached read.  A call of
    [makeRequest] never changes the cache.  A request in flight that moves
    on changes the cache at a key only when the step is the reading of the
    JSON body of a 2xx response whose [success] is truthy, for a request
    that has a cache slot (a GET with a non-empty cacheKey): the entry
    written is the envelope's [data] with the time of the reading, and the
    promise is resolved with the same [data]. *)
Theorem cache_written_by_successful_read s :
  (forall url o ck now, cache (snd (makeRequest url o ck now s)) = cache s)
  /\ (forall c k,
        cache (complete s c) !! k <> cache s !! k ->
        exists p now rq resp result,
          c = BodyRead p now
          /\ inflight s !! p = Some rq
          /\ rq_phase rq = AwaitJson resp
          /\ json resp = Some result
          /\ truthy (field "success" result) = true
          /\ cacheSlot (rq_options rq) (rq_cacheKey rq) = Some k
          /\ cache (complete s c) !! k = Some (field "data" result, now)
          /\ settled (complete s c) !! p = Some (Resolved (field "data" result))).
Proof.
  split; [intros; apply makeRequest_cache|].
  intros c k Hne. destruct c as [p resp|p e|p now|p e]; simpl in Hne.
  - exfalso. apply Hne. unfold fetchResolved.
    destruct (inflight s !! p) as [rq|]; [|done]. by destruct (rq_phase rq).
  - exfalso. apply Hne. unfold fetchRejected.
    destruct (inflight s !! p) as [rq|]; [|done]. by destruct (rq_phase rq).
  - simpl. unfold bodyRead in *.
    destruct (inflight s !! p) as [rq|] eqn:Hin; [|done].
    destruct (rq_phase rq) as [|resp|resp] eqn:Hph; [done|done|].
    destruct (json resp) as [result|] eqn:Hj; [|done].
    unfold onJson in *.
    destruct (get "success" result) as [success|] eqn:Hg; [|done].
    destruct (truthy success) eqn:Ht; simpl in Hne |- *; [|done].
    destruct (cacheSlot (rq_options rq) (rq_cacheKey rq)) as [k'|] eqn:Hslot; [|done].
    simpl in Hne |- *. unfold setCachedData in *.
    destruct (decide (k' = k)) as [->|Hk]; [|by rewrite lookup_insert_ne in Hne].
    exists p, now, rq, resp, result. rewrite (get_field _ _ _ Hg).
    repeat split; try done; apply lookup_insert_eq.
  - exfalso. apply Hne. unfold bodyFailed.
    destruct (inflight s !! p) as [rq|]; [|done]. by destruct (rq_phase rq).
Qed.

Lemma cache_written_by_successful_read_witness :
  let sent := snd (makeRequest companiesUrl (getOptions "k") (Some "companies_getAll") 0 initial) in
  let arrived := fetchResolved 0 (okResponse (VArr [VStr "A"])) sent in
  exists p now rq resp result,
    BodyRead 0 7 = BodyRead p now
    /\ inflight arrived !! p = Some rq
    /\ rq_phase rq = AwaitJson resp
    /\ json resp = Some result
    /\ truthy (field "success" result) = true
    /\ cacheSlot (rq_options rq) (rq_cacheKey rq) = Some "companies_getAll"
    /\ cache (complete arrived (BodyRead 0 7)) !! "companies_getAll" = Some (field "data" result, now)
    /\ settled (complete arrived (BodyRead 0 7)) !! p = Some (Resolved (field "data" result)).
Proof.
  intros sent arrived.
  apply (proj2 (cache_written_by_successful_read arrived) (BodyRead 0 7) "companies_getAll").
  vm_compute. discriminate.
Defined.

(** * X2: pendingRequests holds live requests *)

Definition idsBelow (s : State) : Prop :=
  forall p, is_Some (inflight s !! p) \/ is_Some (settled s !! p) -> (p < nextId s)%nat.

Definition settledApart (s : State) : Prop :=
  forall p, is_Some (settled s !! p) -> inflight s !! p = None.

Definition pendingLive (s : State) : Prop :=
  forall key p, pendingRequests s !! key = Some p ->
    exists rq, inflight s !! p = Some rq /\ rq_phase rq = AwaitFetch
               /\ requestKey (rq_url rq) (rq_options rq) = key.

Definition consistent (s : State) : Prop := idsBelow s /\ settledApart s /\ pendingLive s.

Lemma consistent_initial : consistent initial.
Proof.
  split; [|split].
  - intros p [[? H]|[? H]]; simpl in H; by rewrite lookup_empty in H.
  - intros p [? H]. simpl in H. by rewrite lookup_empty in H.
  - intros key p H. simpl in H. by rewrite lookup_empty in H.
Qed.

(** The promise [p] settles; the request it stood for was in flight, and
    either it had left the fetch phase or its pending entry is dropped. *)
Lemma consistent_settle p rq out s s1 :
  inflight s !! p = Some rq ->
  inflight s1 = inflight s -> settled s1 = settled s -> nextId s1 = nextId s ->
  (forall key q, pendingRequests s1 !! key = Some q ->
     pendingRequests s !! key = Some q
     /\ (rq_phase rq = AwaitFetch -> key <> requestKey (rq_url rq) (rq_options rq))) ->
  consistent s -> consistent (settle p out s1).
Proof.
  intros Hin Ei Es En Ep (Hb & Ha & Hl). split; [|split].
  - intros q [[x H]|[x H]]; simpl in *; rewrite ?Ei, ?Es, ?En in *.
    + apply lookup_delete_Some in H as [_ H]. apply Hb. left. by eexists.
    + destruct (decide (p = q)) as [<-|Hne].
      * apply Hb. left. by eexists.
      * rewrite lookup_insert_ne in H by done. apply Hb. right. by eexists.
  - intros q [x H]. simpl in *. rewrite ?Ei, ?Es in *.
    destruct (decide (p = q)) as [<-|Hne].
    + apply lookup_delete_eq.
    + rewrite lookup_insert_ne in H by done. rewrite lookup_delete_ne by done.
      apply Ha. by eexists.
  - intros key q H. simpl in *. rewrite ?Ei in *.
    destruct (Ep key q H) as [H' Hk].
    destruct (Hl key q H') as (rq' & Hq & Hph & Hkey).
    exists rq'. split; [|done]. destruct (decide (p = q)) as [<-|Hne].
    + rewrite Hin in Hq. injection Hq as <-. exfalso. by apply Hk.
    + by rewrite lookup_delete_ne.
Qed.

Lemma consistent_catch p rq e s :
  inflight s !! p = Some rq -> consistent s -> consistent (catchHandler p rq e s).
Proof.
  intros Hin Hc. unfold catchHandler. apply (consistent_settle p rq _ s); try done.
  intros key q H. simpl in H. apply lookup_delete_Some in H as [Hk H]. done.
Qed.

Lemma consistent_complete s c : consistent s -> consistent (complete s c).
Proof.
  intros Hc. destruct c as [p resp|p e|p now|p e]; simpl.
  - unfold fetchResolved. destruct (inflight s !! p) as [rq|] eqn:Hin; [|done].
    destruct (rq_phase rq) eqn:Hph; try done.
    destruct Hc as (Hb & Ha & Hl). split; [|split].
    + intros q [[x H]|[x H]]; simpl in *.
      * destruct (decide (p = q)) as [<-|Hne]; [apply Hb; left; by eexists|].
        rewrite lookup_insert_ne in H by done. apply Hb. left. by eexists.
      * apply Hb. right. by eexists.
    + intros q Hq. simpl in *. destruct (decide (p = q)) as [<-|Hne].
      * rewrite (Ha p Hq) in Hin. discriminate.
      * rewrite lookup_insert_ne by done. by apply Ha.
    + intros key q H. simpl in *. apply lookup_delete_Some in H as [Hk H].
      destruct (Hl key q H) as (rq' & Hq & Hph' & Hkey).
      exists rq'. split; [|done]. destruct (decide (p = q)) as [<-|Hne].
      * rewrite Hin in Hq. injection Hq as <-. congruence.
      * by rewrite lookup_insert_ne.
  - unfold fetchRejected. destruct (inflight s !! p) as [rq|] eqn:Hin; [|done].
    destruct (rq_phase rq); try done. by apply consistent_catch.
  - unfold bodyRead. destruct (inflight s !! p) as [rq|] eqn:Hin; [|done].
    destruct (rq_phase rq) as [|resp|resp] eqn:Hph; [done|by apply consistent_catch|].
    destruct (json resp) as [result|]; [|by apply consistent_catch].
    unfold onJson. destruct (get "success" result) as [success|]; [|by apply consistent_catch].
    destruct (negb (truthy success)); [by apply consistent_catch|].
    destruct (cacheSlot (rq_options rq) (rq_cacheKey rq));
      apply (consistent_settle p rq _ s); try done;
      intros key q H; (split; [done|congruence]).
  - unfold bodyFailed. destruct (inflight s !! p) as [rq|] eqn:Hin; [|done].
    destruct (rq_phase rq); try done; by apply consistent_catch.
Qed.

Lemma consistent_step s e : consistent s -> consistent (step s e).
Proof.
  destruct e as [c|url o ck now|pattern]; simpl; intros Hc.
  - by apply consistent_complete.
  - unfold makeRequest. destruct (truthy _); [done|].
    destruct (pendingRequests s !! requestKey url o) eqn:Hp; [done|].
    destruct Hc as (Hb & Ha & Hl). split; [|split].
    + intros q [[x H]|[x H]]; simpl in *.
      * destruct (decide (nextId s = q)) as [<-|Hne]; [lia|].
        rewrite lookup_insert_ne in H by done.
        assert (q < nextId s)%nat; [|lia]. apply Hb. left. by eexists.
      * assert (q < nextId s)%nat; [|lia]. apply Hb. right. by eexists.
    + intros q Hq. simpl in *. destruct (decide (nextId s = q)) as [<-|Hne].
      * assert (nextId s < nextId s)%nat; [|lia]. apply Hb. by right.
      * rewrite lookup_insert_ne by done. by apply Ha.
    + intros key q H. simpl in *.
      destruct (decide (requestKey url o = key)) as [<-|Hk].
      * rewrite lookup_insert_eq in H. injection H as <-.
        eexists. rewrite lookup_insert_eq. done.
      * rewrite lookup_insert_ne in H by done.
        destruct (Hl key q H) as (rq' & Hq & Hph & Hkey). exists rq'. split; [|done].
        rewrite lookup_insert_ne; [done|]. intros <-.
        assert (nextId s < nextId s)%nat; [|lia]. apply Hb. left. by eexists.
  - done.
Qed.

Lemma consistent_steps steps s : consistent s -> consistent (fold_left step steps s).
Proof.
  revert s. induction steps as [|e steps IH]; intros s Hc; [done|].
  simpl. by apply IH, consistent_step.
Qed.

(** X2.  Over every run of the client from the initial state (calls of
    [makeRequest], requests moving on, cache clearing) an entry of
    [pendingRequests] names a promise that is in flight, still awaits its
    [fetch], was created for exactly this request key and is not settled. *)
Theorem pending_requests_are_live (steps : list Step) key p :
  let s := fold_left step steps initial in
  pendingRequests s !! key = Some p ->
  exists rq,
    inflight s !! p = Some rq
    /\ rq_phase rq = AwaitFetch
    /\ requestKey (rq_url rq) (rq_options rq) = key
    /\ settled s !! p = None.
Proof.
  intros s Hp. subst s.
  destruct (consistent_steps steps initial consistent_initial) as (Hb & Ha & Hl).
  destruct (Hl key p Hp) as (rq & Hin & Hph & Hkey). exists rq.
  repeat split; try done.
  destruct (settled _ !! p) eqn:Hs; [|done].
  rewrite (Ha p) in Hin; [discriminate|]. by eexists.
Qed.

Lemma pending_requests_are_live_witness :
  let s := fold_left step [Call companiesUrl (getOptions "k") (Some "companies_getAll") 0]
             initial in
  exists rq,
    inflight s !! 0%nat = Some rq
    /\ rq_phase rq = AwaitFetch
    /\ requestKey (rq_url rq) (rq_options rq) = requestKey companiesUrl (getOptions "k")
    /\ settled s !! 0%nat = None.
Proof.
  apply (pending_requests_are_live
           [Call companiesUrl (getOptions "k") (Some "companies_getAll") 0]
           (requestKey companiesUrl (getOptions "k")) 0%nat).
  vm_compute. reflexivity.
Defined.

End CacheWrites.

(* ===================================================================== *)
(** * Report and comment mutations and the cached report list *)
(* ===================================================================== *)

Section Substrings.
Import Js.

Lemma append_nil_l (s : string) : "" +:+ s = s.
Proof. reflexivity. Qed.

Lemma includes_cons (pattern : string) c s :
  includes pattern (String c s) = String.prefix pattern (String c s) || includes pattern s.
Proof. reflexivity. Qed.

Lemma prefix_cons_same x a b : String.prefix (String x a) (String x b) = String.prefix a b.
Proof. simpl. by destruct (ascii_dec x x). Qed.

Lemma prefix_cons_diff x y a b : x <> y -> String.prefix (String x a) (String y b) = false.
Proof. intros Hne. simpl. by destruct (ascii_dec x y). Qed.

Lemma includes_skip x p c s : x <> c -> includes (String x p) (String c s) = includes (String x p) s.
Proof. intros Hne. by rewrite includes_cons, prefix_cons_diff. Qed.

(** Ids are UUIDs ([crypto.randomUUID()]) or the numerals of the sample
    data: lower-case hexadecimal digits and dashes, at least one. *)
Definition idChar (c : ascii) : bool :=
  let n := N_of_ascii c in
  ((48 <=? n) && (n <=? 57) || (97 <=? n) && (n <=? 102) || (n =? 45))%N.

Fixpoint idChars (s : string) : bool :=
  match s with
  | EmptyString => true
  | String c rest => idChar c && idChars rest
  end.

Definition idLike (s : string) : bool := negb (String.eqb s "") && idChars s.

Lemma idChar_quote c : idChar c = true -> quoteChar c = String c "".
Proof.
  destruct c as [[] [] [] [] [] [] [] []]; intros H; try discriminate H; reflexivity.
Qed.

Lemma idChars_quoteBody s : idChars s = true -> quoteBody s = s.
Proof.
  induction s as [|c s IH]; [done|]. simpl. intros [Hc Hs]%andb_prop.
  by rewrite (idChar_quote c Hc), (IH Hs).
Qed.

(** A pattern whose first character occurs neither in an id nor in what
    follows it does not occur there. *)
Lemma includes_after_id x p s tail :
  idChar x = false ->
  idChars s = true ->
  includes (String x p) tail = false ->
  includes (String x p) (s +:+ tail) = false.
Proof.
  intros Hx Hs Ht. induction s as [|c s IH]; [done|].
  simpl in Hs. apply andb_prop in Hs as [Hc Hs].
  rewrite append_cons, includes_skip; [by apply IH|]. intros ->. congruence.
Qed.

(** The same for a pattern whose second character does not occur in an id
    and is not the first character of what follows. *)
Lemma includes_after_id2 x y p s t tail :
  idChar y = false -> y <> t ->
  idChars s = true ->
  includes (String x (String y p)) (String t tail) = false ->
  includes (String x (String y p)) (s +:+ String t tail) = false.
Proof.
  intros Hy Hyt Hs Ht. induction s as [|c s IH]; [done|].
  simpl in Hs. apply andb_prop in Hs as [Hc Hs].
  rewrite append_cons, includes_cons, (IH Hs), orb_false_r.
  destruct (decide (x = c)) as [<-|Hne]; [|by apply prefix_cons_diff].
  rewrite prefix_cons_same. destruct s as [|d s].
  - rewrite append_nil_l. by apply prefix_cons_diff.
  - rewrite append_cons. apply prefix_cons_diff. intros ->.
    simpl in Hs. apply andb_prop in Hs as [Hd _]. congruence.
Qed.

End Substrings.

Ltac norm_append := repeat first [rewrite append_cons | rewrite append_nil_l].

(** Walks a pattern over the literal part of a string: a position whose
    character differs from the first of the pattern is skipped, any other
    is refuted at the first character that differs. *)
Ltac refute_prefix :=
  repeat rewrite prefix_cons_same;
  rewrite prefix_cons_diff by (first [discriminate | assumption]).
Ltac scan :=
  repeat first
    [ rewrite includes_skip by (first [discriminate | assumption])
    | rewrite includes_cons; refute_prefix; rewrite orb_false_l ].

Section ReportCache.
Import Js Api.
Variables projectId publicAnonKey : string.

Definition reportsCacheKey (companyId : string) : string :=
  getCacheKey "reports_getByCompany" (Some (VObj [("companyId", VStr companyId)])).

Lemma reportsCacheKey_eq companyId :
  idChars companyId = true ->
  reportsCacheKey companyId
  = "reports_getByCompany_{" +:+ dquote +:+ "companyId" +:+ dquote +:+ ":" +:+ dquote
    +:+ companyId +:+ dquote +:+ "}".
Proof.
  intros H. unfold reportsCacheKey, getCacheKey. cbv [truthy].
  cbn [stringify flat_map app join]. unfold quote.
  rewrite (idChars_quoteBody _ H). cbn [quoteBody]. 
  rewrite !append_assoc. reflexivity.
Qed.

Lemma idChar_ne c x : idChar c = true -> idChar x = false -> c <> x.
Proof. intros Hc Hx ->. congruence. Qed.

Lemma reports_pattern_misses companyId :
  idLike companyId = true ->
  includes ("reports_" +:+ companyId) (reportsCacheKey companyId) = false.
Proof.
  intros [Hne Hid]%andb_prop. rewrite (reportsCacheKey_eq _ Hid).
  destruct companyId as [|c id]; [discriminate Hne|].
  simpl in Hid. apply andb_prop in Hid as [Hc Hid].
  assert (c <> "g"%char) as Hg by (by apply idChar_ne).
  assert ("r"%char <> c) as Hr by (apply not_eq_sym; by apply idChar_ne).
  unfold dquote. norm_append. scan.
  apply includes_after_id; [done|done|]. scan. reflexivity.
Qed.

Lemma comments_pattern_misses companyId rest :
  idChars companyId = true ->
  includes ("comments_" +:+ rest) (reportsCacheKey companyId) = false.
Proof.
  intros Hid. rewrite (reportsCacheKey_eq _ Hid).
  unfold dquote. norm_append. scan.
  apply includes_after_id2; [done|discriminate|done|]. scan. reflexivity.
Qed.

Lemma clear_keeps pattern s k :
  includes pattern k = false -> cache (clear pattern s) !! k = cache s !! k.
Proof.
  intros H. simpl. unfold clearCachePattern.
  destruct (cache s !! k) as [v|] eqn:Hl.
  - by apply map_lookup_filter_Some.
  - apply map_lookup_filter_None. by left.
Qed.

(** No request in flight will write cache slot [k]. *)
Definition noReadOf (k : string) (s : State) : Prop :=
  forall p rq, inflight s !! p = Some rq ->
    cacheSlot (rq_options rq) (rq_cacheKey rq) <> Some k.

(** A step that does not touch slot [k]: a request moving on, a call that
    does not fill the slot, a clearing whose pattern does not occur in
    [k]. *)
Definition apartFrom (k : string) (e : Step) : Prop :=
  match e with
  | Progress _ => True
  | Call _ o cacheKey _ => cacheSlot o cacheKey <> Some k
  | Clear pattern => includes pattern k = false
  end.

Lemma noReadOf_settle k p out s s1 :
  inflight s1 = inflight s -> noReadOf k s -> noReadOf k (settle p out s1).
Proof.
  intros Ei Hr q rq Hq. simpl in Hq. rewrite Ei in Hq.
  apply lookup_delete_Some in Hq as [_ Hq]. by apply (Hr q).
Qed.

Lemma complete_keeps k s c :
  noReadOf k s ->
  noReadOf k (complete s c) /\ cache (complete s c) !! k = cache s !! k.
Proof.
  intros Hr. destruct c as [p resp|p e|p now|p e]; simpl.
  - unfold fetchResolved. destruct (inflight s !! p) as [rq|] eqn:Hin; [|done].
    destruct (rq_phase rq); try done. split; [|done].
    intros q rq' Hq. simpl in Hq. destruct (decide (p = q)) as [<-|Hne].
    + rewrite lookup_insert_eq in Hq. injection Hq as <-. simpl. by apply (Hr p).
    + rewrite lookup_insert_ne in Hq by done. by apply (Hr q).
  - unfold fetchRejected. destruct (inflight s !! p) as [rq|] eqn:Hin; [|done].
    destruct (rq_phase rq); try done. split; [|done]. by apply (noReadOf_settle k p _ s).
  - unfold bodyRead. destruct (inflight s !! p) as [rq|] eqn:Hin; [|done].
    destruct (rq_phase rq) as [|resp|resp]; [done| |].
    { split; [|done]. by apply (noReadOf_settle k p _ s). }
    destruct (json resp) as [result|]; [|split; [by apply (noReadOf_settle k p _ s)|done]].
    unfold onJson. destruct (get "success" result) as [success|];
      [|split; [by apply (noReadOf_settle k p _ s)|done]].
    destruct (negb (truthy success)); [split; [by apply (noReadOf_settle k p _ s)|done]|].
    destruct (cacheSlot (rq_options rq) (rq_cacheKey rq)) as [k'|] eqn:Hslot.
    + split; [by apply (noReadOf_settle k p _ s)|]. simpl. unfold setCachedData.
      apply lookup_insert_ne. intros ->. by apply (Hr p rq Hin).
    + split; [by apply (noReadOf_settle k p _ s)|done].
  - unfold bodyFailed. destruct (inflight s !! p) as [rq|] eqn:Hin; [|done].
    destruct (rq_phase rq); try done; (split; [by apply (noReadOf_settle k p _ s)|done]).
Qed.

Lemma step_keeps k s e :
  apartFrom k e -> noReadOf k s ->
  noReadOf k (step s e) /\ cache (step s e) !! k = cache s !! k.
Proof.
  destruct e as [c|url o ck now|pattern]; simpl; intros Ha Hr.
  - by apply complete_keeps.
  - unfold makeRequest. destruct (truthy _); [done|].
    destruct (pendingRequests s !! _); [done|]. split; [|done].
    intros q rq Hq. simpl in Hq. rewrite lookup_insert in Hq. case_decide.
    + injection Hq as <-. done.
    + by apply (Hr q).
  - split; [done|]. by apply clear_keeps.
Qed.

Lemma steps_keep k steps s :
  Forall (apartFrom k) steps -> noReadOf k s ->
  noReadOf k (fold_left step steps s)
  /\ cache (fold_left step steps s) !! k = cache s !! k.
Proof.
  intros Hall. revert s. induction Hall as [|e steps He _ IH]; intros s Hr; [done|].
  simpl. destruct (step_keeps k s e He Hr) as [Hr' Hc].
  destruct (IH _ Hr') as [Hr'' Hc']. split; [done|]. by rewrite Hc'.
Qed.

(** A report or comment mutation as the steps it consists of. *)
Definition reportMutationSteps (companyId : string) (m : ReportMutation) (now : Z)
    : list Step :=
  let base := API_BASE_URL projectId in
  let reports := Clear ("reports_" +:+ companyId) in
  let comments reportId := Clear ("comments_" +:+ companyId +:+ "_" +:+ reportId) in
  match m with
  | ReportUpload data =>
      [reports;
       Call (base +:+ "/companies/" +:+ companyId +:+ "/reports")
            (formOptions publicAnonKey (uploadForm data)) None now]
  | ReportUpdate reportId data =>
      [reports;
       Call (base +:+ "/reports/" +:+ companyId +:+ "/" +:+ reportId)
            (jsonOptions publicAnonKey "PUT" (Some data)) None now]
  | ReportUpdateOrder orderUpdates =>
      [reports;
       Call (base +:+ "/companies/" +:+ companyId +:+ "/reports/reorder")
            (jsonOptions publicAnonKey "POST" (Some (orderUpdatesValue orderUpdates)))
            None now]
  | ReportDelete reportId =>
      [reports;
       Call (base +:+ "/reports/" +:+ companyId +:+ "/" +:+ reportId)
            (jsonOptions publicAnonKey "DELETE" None) None now]
  | CommentCreate reportId content =>
      [comments reportId; reports;
       Call (base +:+ "/reports/" +:+ companyId +:+ "/" +:+ reportId +:+ "/comments")
            (jsonOptions publicAnonKey "POST" (Some (VObj [("content", VStr content)])))
            None now]
  | CommentUpdate reportId commentId content =>
      [comments reportId; reports;
       Call (base +:+ "/comments/" +:+ companyId +:+ "/" +:+ reportId +:+ "/" +:+ commentId)
            (jsonOptions publicAnonKey "PUT" (Some (VObj [("content", VStr content)])))
            None now]
  | CommentDelete reportId commentId =>
      [comments reportId; reports;
       Call (base +:+ "/comments/" +:+ companyId +:+ "/" +:+ reportId +:+ "/" +:+ commentId)
            (jsonOptions publicAnonKey "DELETE" None) None now]
  end.

Lemma reportApi_mutate_steps companyId m now s :
  snd (reportApi_mutate projectId publicAnonKey companyId m now s)
  = fold_left step (reportMutationSteps companyId m now) s.
Proof. by destruct m. Qed.

Lemma reportMutationSteps_apart companyId m now :
  idLike companyId = true ->
  Forall (apartFrom (reportsCacheKey companyId)) (reportMutationSteps companyId m now).
Proof.
  intros Hid. pose proof (reports_pattern_misses _ Hid) as Hr.
  apply andb_prop in Hid as [_ Hid].
  pose proof (fun rest => comments_pattern_misses companyId rest Hid) as Hc.
  destruct m; repeat constructor; simpl; try done; try apply Hc.
Qed.

(** X3.  Report and comment mutations do not invalidate the cached report
    list.  The patterns they clear, ['reports_' + companyId] and
    ['comments_' + companyId + '_' + reportId], do not occur in the cache
    key of [reportApi.getByCompany], which is ['reports_getByCompany_']
    followed by [JSON.stringify({companyId})].  For a company id made of
    hexadecimal digits and dashes: when the list is cached and no request
    in flight would write it, after any mutation of [reportApi] or
    [commentApi] for that company and any further steps that do not read
    the list, the entry is unchanged, and a [getByCompany] within the TTL
    returns the cached list, as it was before the mutation, without a
    request. *)
Theorem report_mutation_keeps_cached_list companyId m now s d ts steps :
  idLike companyId = true ->
  noReadOf (reportsCacheKey companyId) s ->
  cache s !! reportsCacheKey companyId = Some (d, ts) ->
  Forall (apartFrom (reportsCacheKey companyId)) steps ->
  let s' := fold_left step steps
              (snd (reportApi_mutate projectId publicAnonKey companyId m now s)) in
  cache s' !! reportsCacheKey companyId = Some (d, ts)
  /\ forall t, truthy d = true -> t - ts < CACHE_DURATION ->
       reportApi_getByCompany projectId publicAnonKey companyId t s' = (Now d, s').
Proof.
  intros Hid Hr Hc Hsteps s'.
  assert (cache s' !! reportsCacheKey companyId = Some (d, ts)) as Hc'.
  { subst s'. rewrite reportApi_mutate_steps.
    destruct (steps_keep _ _ s (reportMutationSteps_apart companyId m now Hid) Hr)
      as [Hr1 Hc1].
    destruct (steps_keep _ steps _ Hsteps Hr1) as [_ Hc2]. by rewrite Hc2, Hc1. }
  split; [done|]. intros t Ht Hage. unfold reportApi_getByCompany.
  apply (makeRequest_hit _ _ _ _ _ (reportsCacheKey companyId) d ts); try done.
Qed.

End ReportCache.

Lemma report_mutation_keeps_cached_list_witness :
  let key := reportsCacheKey "1" in
  let s := Api.withCache {[ key := (Js.VArr [], 0) ]} Api.initial in
  let upload := {| Api.up_title := "t"; Api.up_analyst := "a"; Api.up_category := "c";
                   Api.up_file := {| Api.fileName := "f.pdf"; Api.fileType := "application/pdf";
                                     Api.fileSize := 10; Api.fileBytes := "" |} |} in
  let s' := fold_left Api.step
              [Api.Progress (Api.FetchResolved 0 (okResponse (Js.VObj [])));
               Api.Progress (Api.BodyRead 0 20)]
              (snd (Api.reportApi_mutate "p" "k" "1" (Api.ReportUpload upload) 10 s)) in
  Api.cache s' !! key = Some (Js.VArr [], 0)
  /\ Api.reportApi_getByCompany "p" "k" "1" 30 s' = (Api.Now (Js.VArr []), s').
Proof.
  intros key s upload s'.
  destruct (report_mutation_keeps_cached_list "p" "k" "1" (Api.ReportUpload upload) 10 s
              (Js.VArr []) 0
              [Api.Progress (Api.FetchResolved 0 (okResponse (Js.VObj [])));
               Api.Progress (Api.BodyRead 0 20)]) as [Hc Hg].
  - reflexivity.
  - intros p rq H. vm_compute in H. discriminate H.
  - reflexivity.
  - repeat constructor.
  - split; [exact Hc|]. apply Hg; [reflexivity|]. vm_compute. reflexivity.
Defined.

(* ===================================================================== *)
(** * App.tsx: loading the companies of an empty backend *)
(* ===================================================================== *)

Section RoundTrips.
Import Js Api.

Lemma fetchResolved_fields p resp s rq :
  inflight s !! p = Some rq -> rq_phase rq = AwaitFetch ->
  let s' := fetchResolved p resp s in
  cache s' = cache s
  /\ pendingRequests s' = delete (requestKey (rq_url rq) (rq_options rq)) (pendingRequests s)
  /\ settled s' = settled s
  /\ fetchLog s' = fetchLog s
  /\ nextId s' = nextId s.
Proof. intros Hp Hph. unfold fetchResolved. by rewrite Hp, Hph. Qed.

(** A request that [startFetch] has sent is answered with status 200 and
    a success envelope. *)
Lemma request_answered url o ck t1 s fields :
  pendingRequests s !! requestKey url o = None ->
  truthy (assoc "success" fields) = true ->
  let p := nextId s in
  let s' := bodyRead p t1 (fetchResolved p (Server.jsonResponse 200 (VObj fields))
                             (snd (startFetch url o ck s))) in
  settled s' !! p = Some (Resolved (assoc "data" fields))
  /\ cache s' = match cacheSlot o ck with
                | Some k => <[k := (assoc "data" fields, t1)]> (cache s)
                | None => cache s
                end
  /\ pendingRequests s' = pendingRequests s
  /\ fetchLog s' = fetchLog s ++ [(url, o)]
  /\ nextId s' = S (nextId s).
Proof.
  intros Hnone Hs p s'. subst s' p.
  rewrite (bodyRead_after_response _ _ _ _ _ (startFetch_inflight url o ck s) eq_refl).
  change (ok (Server.jsonResponse 200 _)) with true.
  change (json (Server.jsonResponse 200 (VObj fields))) with (Some (VObj fields)).
  cbv zeta. cbv iota. split; [by apply onJson_success|].
  destruct (fetchResolved_fields (nextId s) (Server.jsonResponse 200 (VObj fields)) _ _
              (startFetch_inflight url o ck s) eq_refl) as (Ec & Ep & Es & El & En).
  unfold onJson. cbn [get]. cbv iota. rewrite Hs. cbn [negb]. cbv iota. cbn [rq_options rq_cacheKey field].
  cbn [rq_url rq_options] in Ep.
  destruct (cacheSlot o ck) as [k|]; cbn [settle withCache cache pendingRequests fetchLog nextId];
    rewrite ?Ec, ?Ep, ?El, ?En; (repeat split; try done);
    simpl; by apply delete_insert_id.
Qed.

End RoundTrips.

Section LoadCompanies.
Import Js Api.
Variable getTime : string -> option Z.
Variables projectId publicAnonKey : string.

(** The deduplication key of [initSampleData]. *)
Definition initKey : string :=
  requestKey (API_BASE_URL projectId +:+ "/init-sample-data")
             (jsonOptions publicAnonKey "POST" None).

Lemma getCompanies_none st :
  Server.companies st = ∅ ->
  Server.getCompanies getTime st
  = Server.jsonResponse 200 (VObj [("success", VBool true); ("data", VArr [])]).
Proof. intros E. unfold Server.getCompanies, Server.listCompanies. by rewrite E. Qed.

Lemma initSample_listing serverNow st :
  Server.companies st = ∅ ->
  Server.listCompanies getTime (snd (Server.initSample serverNow st))
  ≡ₚ Server.sampleCompanies serverNow.
Proof.
  intros E. unfold Server.listCompanies, Order.computeDisplayOrder. rewrite sort_perm.
  unfold Server.initSample. cbn [snd Server.withCompanies Server.companies]. rewrite E.
  unfold Server.sampleCompanies.
  set (a1 := Server.sampleRecord "1" _ _ _ _ _). set (a2 := Server.sampleRecord "2" _ _ _ _ _).
  set (a3 := Server.sampleRecord "3" _ _ _ _ _). set (a4 := Server.sampleRecord "4" _ _ _ _ _).
  set (a5 := Server.sampleRecord "5" _ _ _ _ _). set (a6 := Server.sampleRecord "6" _ _ _ _ _).
  assert (Kv.getByPrefix "company:"
            (fold_left
               (fun t company => Kv.set (Server.companyKey (Model.co_id company)) company t)
               [a1; a2; a3; a4; a5; a6] ∅)
          = [a3; a5; a1; a6; a2; a4]) as ->.
  { vm_compute. reflexivity. }
  solve_Permutation.
Qed.


Lemma loadCompanies_starts forceRefresh closureLength isInitialLoad t0 ld s :
  negb forceRefresh && (0 <? closureLength) && negb isInitialLoad = false ->
  truthy (cachedValue (getOptions publicAnonKey) (Some "companies_getAll") t0 s) = false ->
  pendingRequests s !! getAllKey projectId publicAnonKey = None ->
  App.loadCompanies projectId publicAnonKey forceRefresh closureLength isInitialLoad t0 ld s
  = (App.atStage (App.AwaitGetAll (Follow (nextId s))) ld,
     snd (startFetch (API_BASE_URL projectId +:+ "/companies") (getOptions publicAnonKey)
            (Some "companies_getAll") s)).
Proof.
  intros Hguard Hmiss Hp. unfold App.loadCompanies. rewrite Hguard.
  unfold companyApi_getAll.
  change (getCacheKey "companies_getAll" None) with "companies_getAll".
  by rewrite (makeRequest_fresh _ _ _ _ _ Hmiss Hp).
Qed.

Lemma resume_on_empty_list t ld s r :
  App.stage ld = App.AwaitGetAll r ->
  outcome s r = Some (Resolved (VArr [])) ->
  pendingRequests s !! initKey = None ->
  App.resume projectId publicAnonKey t ld s
  = (App.atStage (App.AwaitInit (Follow (nextId s))) ld,
     snd (startFetch (API_BASE_URL projectId +:+ "/init-sample-data")
            (jsonOptions publicAnonKey "POST" None) None s)).
Proof.
  intros Hst Ho Hp. unfold App.resume. rewrite Hst, Ho. cbn [App.lengthIsZero].
  unfold initSampleData. rewrite makeRequest_uncached. unfold initKey in Hp. by rewrite Hp.
Qed.

Lemma resume_on_sample_data t ld s r v d ts :
  App.stage ld = App.AwaitInit r ->
  outcome s r = Some (Resolved v) ->
  cache s !! "companies_getAll" = Some (d, ts) ->
  truthy d = true ->
  t - ts < CACHE_DURATION ->
  App.resume projectId publicAnonKey t ld s
  = (App.atStage (App.AwaitSampleData (Now d)) ld, s).
Proof.
  intros Hst Ho Hc Ht Hage. unfold App.resume. rewrite Hst, Ho.
  unfold companyApi_getAll.
  change (getCacheKey "companies_getAll" None) with "companies_getAll".
  by rewrite (makeRequest_hit _ _ _ _ _ "companies_getAll" d ts).
Qed.

(** X4.  [loadCompanies] on a backend without companies.  The first [getAll]
    is answered with the empty array, which is cached (an array is
    truthy); [initSampleData] makes the server store the six sample
    companies and clears no cache entry; the second [getAll], within the
    TTL, is answered from the cache.  The page ends up showing the empty
    list after exactly two requests (GET /companies and
    POST /init-sample-data), while the server now lists the six sample
    companies. *)
Theorem loadCompanies_shows_cached_empty_list st serverNow s0 ld0
    forceRefresh closureLength isInitialLoad t0 t1 t2 t3 t4 t5 :
  negb forceRefresh && (0 <? closureLength) && negb isInitialLoad = false ->
  truthy (cachedValue (getOptions publicAnonKey) (Some "companies_getAll") t0 s0) = false ->
  pendingRequests s0 !! getAllKey projectId publicAnonKey = None ->
  pendingRequests s0 !! initKey = None ->
  Server.companies st = ∅ ->
  t4 - t1 < CACHE_DURATION ->
  let p := nextId s0 in
  let started :=
    App.loadCompanies projectId publicAnonKey forceRefresh closureLength isInitialLoad
      t0 ld0 s0 in
  let s2 := bodyRead p t1 (fetchResolved p (Server.getCompanies getTime st) (snd started)) in
  let second := App.resume projectId publicAnonKey t2 (fst started) s2 in
  let s4 := bodyRead (S p) t3
              (fetchResolved (S p) (fst (Server.initSample serverNow st)) (snd second)) in
  let third := App.resume projectId publicAnonKey t4 (fst second) s4 in
  let last := App.resume projectId publicAnonKey t5 (fst third) (snd third) in
  App.shown (fst last) = VArr []
  /\ App.stage (fst last) = App.NotLoading
  /\ App.failed (fst last) = App.failed ld0
  /\ fetchLog (snd last)
     = fetchLog s0 ++ [(API_BASE_URL projectId +:+ "/companies", getOptions publicAnonKey);
                       (API_BASE_URL projectId +:+ "/init-sample-data",
                        jsonOptions publicAnonKey "POST" None)]
  /\ Server.listCompanies getTime (snd (Server.initSample serverNow st))
     ≡ₚ Server.sampleCompanies serverNow.
Proof.
  intros Hguard Hmiss Hp0 Hi0 Hst Hage p started s2 second s4 third last.
  subst last third s4 second s2 started p.
  rewrite (loadCompanies_starts _ _ _ _ _ _ Hguard Hmiss Hp0). cbn [fst snd].
  rewrite (getCompanies_none st Hst).
  destruct (request_answered (API_BASE_URL projectId +:+ "/companies")
              (getOptions publicAnonKey) (Some "companies_getAll") t1 s0
              [("success", VBool true); ("data", VArr [])] Hp0 eq_refl)
    as (E2 & E3 & E4 & E5 & E6).
  cbv zeta in E2, E3, E4, E5, E6. simpl assoc in E2, E3.
  set (s2 := bodyRead (nextId s0) t1 _) in *.
  assert (pendingRequests s2 !! initKey = None) as Hp2 by (by rewrite E4).
  rewrite (resume_on_empty_list t2 (App.atStage (App.AwaitGetAll (Follow (nextId s0))) ld0)
             s2 (Follow (nextId s0)) eq_refl E2 Hp2). cbn [fst snd].
  rewrite E6.
  destruct (request_answered (API_BASE_URL projectId +:+ "/init-sample-data")
              (jsonOptions publicAnonKey "POST" None) None t3 s2
              [("success", VBool true); ("message", VStr "Sample data initialized")]
              Hp2 eq_refl)
    as (F2 & F3 & F4 & F5 & F6).
  cbv zeta in F2, F3, F4, F5, F6. simpl assoc in F2, F3. simpl cacheSlot in F3.
  rewrite E6 in F2, F3, F4, F5, F6.
  change (fst (Server.initSample serverNow st))
    with (Server.jsonResponse 200
            (VObj [("success", VBool true); ("message", VStr "Sample data initialized")])).
  set (s4 := bodyRead (S (nextId s0)) t3 _) in *.
  assert (cache s4 !! "companies_getAll" = Some (VArr [], t1)) as Hc.
  { rewrite F3, E3. apply lookup_insert_eq. }
  rewrite (resume_on_sample_data t4
             (App.atStage (App.AwaitInit (Follow (S (nextId s0))))
                (App.atStage (App.AwaitGetAll (Follow (nextId s0))) ld0))
             s4 (Follow (S (nextId s0))) VUndefined (VArr []) t1
             eq_refl F2 Hc eq_refl Hage).
  cbn [fst snd App.resume App.atStage App.stage outcome App.finished App.shown App.failed].
  split; [done|]. split; [done|]. split; [done|]. split; [|by apply initSample_listing].
  rewrite F5, E5, <- app_assoc. done.
Qed.

End LoadCompanies.

Definition idleLoader : App.Loader :=
  {| App.shown := Js.VArr []; App.stage := App.NotLoading; App.failed := false |}.

Lemma loadCompanies_shows_cached_empty_list_witness :
  let now := "2024-01-01T00:00:00.000Z" in
  let started := App.loadCompanies "p" "k" false 0 true 0 idleLoader Api.initial in
  let s2 := Api.bodyRead 0 1
              (Api.fetchResolved 0 (Server.getCompanies sampleTime Server.empty)
                 (snd started)) in
  let second := App.resume "p" "k" 2 (fst started) s2 in
  let s4 := Api.bodyRead 1 3
              (Api.fetchResolved 1 (fst (Server.initSample now Server.empty)) (snd second)) in
  let third := App.resume "p" "k" 4 (fst second) s4 in
  let last := App.resume "p" "k" 5 (fst third) (snd third) in
  App.shown (fst last) = Js.VArr []
  /\ App.stage (fst last) = App.NotLoading
  /\ length (Server.listCompanies sampleTime (snd (Server.initSample now Server.empty)))
     = 6%nat.
Proof.
  intros now started s2 second s4 third last.
  destruct (loadCompanies_shows_cached_empty_list sampleTime "p" "k" Server.empty now
              Api.initial idleLoader false 0 true 0 1 2 3 4 5)
    as (Hshown & Hstage & _ & _ & Hstored); try reflexivity.
  split; [exact Hshown|]. split; [exact Hstage|].
  by rewrite (Permutation_length Hstored).
Defined.

(* ===================================================================== *)
(** * The requests of utils/api.ts and the routes of the server *)
(* ===================================================================== *)

Section Routing.
Import Js Api.
Variables projectId publicAnonKey : string.




























End Routing.



(* ===================================================================== *)
(** * The keys of the store over every sequence of requests *)
(* ===================================================================== *)

Section KeyInvariant.
Import Js Model Server.

Variable getTime : string -> option Z.
Variable createSignedUrl : option string -> Z -> option string.
Variable getPublicUrl : string -> string.
Variable trim : string -> string.

(** Every record sits at the key built from its own ids. *)
Definition wellKeyed (st : Store) : Prop :=
  (forall k c, companies st !! k = Some c -> k = companyKey (co_id c)) /\ keyedByIds st.

(** The path parameters and fresh ids that end up inside a report or
    comment key contain no colon. *)
Definition colonFreeIds (req : Request) : Prop :=
  match req with
  | PostReport companyId _ uuid _ => colonFree companyId /\ colonFree uuid
  | PostComment companyId reportId _ _ _ => colonFree companyId /\ colonFree reportId
  | _ => True
  end.

Lemma wellKeyed_empty : wellKeyed Server.empty.
Proof.
  split; [|split]; intros k c H; simpl in H; by rewrite lookup_empty in H.
Qed.

(** Removing records keeps the discipline. *)
Lemma wellKeyed_sub st st' :
  companies st' ⊆ companies st -> reports st' ⊆ reports st -> comments st' ⊆ comments st ->
  wellKeyed st -> wellKeyed st'.
Proof.
  intros Hc Hr Hm (Kc & Kr & Km). split; [|split].
  - intros k c H. apply Kc. by eapply lookup_weaken.
  - intros k r H. apply Kr. by eapply lookup_weaken.
  - intros k c H. apply Km. by eapply lookup_weaken.
Qed.

Lemma fold_del_sub {V B : Type} (keyOf : B -> string) (l : list B) (t : gmap string V) :
  fold_left (fun t b => Kv.del (keyOf b) t) l t ⊆ t.
Proof.
  apply map_subseteq_spec. intros k v. rewrite fold_del_lookup. by case_decide.
Qed.

Lemma removeOldIcon_tables removed company st :
  companies (removeOldIcon removed company st) = companies st
  /\ reports (removeOldIcon removed company st) = reports st
  /\ comments (removeOldIcon removed company st) = comments st
  /\ reportBlobs (removeOldIcon removed company st) = reportBlobs st.
Proof.
  unfold removeOldIcon. destruct (co_iconUrl company) as [u|]; [|done].
  by destruct (_ || _).
Qed.

Lemma wellKeyed_company st k c :
  k = companyKey (co_id c) -> wellKeyed st ->
  wellKeyed (withCompanies (Kv.set k c (companies st)) st).
Proof.
  intros -> (Kc & Kr). split; [|done]. intros k' c' H. simpl in H. unfold Kv.set in H.
  apply lookup_insert_Some in H as [[<- <-]|[_ H]]; [done|by apply Kc].
Qed.

Lemma wellKeyed_report st k r :
  k = reportKey (re_companyId r) (re_id r) -> colonFree (re_companyId r) -> colonFree (re_id r) ->
  wellKeyed st -> wellKeyed (withReports (Kv.set k r (reports st)) st).
Proof.
  intros -> H1 H2 (Kc & Kr & Km). split; [done|]. split; [|done].
  intros k' r' H. simpl in H. unfold Kv.set in H.
  apply lookup_insert_Some in H as [[<- <-]|[_ H]]; [done|by apply Kr].
Qed.

Lemma wellKeyed_comment st companyId reportId c :
  colonFree companyId -> colonFree reportId ->
  wellKeyed st ->
  wellKeyed (withComments (Kv.set (commentKey companyId reportId (cm_id c)) c (comments st)) st).
Proof.
  intros H1 H2 (Kc & Kr & Km). split; [done|]. split; [done|].
  intros k' c' H. simpl in H. unfold Kv.set in H.
  apply lookup_insert_Some in H as [[<- <-]|[_ H]]; [by exists companyId, reportId|by apply Km].
Qed.

Lemma wellKeyed_reorderCompanies now updates st :
  wellKeyed st ->
  wellKeyed (withCompanies (fold_left (applyOrderUpdate now) updates (companies st)) st).
Proof.
  intros (Kc & Kr). split; [|done]. simpl.
  assert (forall t, (forall k c, t !! k = Some c -> k = companyKey (co_id c)) ->
            forall k c, fold_left (applyOrderUpdate now) updates t !! k = Some c ->
              k = companyKey (co_id c)) as H; [|by apply H].
  induction updates as [|u updates IH]; intros t Ht; [done|]. simpl. apply IH.
  intros k c. unfold applyOrderUpdate, Kv.get, Kv.set.
  destruct (t !! companyKey (fst u)) as [existing|] eqn:He; [|by apply Ht].
  intros [[<- <-]|[_ H]]%lookup_insert_Some; [|by apply Ht].
  simpl. by apply Ht.
Qed.

Lemma wellKeyed_reorderReports companyId now updates st :
  wellKeyed st ->
  wellKeyed (withReports
               (fold_left (applyReportOrderUpdate companyId now) updates (reports st)) st).
Proof.
  intros (Kc & Kr & Km). split; [done|]. split; [|done]. simpl.
  assert (forall t,
            (forall k r, t !! k = Some r ->
               k = reportKey (re_companyId r) (re_id r)
               /\ colonFree (re_companyId r) /\ colonFree (re_id r)) ->
            forall k r, fold_left (applyReportOrderUpdate companyId now) updates t !! k = Some r ->
              k = reportKey (re_companyId r) (re_id r)
              /\ colonFree (re_companyId r) /\ colonFree (re_id r)) as H; [|by apply H].
  induction updates as [|u updates IH]; intros t Ht; [done|]. simpl. apply IH.
  intros k r. unfold applyReportOrderUpdate, Kv.get, Kv.set.
  destruct (t !! reportKey companyId (fst u)) as [existing|] eqn:He; [|by apply Ht].
  intros [[<- <-]|[_ H]]%lookup_insert_Some; [|by apply Ht].
  simpl. by apply Ht.
Qed.

Lemma wellKeyed_initSample now st : wellKeyed st -> wellKeyed (snd (initSample now st)).
Proof.
  intros (Kc & Kr). split; [|done]. unfold initSample. simpl snd.
  cbn [withCompanies companies]. unfold sampleCompanies. cbn [fold_left].
  intros k c H. unfold Kv.set in H.
  repeat (apply lookup_insert_Some in H as [[<- <-]|[_ H]]; [done|]).
  by apply Kc.
Qed.

Lemma wellKeyed_deleteCompany removed id st :
  wellKeyed st -> wellKeyed (snd (deleteCompany removed id st)).
Proof.
  intros Hk. destruct (companies st !! companyKey id) as [company|] eqn:Hc.
  - rewrite (deleteCompany_unfold _ _ _ _ Hc). cbv zeta. simpl snd.
    destruct (afterIcon_fields removed company st) as (Ec & Er & Em & _).
    destruct (deleteReports_fields removed id
                (Kv.getByPrefix (reportPrefix id) (reports (afterIcon removed company st)))
                (afterIcon removed company st)) as (Fc & _ & Fr & Fm & _).
    cbv zeta in Fc, Fr, Fm.
    apply (wellKeyed_sub st); [| |  |done]; simpl.
    + rewrite Fc, Ec. apply delete_subseteq.
    + rewrite Fr, Er. apply fold_del_sub.
    + rewrite Fm, Em. apply purgeAll_sub.
  - unfold deleteCompany, Kv.get. by rewrite Hc.
Qed.

Lemma wellKeyed_deleteReport removed companyId reportId st :
  wellKeyed st -> wellKeyed (snd (deleteReport removed companyId reportId st)).
Proof.
  intros Hk. unfold deleteReport, Kv.get.
  destruct (reports st !! reportKey companyId reportId) as [report|]; [|done]. simpl snd.
  apply (wellKeyed_sub st); [| | |done].
  - by destruct (re_filePath report).
  - simpl. destruct (re_filePath report); apply delete_subseteq.
  - simpl. destruct (re_filePath report); apply fold_del_sub.
Qed.

Definition serve := Server.handle getTime createSignedUrl getPublicUrl trim.

Lemma wellKeyed_handle uploaded removed req st :
  colonFreeIds req -> wellKeyed st -> wellKeyed (snd (serve uploaded removed req st)).
Proof.
  intros Hreq Hk. destruct req; simpl; try done.
  - unfold createCompany. destruct (_ || _); [done|]. by apply wellKeyed_company.
  - unfold updateCompany, Kv.get. destruct (companies st !! companyKey id) as [c|] eqn:Hc; [|done].
    destruct (_ || _); [done|]. apply wellKeyed_company; [|done].
    simpl. by apply (proj1 Hk).
  - unfold reorderCompanies. destruct orderUpdates; [|done]. by apply wellKeyed_reorderCompanies.
  - unfold uploadIcon, Kv.get. destruct (companies st !! companyKey id) as [c|] eqn:Hc; [|done].
    destruct icon as [iconFile|]; [|done]. destruct (negb _); [done|]. destruct (_ >? _); [done|].
    destruct (removeOldIcon_tables removed c st) as (Ec & Er & Em & _).
    assert (wellKeyed (removeOldIcon removed c st)) as Hk1.
    { apply (wellKeyed_sub st); [by rewrite Ec|by rewrite Er|by rewrite Em|done]. }
    destruct (negb (uploaded _)); [done|]. simpl snd.
    apply (wellKeyed_company (withIconBlobs _ (removeOldIcon removed c st))).
    + simpl. apply (proj1 Hk). done.
    + done.
  - unfold removeIcon, Kv.get. destruct (companies st !! companyKey id) as [c|] eqn:Hc; [|done].
    destruct (removeOldIcon_tables removed c st) as (Ec & Er & Em & _).
    assert (wellKeyed (removeOldIcon removed c st)) as Hk1.
    { apply (wellKeyed_sub st); [by rewrite Ec|by rewrite Er|by rewrite Em|done]. }
    simpl snd. apply wellKeyed_company; [|done]. simpl. by apply (proj1 Hk).
  - by apply wellKeyed_deleteCompany.
  - unfold uploadReport. destruct (rf_file form) as [file|]; [|done].
    destruct (_ || _); [done|]. destruct (negb _); [done|]. destruct (negb (uploaded _)); [done|].
    simpl snd. destruct Hreq as [H1 H2].
    by apply (wellKeyed_report (withReportBlobs _ st)).
  - unfold updateReport, Kv.get.
    destruct (reports st !! reportKey companyId reportId) as [r|] eqn:Hr; [|done].
    destruct (_ || _); [done|]. simpl snd.
    destruct (proj1 (proj2 Hk) _ _ Hr) as (E & H1 & H2). by apply wellKeyed_report.
  - unfold reorderReports. destruct orderUpdates; [|done]. by apply wellKeyed_reorderReports.
  - by apply wellKeyed_deleteReport.
  - unfold addComment, Kv.get. destruct (_ || _); [done|].
    destruct (reports st !! _); [|done]. simpl snd. destruct Hreq as [H1 H2].
    by apply (wellKeyed_comment st companyId reportId
                {| cm_id := uuid; cm_content := trim content; cm_createdAt := now;
                   cm_updatedAt := None |}).
  - unfold updateComment, Kv.get. destruct (_ || _); [done|].
    destruct (comments st !! commentKey companyId reportId commentId) as [c|] eqn:Hc; [|done].
    simpl snd. destruct Hk as (Kc & Kr & Km).
    destruct (Km _ _ Hc) as (c' & r' & E & H1 & H2). rewrite E.
    by apply (wellKeyed_comment st c' r'
                {| cm_id := cm_id c; cm_content := trim content;
                   cm_createdAt := cm_createdAt c; cm_updatedAt := Some now |}).
  - unfold deleteComment, Kv.get. destruct (comments st !! _); [|done]. simpl snd.
    apply (wellKeyed_sub st); [done|done| |done]. apply delete_subseteq.
  - by apply wellKeyed_initSample.
Qed.

(** One request together with what the blob store does while it is
    handled. *)
Definition Handled : Type := (string -> bool) * (string -> bool) * Request.

Definition serveAll (requests : list Handled) (st : Store) : Store :=
  fold_left (fun st h => snd (serve (fst (fst h)) (snd (fst h)) (snd h) st)) requests st.

(** X7.  The keys of the store.  After any sequence of requests served from
    the empty store, whatever the blob store does, when the path
    parameters and fresh ids that enter a report or comment key contain no
    colon: every company is stored at [company:<its id>], every report at
    [report:<its companyId>:<its id>] with colon-free ids, and every
    comment at [comment:<companyId>:<reportId>:<its id>]. *)
Theorem served_store_is_keyed_by_ids (requests : list Handled) :
  Forall (fun h => colonFreeIds (snd h)) requests ->
  let st := serveAll requests Server.empty in
  (forall k c, companies st !! k = Some c -> k = companyKey (co_id c))
  /\ (forall k r, reports st !! k = Some r ->
        k = reportKey (re_companyId r) (re_id r)
        /\ colonFree (re_companyId r) /\ colonFree (re_id r))
  /\ (forall k c, comments st !! k = Some c ->
        exists companyId reportId,
          k = commentKey companyId reportId (cm_id c)
          /\ colonFree companyId /\ colonFree reportId).
Proof.
  intros Hall st.
  assert (forall st0, wellKeyed st0 -> wellKeyed (serveAll requests st0)) as H.
  { induction Hall as [|h requests Hh _ IH]; intros st0 Hk; [done|].
    simpl. by apply IH, wellKeyed_handle. }
  destruct (H Server.empty wellKeyed_empty) as (Kc & Kr & Km). done.
Qed.

End KeyInvariant.

Definition pdfFile : Api.File :=
  {| Api.fileName := "note.pdf"; Api.fileType := "application/pdf"; Api.fileSize := 2048;
     Api.fileBytes := "" |}.

Definition sampleRequests : list Handled :=
  [(fun _ => true, fun _ => true,
    Server.PostCompany {| Server.f_name := "n"; Server.f_code := "c"; Server.f_type := "HK";
                          Server.f_description := "" |}
      "c1" "2024-01-01T00:00:00.000Z");
   (fun _ => true, fun _ => true,
    Server.PostReport "c1"
      {| Server.rf_title := "t"; Server.rf_analyst := "a"; Server.rf_category := "note";
         Server.rf_file := Some pdfFile |}
      "r1" "2024-01-02T00:00:00.000Z");
   (fun _ => true, fun _ => true,
    Server.PostComment "c1" "r1" "text" "m1" "2024-01-03T00:00:00.000Z")].

Lemma served_store_is_keyed_by_ids_witness :
  let st := serveAll sampleTime (fun _ _ => None) (fun path => path) (fun s => s)
              sampleRequests Server.empty in
  exists r c,
    Server.reports st !! "report:c1:r1" = Some r
    /\ "report:c1:r1" = Server.reportKey (Model.re_companyId r) (Model.re_id r)
    /\ Server.comments st !! "comment:c1:r1:m1" = Some c
    /\ exists companyId reportId,
         "comment:c1:r1:m1" = Server.commentKey companyId reportId (Model.cm_id c).
Proof.
  intros st.
  destruct (served_store_is_keyed_by_ids sampleTime (fun _ _ => None) (fun path => path)
              (fun s => s) sampleRequests) as (_ & Hreports & Hcomments).
  { repeat constructor. }
  assert (is_Some (Server.reports st !! "report:c1:r1")) as [r Hr]
    by (vm_compute; by eexists).
  assert (is_Some (Server.comments st !! "comment:c1:r1:m1")) as [c Hc]
    by (vm_compute; by eexists).
  exists r, c. split; [exact Hr|]. split; [exact (proj1 (Hreports _ _ Hr))|].
  split; [exact Hc|]. destruct (Hcomments _ _ Hc) as (companyId & reportId & E & _).
  by exists companyId, reportId.
Defined.

(* ===================================================================== *)
(** * Requests the server refuses *)
(* ===================================================================== *)

Section ServerErrors.
Import Js Model Server.

Variable getTime : string -> option Z.
Variable createSignedUrl : option string -> Z -> option string.
Variable getPublicUrl : string -> string.
Variable trim : string -> string.


End ServerErrors.


(* ===================================================================== *)
(** * Company handlers and the list of the page *)
(* ===================================================================== *)

Section TableListing.
Context {V : Type}.

Lemma getByPrefix_insert_fresh (prefix key : string) (v : V) (t : gmap string V) :
  t !! key = None -> String.prefix prefix key = true ->
  Kv.getByPrefix prefix (<[key := v]> t) ≡ₚ v :: Kv.getByPrefix prefix t.
Proof.
  intros Hnone Hp. unfold Kv.getByPrefix. rewrite map_filter_insert_True by done.
  rewrite map_to_list_insert; [done|]. apply map_lookup_filter_None. by left.
Qed.

Lemma getByPrefix_delete (prefix key : string) (v : V) (t : gmap string V) :
  t !! key = Some v -> String.prefix prefix key = true ->
  Kv.getByPrefix prefix t ≡ₚ v :: Kv.getByPrefix prefix (delete key t).
Proof.
  intros Hsome Hp. unfold Kv.getByPrefix. rewrite map_filter_delete.
  rewrite <- (map_to_list_delete (filter _ t) key v); [done|].
  by apply map_lookup_filter_Some.
Qed.

Lemma getByPrefix_insert (prefix key : string) (v : V) (t : gmap string V) :
  String.prefix prefix key = true ->
  Kv.getByPrefix prefix (<[key := v]> t) ≡ₚ v :: Kv.getByPrefix prefix (delete key t).
Proof.
  intros Hp. rewrite <- insert_delete_eq.
  apply getByPrefix_insert_fresh; [apply lookup_delete_eq|done].
Qed.

End TableListing.

Section SortMore.
Import Order.
Context {A : Type}.



Lemma filter_perm (f : A -> bool) (l1 l2 : list A) :
  l1 ≡ₚ l2 -> List.filter f l1 ≡ₚ List.filter f l2.
Proof.
  induction 1 as [|x l1 l2 _ IH|x y l|l1 l2 l3 _ IH1 _ IH2]; simpl.
  - done.
  - destruct (f x); by rewrite IH.
  - destruct (f x), (f y); try done. apply Permutation_swap.
  - by etrans.
Qed.

Lemma filter_all (f : A -> bool) (l : list A) :
  (forall x, x ∈ l -> f x = true) -> List.filter f l = l.
Proof.
  induction l as [|x l IH]; intros Hf; [done|]. simpl. rewrite Hf by (by left).
  f_equal. apply IH. intros y Hy. apply Hf. by right.
Qed.


Lemma StronglySorted_filter (R : A -> A -> Prop) (f : A -> bool) (l : list A) :
  StronglySorted R l -> StronglySorted R (List.filter f l).
Proof.
  induction 1 as [|x l Hs IH Hall]; [constructor|]. simpl.
  destruct (f x); [|done]. constructor; [done|].
  rewrite Forall_forall in Hall. apply Forall_forall. intros y Hy.
  apply Hall. apply list_elem_of_In. apply list_elem_of_In in Hy.
  by apply filter_In in Hy as [? _].
Qed.

End SortMore.

Section DisplayMore.
Import Model Order.
Context {A : Type} `{Ordered A}.
Variable getTime : string -> option Z.

(** With pairwise distinct effective orders the displayed sequence does
    not depend on the sequence the items come in. *)
Lemma display_unique (l1 l2 : list A) :
  l1 ≡ₚ l2 -> NoDup (map effectiveOrder l1) ->
  computeDisplayOrder getTime l1 = computeDisplayOrder getTime l2.
Proof.
  intros Hperm Hnd. apply (strictly_sorted_unique effectiveOrder).
  - by apply display_sorted_strict.
  - apply display_sorted_strict. by rewrite <- Hperm.
  - unfold computeDisplayOrder. by rewrite !sort_perm.
Qed.

(** A list in strictly ascending effective order is displayed as it is. *)
Lemma display_sorted_id (l : list A) :
  StronglySorted (fun a b => effectiveOrder a < effectiveOrder b) l ->
  computeDisplayOrder getTime l = l.
Proof.
  intros Hs. apply (strictly_sorted_unique effectiveOrder); [|done|apply sort_perm].
  apply display_sorted_strict.
  clear -Hs. induction Hs as [|x l Hs IH Hall]; [constructor|]. simpl. constructor; [|done].
  rewrite Forall_forall in Hall. intros [y [E Hy]]%list_elem_of_fmap.
  specialize (Hall y Hy). lia.
Qed.

(** An item with a smaller effective order is displayed first. *)
Lemma display_before (items : list A) (i j : nat) (x y : A) :
  computeDisplayOrder getTime items !! i = Some x ->
  computeDisplayOrder getTime items !! j = Some y ->
  effectiveOrder x < effectiveOrder y -> (i < j)%nat.
Proof.
  intros Hi Hj Hlt. destruct (Nat.lt_trichotomy i j) as [?|[->|Hgt]]; [done| |].
  - rewrite Hi in Hj. injection Hj as ->. lia.
  - pose proof (StronglySorted_lookup _ _ _ _ _ _ (display_sorted_by_order getTime items)
                  Hgt Hj Hi). simpl in *. lia.
Qed.

End DisplayMore.

Section CompanyListing.
Import Js Model Order Server.
Variable getTime : string -> option Z.

Lemma companyKey_prefix id : String.prefix "company:" (companyKey id) = true.
Proof. apply prefix_append. Qed.

Section Keyed.
Variable st : Store.
Hypothesis Hkeys : forall k c, companies st !! k = Some c -> k = companyKey (co_id c).






End Keyed.

(** X11.  [POST /companies] with name, code and type answers the new record,
    which [GET /companies] then lists after every existing company that
    has an order.  With a fresh id, pairwise distinct orders and no
    company without order, the server's list is the display order of the
    list [handleCompanyCreated] builds on the page. *)
Theorem created_company_position body uuid now st :
  isEmpty (f_name body) = false -> isEmpty (f_code body) = false ->
  isEmpty (f_type body) = false ->
  let existing := Kv.getByPrefix "company:" (companies st) in
  let new := newCompany body uuid now st in
  let result := createCompany body uuid now st in
  let out := listCompanies getTime (snd result) in
  fst result = success (companyValue new)
  /\ new ∈ out
  /\ (forall i j c,
        out !! i = Some new -> out !! j = Some c ->
        c ∈ existing -> is_Some (co_order c) -> (j < i)%nat)
  /\ (companies st !! companyKey uuid = None ->
      NoDup (map effectiveOrder existing) ->
      (forall c, c ∈ existing -> is_Some (co_order c)) ->
      out = computeDisplayOrder getTime
              (App.handleCompanyCreated new (listCompanies getTime st))).
Proof.
  intros Hn Hc Ht existing new result out. subst result out.
  rewrite (createCompany_stores _ _ _ _ Hn Hc Ht). fold new. simpl fst. simpl snd.
  unfold listCompanies. cbn [companies withCompanies].
  assert (forall c o, c ∈ existing -> co_order c = Some o ->
            effectiveOrder c < effectiveOrder new) as Hlt.
  { intros c o Hin Ho. unfold effectiveOrder. simpl. rewrite Ho. simpl.
    destruct (maxOrder_fold existing (-1)) as (_ & Hle & _). cbv zeta in Hle.
    specialize (Hle c Hin). rewrite Ho in Hle. simpl in Hle. fold existing.
    unfold maxOrder. lia. }
  split; [done|]. split; [|split].
  - unfold computeDisplayOrder. rewrite sort_perm. apply elem_of_getByPrefix.
    exists (companyKey uuid). split; [apply lookup_insert_eq|apply companyKey_prefix].
  - intros i j c Hi Hj Hin [o Ho].
    apply (display_before getTime _ j i c new Hj Hi). by apply (Hlt c o).
  - intros Hfresh Hnd Hall. unfold App.handleCompanyCreated. fold existing.
    assert (Kv.getByPrefix "company:" (<[companyKey uuid := new]> (companies st))
            ≡ₚ new :: existing) as Hl
      by (apply getByPrefix_insert_fresh; [done|apply companyKey_prefix]).
    apply display_unique.
    + rewrite Hl. constructor. unfold computeDisplayOrder. by rewrite sort_perm.
    + rewrite Hl. simpl. apply NoDup_cons. split; [|done].
      intros [c [E Hin]]%list_elem_of_fmap. destruct (Hall c Hin) as [o Ho].
      pose proof (Hlt c o Hin Ho). lia.
Qed.

End CompanyListing.


Lemma sampleStore_orders :
  NoDup (map Order.effectiveOrder (Kv.getByPrefix "company:" (Server.companies sampleStore))).
Proof. vm_compute. apply NoDup_singleton. Qed.

Definition sampleForm : Server.CompanyForm :=
  {| Server.f_name := "n"; Server.f_code := "c"; Server.f_type := "HK";
     Server.f_description := "d" |}.



Lemma created_company_position_witness :
  let new := Server.newCompany sampleForm "c9" "2024-01-03T00:00:00.000Z" sampleStore in
  let result := Server.createCompany sampleForm "c9" "2024-01-03T00:00:00.000Z" sampleStore in
  Model.co_order new = Some 1
  /\ Server.listCompanies sampleTime (snd result)
     = Order.computeDisplayOrder sampleTime
         (App.handleCompanyCreated new (Server.listCompanies sampleTime sampleStore)).
Proof.
  intros new result. split; [reflexivity|].
  destruct (created_company_position sampleTime sampleForm "c9" "2024-01-03T00:00:00.000Z"
              sampleStore eq_refl eq_refl eq_refl) as (_ & _ & _ & Hlist).
  apply Hlist; [reflexivity|exact sampleStore_orders|].
  intros c Hc. apply elem_of_getByPrefix in Hc as (key & Hc & _).
  simpl in Hc. apply lookup_singleton_Some in Hc as [_ <-]. by eexists.
Defined.

(* ===================================================================== *)
(** * Report handlers: delete, upload and download *)
(* ===================================================================== *)

Section ReportFacts.
Import Js Model Order Server.
Variable getTime : string -> option Z.
Variable createSignedUrl : option string -> Z -> option string.

Lemma commentKey_prefix companyId reportId commentId :
  commentKey companyId reportId commentId = commentPrefix companyId reportId +:+ commentId.
Proof. unfold commentKey, commentPrefix. by rewrite !append_assoc. Qed.

Lemma reportKey_prefix companyId reportId :
  reportKey companyId reportId = reportPrefix companyId +:+ reportId.
Proof. unfold reportKey, reportPrefix. by rewrite !append_assoc. Qed.

(** The comments of one report, as [DELETE /reports/..] removes them. *)
Lemma purge_lookup companyId reportId (t : gmap string Comment) kc :
  (forall k c, t !! k = Some c ->
     String.prefix (commentPrefix companyId reportId) k = true ->
     k = commentKey companyId reportId (cm_id c)) ->
  fold_left (fun t comment => Kv.del (commentKey companyId reportId (cm_id comment)) t)
            (Kv.getByPrefix (commentPrefix companyId reportId) t) t !! kc
  = if String.prefix (commentPrefix companyId reportId) kc then None else t !! kc.
Proof.
  intros Hkeys. rewrite fold_del_lookup.
  destruct (String.prefix (commentPrefix companyId reportId) kc) eqn:Hp.
  - case_decide as Hin; [done|]. destruct (t !! kc) as [c|] eqn:Hl; [|done].
    exfalso. apply Hin. change (map ?f ?l) with (f <$> l). apply list_elem_of_fmap.
    exists c. split; [by apply Hkeys|]. apply elem_of_getByPrefix. by exists kc.
  - case_decide as Hin; [|done]. exfalso.
    change (map ?f ?l) with (f <$> l) in Hin. apply list_elem_of_fmap in Hin as [c [-> _]].
    rewrite commentKey_prefix, prefix_append in Hp. discriminate.
Qed.

Definition purgeReportComments (companyId reportId : string) (t : gmap string Comment)
    : gmap string Comment :=
  fold_left (fun t comment => Kv.del (commentKey companyId reportId (cm_id comment)) t)
            (Kv.getByPrefix (commentPrefix companyId reportId) t) t.

Lemma deleteReport_unfold removed companyId reportId st report :
  reports st !! reportKey companyId reportId = Some report ->
  deleteReport removed companyId reportId st
  = (successNoData,
     {| companies := companies st;
        reports := delete (reportKey companyId reportId) (reports st);
        comments := purgeReportComments companyId reportId (comments st);
        reportBlobs := match re_filePath report with
                       | Some filePath => storageRemove removed filePath (reportBlobs st)
                       | None => reportBlobs st
                       end;
        iconBlobs := iconBlobs st |}).
Proof.
  intros Hex. unfold deleteReport, Kv.get. rewrite Hex.
  by destruct (re_filePath report).
Qed.

Lemma deleteReport_missing removed companyId reportId st :
  reports st !! reportKey companyId reportId = None ->
  deleteReport removed companyId reportId st = (failure 404 "Report not found", st).
Proof. intros Hex. unfold deleteReport, Kv.get. by rewrite Hex. Qed.

(** X12.  [DELETE /reports/:companyId/:reportId] of a stored report whose
    comments sit at keys built from their ids: the report record and every
    comment under the report's prefix are removed; the other comments, the
    companies and the icon blobs stay; the report's blob is gone when the
    blob store carries out the removal, and no other blob is touched; a
    second DELETE and a download of the report then answer 404. *)
Theorem deleteReport_cascade removed companyId reportId st report :
  reports st !! reportKey companyId reportId = Some report ->
  (forall k c, comments st !! k = Some c ->
     String.prefix (commentPrefix companyId reportId) k = true ->
     k = commentKey companyId reportId (cm_id c)) ->
  let result := deleteReport removed companyId reportId st in
  let st' := snd result in
  fst result = successNoData
  /\ reports st' = delete (reportKey companyId reportId) (reports st)
  /\ (forall kc, comments st' !! kc
                 = if String.prefix (commentPrefix companyId reportId) kc then None
                   else comments st !! kc)
  /\ companies st' = companies st
  /\ iconBlobs st' = iconBlobs st
  /\ (forall filePath, re_filePath report = Some filePath -> removed filePath = true ->
        filePath ∉ reportBlobs st')
  /\ (forall path, re_filePath report <> Some path ->
        path ∈ reportBlobs st' <-> path ∈ reportBlobs st)
  /\ fst (deleteReport removed companyId reportId st') = failure 404 "Report not found"
  /\ downloadReport createSignedUrl companyId reportId st' = failure 404 "Report not found".
Proof.
  intros Hex Hkeys result st'. subst st' result. rewrite (deleteReport_unfold _ _ _ _ _ Hex).
  simpl fst. simpl snd. cbn [reports comments companies iconBlobs reportBlobs].
  split; [done|]. split; [done|]. split; [intros kc; by apply purge_lookup|].
  split; [done|]. split; [done|]. split; [|split; [|split]].
  - intros filePath -> Hrm. unfold storageRemove. rewrite Hrm.
    intros [_ Hn]%elem_of_difference. apply Hn. by apply elem_of_singleton.
  - intros path Hne. destruct (re_filePath report) as [fp|]; [|done]. unfold storageRemove.
    destruct (removed fp); [|done]. rewrite elem_of_difference, elem_of_singleton.
    split; [by intros [? _]|]. intros Hin. split; [done|]. intros ->. by apply Hne.
  - rewrite deleteReport_missing; [done|]. apply lookup_delete_eq.
  - unfold downloadReport, Kv.get. cbn [reports]. by rewrite lookup_delete_eq.
Qed.

Section UploadDelete.
Variables (uploaded removed : string -> bool) (companyId : string) (form : ReportForm).
Variables (uuid now : string) (st : Store) (file : Api.File).

Hypothesis Hfile : rf_file form = Some file.
Hypothesis Htitle : isEmpty (rf_title form) = false.
Hypothesis Hanalyst : isEmpty (rf_analyst form) = false.
Hypothesis Hcategory : isEmpty (rf_category form) = false.
Hypothesis Hpdf : includes "pdf" (Api.fileType file) = true.

Definition storedPath : string :=
  companyId +:+ "/" +:+ uuid +:+ "." +:+ lastPart "." (Api.fileName file).

Hypothesis Huploaded : uploaded storedPath = true.

Lemma uploadReport_unfold :
  uploadReport uploaded companyId form uuid now st
  = let st1 := withReportBlobs (reportBlobs st ∪ {[storedPath]}) st in
    let report := newReport companyId (rf_title form) (rf_analyst form) (rf_category form)
                            file uuid storedPath now st1 in
    (success (reportValue report),
     withReports (Kv.set (reportKey companyId uuid) report (reports st1)) st1).
Proof.
  unfold uploadReport. rewrite Hfile, Htitle, Hanalyst, Hcategory, Hpdf. simpl.
  fold storedPath. by rewrite Huploaded.
Qed.

(** X13.  Upload and delete are a round trip.  After the upload of a PDF
    with title, analyst and category under a fresh id, with no blob and no
    comment in its place before, the blob is stored at
    [<companyId>/<uuid>.<extension>], the download handler signs exactly
    that path, and deleting the report (the blob store removing the blob)
    gives back the store as it was before the upload. *)
Theorem upload_then_delete_restores :
  removed storedPath = true ->
  reports st !! reportKey companyId uuid = None ->
  storedPath ∉ reportBlobs st ->
  (forall kc, String.prefix (commentPrefix companyId uuid) kc = true ->
     comments st !! kc = None) ->
  let stored := snd (uploadReport uploaded companyId form uuid now st) in
  storedPath ∈ reportBlobs stored
  /\ downloadReport createSignedUrl companyId uuid stored
     = match createSignedUrl (Some storedPath) 3600 with
       | None => failure 500 "Failed to generate download link"
       | Some signedUrl =>
           jsonResponse 200 (VObj [("success", VBool true); ("downloadUrl", VStr signedUrl)])
       end
  /\ deleteReport removed companyId uuid stored = (successNoData, st).
Proof.
  intros Hrm Hfresh Hblob Hnocomments stored. subst stored. rewrite uploadReport_unfold.
  cbv zeta. simpl snd. split; [|split].
  - simpl. apply elem_of_union. right. by apply elem_of_singleton.
  - unfold downloadReport, Kv.get, Kv.set. cbn [reports withReports].
    by rewrite lookup_insert_eq.
  - erewrite deleteReport_unfold; [|apply lookup_insert_eq]. f_equal.
    destruct st as [cs rs ms rb ib]. simpl in *. unfold Kv.set, storageRemove.
    rewrite Hrm. f_equal.
    + by apply delete_insert_id.
    + unfold purgeReportComments. rewrite getByPrefix_nil; [done|]. done.
    + apply set_eq. intros x. rewrite elem_of_difference, elem_of_union, elem_of_singleton.
      split; [intros [[?|?] ?]; done|]. intros Hx. split; [by left|]. intros ->. done.
Qed.

End UploadDelete.

End ReportFacts.

Lemma sampleStore_r1_comment_keys k c :
  Server.comments sampleStore !! k = Some c ->
  String.prefix (Server.commentPrefix "c1" "r1") k = true ->
  k = Server.commentKey "c1" "r1" (Model.cm_id c).
Proof.
  simpl. intros [[<- <-]|[_ Hc]]%lookup_insert_Some Hp; [done|].
  apply lookup_singleton_Some in Hc as [<- <-]. by vm_compute in Hp.
Qed.

Lemma deleteReport_cascade_witness :
  let result := Server.deleteReport (fun _ => true) "c1" "r1" sampleStore in
  fst result = Server.successNoData
  /\ Server.reports (snd result) = delete "report:c1:r1" (Server.reports sampleStore)
  /\ ("c1/r1.pdf" ∉ Server.reportBlobs (snd result))
  /\ Server.downloadReport (fun _ _ => Some "signed") "c1" "r1" (snd result)
     = Server.failure 404 "Report not found".
Proof.
  intros result.
  destruct (deleteReport_cascade (fun _ _ => Some "signed") (fun _ => true) "c1" "r1"
              sampleStore (sampleReport "c1" "r1" (Some 0)) eq_refl
              sampleStore_r1_comment_keys)
    as (Hanswer & Hreports & _ & _ & _ & Hblob & _ & _ & Hdownload).
  split; [exact Hanswer|]. split; [exact Hreports|]. split; [|exact Hdownload].
  by apply Hblob.
Defined.

Definition pdfForm : Server.ReportForm :=
  {| Server.rf_title := "t"; Server.rf_analyst := "a"; Server.rf_category := "note";
     Server.rf_file := Some pdfFile |}.

Lemma upload_then_delete_restores_witness :
  let stored := snd (Server.uploadReport (fun _ => true) "c1" pdfForm "r9"
                       "2024-01-03T00:00:00.000Z" sampleStore) in
  "c1/r9.pdf" ∈ Server.reportBlobs stored
  /\ Server.deleteReport (fun _ => true) "c1" "r9" stored
     = (Server.successNoData, sampleStore).
Proof.
  intros stored.
  destruct (upload_then_delete_restores (fun _ _ => Some "signed") (fun _ => true)
              (fun _ => true) "c1" pdfForm "r9" "2024-01-03T00:00:00.000Z" sampleStore
              pdfFile eq_refl eq_refl eq_refl eq_refl eq_refl eq_refl eq_refl eq_refl)
    as (Hblob & _ & Hdelete).
  - vm_compute. set_solver.
  - intros kc Hp. simpl.
    destruct (Server.comments sampleStore !! kc) as [c|] eqn:Hc; [|exact Hc].
    simpl in Hc. apply lookup_insert_Some in Hc as [[<- _]|[_ Hc]]; [by vm_compute in Hp|].
    apply lookup_singleton_Some in Hc as [<- _]. by vm_compute in Hp.
  - split; [exact Hblob|exact Hdelete].
Defined.

(* ===================================================================== *)
(** * Comment handlers *)
(* ===================================================================== *)

Section CommentFacts.
Import Js Model Order Server.
Variable getTime : string -> option Z.
Variable trim : string -> string.

(** [a] was not created after [b]. *)
Definition commentLe (a b : Comment) : Prop :=
  exists ta tb, getTime (cm_createdAt a) = Some ta /\ getTime (cm_createdAt b) = Some tb
                /\ ta <= tb.

Lemma commentLe_trans a b c : commentLe a b -> commentLe b c -> commentLe a c.
Proof.
  intros (ta & tb & Ha & Hb & Hab) (tb' & tc & Hb' & Hc & Hbc).
  rewrite Hb in Hb'. injection Hb' as <-. exists ta, tc. repeat split; [done..|lia].
Qed.

(** The list every comment route answers with is a permutation of the
    comments stored for the report, in ascending order of creation when
    their dates parse. *)
Lemma listComments_sorted companyId reportId (t : gmap string Comment) :
  let listed := listComments getTime companyId reportId t in
  listed ≡ₚ Kv.getByPrefix (commentPrefix companyId reportId) t
  /\ ((forall c, c ∈ listed -> is_Some (getTime (cm_createdAt c))) ->
      StronglySorted commentLe listed).
Proof.
  intros listed. assert (listed ≡ₚ Kv.getByPrefix (commentPrefix companyId reportId) t) as Hp
    by apply sort_perm.
  split; [done|]. intros Hvalid. apply sort_sorted; [apply commentLe_trans|].
  intros x y Hx Hy. rewrite <- Hp in Hx, Hy.
  destruct (Hvalid x Hx) as [tx Etx], (Hvalid y Hy) as [ty Ety].
  unfold precedes, compareComments. rewrite Etx, Ety.
  destruct (Z.ltb_spec (ty - tx) 0).
  - exists ty, tx. repeat split; [done..|lia].
  - exists tx, ty. repeat split; [done..|lia].
Qed.

(** X14.  [POST /reports/:companyId/:reportId/comments] with content that is
    not blank, on a stored report: the trimmed comment is stored at its
    key, and the answer is the list of the report's comments after the
    insertion, which contains the new comment and is a permutation of it
    and the report's other comments; when all creation times parse the
    list is in ascending order of creation. *)
Theorem addComment_lists_sorted companyId reportId content uuid now st report :
  isEmpty content = false -> isEmpty (trim content) = false ->
  reports st !! reportKey companyId reportId = Some report ->
  let new := {| cm_id := uuid; cm_content := trim content;
                cm_createdAt := now; cm_updatedAt := None |} in
  let result := addComment getTime trim companyId reportId content uuid now st in
  let listed := listComments getTime companyId reportId (comments (snd result)) in
  fst result = success (VArr (map commentValue listed))
  /\ snd result
     = withComments (<[commentKey companyId reportId uuid := new]> (comments st)) st
  /\ new ∈ listed
  /\ listed ≡ₚ new :: Kv.getByPrefix (commentPrefix companyId reportId)
                        (delete (commentKey companyId reportId uuid) (comments st))
  /\ ((forall c, c ∈ listed -> is_Some (getTime (cm_createdAt c))) ->
      StronglySorted commentLe listed).
Proof.
  intros Hc Ht Hr new result listed. subst listed result.
  unfold addComment, Kv.get. rewrite Hc, Ht, Hr. simpl fst. simpl snd.
  cbn [comments withComments]. unfold Kv.set. fold new.
  destruct (listComments_sorted companyId reportId
              (<[commentKey companyId reportId uuid := new]> (comments st))) as [Hp Hs].
  cbv zeta in Hp, Hs.
  assert (String.prefix (commentPrefix companyId reportId)
            (commentKey companyId reportId uuid) = true) as Hpre
    by (rewrite commentKey_prefix; apply prefix_append).
  split; [done|]. split; [done|]. split; [|split; [|done]].
  - rewrite Hp. apply elem_of_getByPrefix. exists (commentKey companyId reportId uuid).
    split; [apply lookup_insert_eq|done].
  - rewrite Hp. by apply getByPrefix_insert.
Qed.

(** X15.  For a stored comment.  PUT with content that is not blank replaces
    the content by the trimmed one and sets updatedAt, keeps id and
    createdAt, and answers the report's comments.  DELETE removes exactly
    the comment's key and answers the remaining comments; after it a second
    DELETE answers 404, and a PUT answers 400 for blank content and 404
    otherwise. *)
Theorem comment_update_and_delete companyId reportId commentId st existing :
  comments st !! commentKey companyId reportId commentId = Some existing ->
  (forall content now,
     isEmpty content = false -> isEmpty (trim content) = false ->
     let updated := {| cm_id := cm_id existing; cm_content := trim content;
                       cm_createdAt := cm_createdAt existing; cm_updatedAt := Some now |} in
     let result := updateComment getTime trim companyId reportId commentId content now st in
     let listed := listComments getTime companyId reportId (comments (snd result)) in
     fst result = success (VArr (map commentValue listed))
     /\ snd result
        = withComments (<[commentKey companyId reportId commentId := updated]> (comments st)) st
     /\ listed ≡ₚ updated :: Kv.getByPrefix (commentPrefix companyId reportId)
                               (delete (commentKey companyId reportId commentId) (comments st)))
  /\ (let result := deleteComment getTime companyId reportId commentId st in
      let listed := listComments getTime companyId reportId (comments (snd result)) in
      fst result = success (VArr (map commentValue listed))
      /\ snd result
         = withComments (delete (commentKey companyId reportId commentId) (comments st)) st
      /\ existing :: listed ≡ₚ Kv.getByPrefix (commentPrefix companyId reportId) (comments st)
      /\ fst (deleteComment getTime companyId reportId commentId (snd result))
         = failure 404 "Comment not found"
      /\ forall content now,
           fst (updateComment getTime trim companyId reportId commentId content now
                  (snd result))
           = if isEmpty content || isEmpty (trim content)
             then failure 400 "Comment content is required"
             else failure 404 "Comment not found").
Proof.
  intros Hex.
  assert (String.prefix (commentPrefix companyId reportId)
            (commentKey companyId reportId commentId) = true) as Hpre
    by (rewrite commentKey_prefix; apply prefix_append).
  split.
  - intros content now Hc Ht updated result listed. subst listed result.
    unfold updateComment, Kv.get. rewrite Hc, Ht, Hex. simpl fst. simpl snd.
    cbn [comments withComments]. unfold Kv.set. fold updated.
    split; [done|]. split; [done|].
    destruct (listComments_sorted companyId reportId
                (<[commentKey companyId reportId commentId := updated]> (comments st)))
      as [Hp _]. cbv zeta in Hp. rewrite Hp. by apply getByPrefix_insert.
  - intros result listed. subst listed result.
    assert (deleteComment getTime companyId reportId commentId st
            = (commentsResponse getTime companyId reportId
                 (delete (commentKey companyId reportId commentId) (comments st)),
               withComments (delete (commentKey companyId reportId commentId) (comments st))
                            st)) as ->.
    { unfold deleteComment, Kv.get. by rewrite Hex. }
    simpl fst. simpl snd. cbn [comments withComments].
    split; [done|]. split; [done|]. split; [|split].
    + destruct (listComments_sorted companyId reportId
                  (delete (commentKey companyId reportId commentId) (comments st)))
        as [Hp _]. cbv zeta in Hp. rewrite Hp. symmetry. by apply getByPrefix_delete.
    + unfold deleteComment, Kv.get. cbn [comments withComments].
      by rewrite lookup_delete_eq.
    + intros content now. unfold updateComment, Kv.get. cbn [comments withComments].
      rewrite lookup_delete_eq. by destruct (_ || _).
Qed.

End CommentFacts.

Lemma addComment_lists_sorted_witness :
  let new := {| Model.cm_id := "m9"; Model.cm_content := "hi";
                Model.cm_createdAt := "2024-01-03T00:00:00.000Z";
                Model.cm_updatedAt := None |} in
  let result := Server.addComment sampleTime (fun s => s) "c1" "r1" "hi" "m9"
                  "2024-01-03T00:00:00.000Z" sampleStore in
  let listed := Server.listComments sampleTime "c1" "r1" (Server.comments (snd result)) in
  new ∈ listed /\ StronglySorted (commentLe sampleTime) listed.
Proof.
  intros new result listed.
  destruct (addComment_lists_sorted sampleTime (fun s => s) "c1" "r1" "hi" "m9"
              "2024-01-03T00:00:00.000Z" sampleStore (sampleReport "c1" "r1" (Some 0))
              eq_refl eq_refl eq_refl) as (_ & _ & Hnew & _ & Hsorted).
  split; [exact Hnew|]. apply Hsorted. intros c Hc. vm_compute in Hc.
  repeat (apply elem_of_cons in Hc as [->|Hc]; [by eexists|]).
  by apply elem_of_nil in Hc.
Defined.

Lemma comment_update_and_delete_witness :
  let updated := Server.updateComment sampleTime (fun s => s) "c1" "r1" "m1" "new text"
                   "2024-01-03T00:00:00.000Z" sampleStore in
  let deleted := Server.deleteComment sampleTime "c1" "r1" "m1" sampleStore in
  Server.comments (snd updated) !! "comment:c1:r1:m1"
  = Some {| Model.cm_id := "m1"; Model.cm_content := "new text";
            Model.cm_createdAt := "2024-01-02T00:00:00.000Z";
            Model.cm_updatedAt := Some "2024-01-03T00:00:00.000Z" |}
  /\ Server.comments (snd deleted) = delete "comment:c1:r1:m1" (Server.comments sampleStore)
  /\ fst (Server.deleteComment sampleTime "c1" "r1" "m1" (snd deleted))
     = Server.failure 404 "Comment not found".
Proof.
  intros updated deleted.
  destruct (comment_update_and_delete sampleTime (fun s => s) "c1" "r1" "m1" sampleStore
              (sampleComment "m1") eq_refl) as (Hupdate & _ & Hdelete & _ & Hagain & _).
  destruct (Hupdate "new text" "2024-01-03T00:00:00.000Z" eq_refl eq_refl)
    as (_ & Hstore & _).
  split; [|split].
  - subst updated. rewrite Hstore. reflexivity.
  - subst deleted. rewrite Hdelete. reflexivity.
  - exact Hagain.
Defined.

(* ===================================================================== *)
(** * Company icons *)
(* ===================================================================== *)

Section PathFacts.
Import Js Server.

Lemma includes_middle (pattern a b : string) : includes pattern (a +:+ pattern +:+ b) = true.
Proof.
  induction a as [|c a IH]; [apply (includes_prefix pattern b)|].
  rewrite append_cons, includes_cons, IH. apply orb_true_r.
Qed.

(** A one-character pattern occurs in a concatenation when it occurs in
    one of the parts. *)
Lemma includes_char_app (x : ascii) (a b : string) :
  includes (String x "") (a +:+ b) = includes (String x "") a || includes (String x "") b.
Proof.
  induction a as [|c a IH]; [done|].
  rewrite append_cons, !includes_cons, IH, orb_assoc. f_equal. f_equal.
  simpl. destruct (ascii_dec x c); [|done]. generalize (a +:+ b). intros s. by destruct a, s.
Qed.

Lemma lastPart_free (x sep : ascii) (s : string) :
  includes (String x "") s = false -> includes (String x "") (lastPart sep s) = false.
Proof.
  induction s as [|c s IH]; [done|]. intros H. simpl.
  assert (includes (String x "") s = false) as Hs.
  { rewrite includes_cons in H. by apply orb_false_elim in H as [_ ?]. }
  destruct (includes (String sep "") s); [by apply IH|].
  by destruct (Ascii.eqb c sep).
Qed.

(** [url.split('/').pop()] gives back what follows the last slash. *)
Lemma lastSegment_append (a name : string) :
  includes "/" name = false -> lastSegment (a +:+ "/" +:+ name) = name.
Proof.
  intros Hn. induction a as [|c a IH].
  - change ("" +:+ "/" +:+ name) with (String "/" name). simpl. by rewrite Hn.
  - rewrite append_cons. simpl. by rewrite (includes_middle "/" a name).
Qed.

End PathFacts.

Section IconFacts.
Import Js Model Server.
Variable getPublicUrl : string -> string.
Variable publicBase : string.

(** The public URL of a blob ends with its path. *)
Hypothesis getPublicUrl_path : forall path, getPublicUrl path = publicBase +:+ "/" +:+ path.

Definition iconPath (id : string) (iconFile : Api.File) : string :=
  "company-icons/" +:+ id +:+ "." +:+ lastPart "." (Api.fileName iconFile).

Lemma iconUrl_lastSegment id iconFile :
  includes "/" id = false -> includes "/" (Api.fileName iconFile) = false ->
  lastSegment (getPublicUrl (iconPath id iconFile))
  = id +:+ "." +:+ lastPart "." (Api.fileName iconFile).
Proof.
  intros Hid Hname. rewrite getPublicUrl_path. unfold iconPath.
  replace (publicBase +:+ "/" +:+ "company-icons/" +:+ id +:+ "." +:+
           lastPart "." (Api.fileName iconFile))
    with ((publicBase +:+ "/company-icons") +:+ "/" +:+ id +:+ "." +:+
          lastPart "." (Api.fileName iconFile)) by (by rewrite !append_assoc).
  apply lastSegment_append. rewrite !(includes_char_app "/"), Hid.
  by rewrite (lastPart_free "/" "." _ Hname).
Qed.

(** What the three routes that remove an icon make of a URL stored by the
    upload route. *)
Lemma removeOldIcon_uploaded removed id iconFile now (c : Company) st :
  includes "/" id = false -> includes "/" (Api.fileName iconFile) = false ->
  removeOldIcon removed (withIconUrl (Some (getPublicUrl (iconPath id iconFile))) now c) st
  = withIconBlobs (storageRemove removed (iconPath id iconFile) (iconBlobs st)) st.
Proof.
  intros Hid Hname. unfold removeOldIcon. cbn [co_iconUrl withIconUrl].
  rewrite (iconUrl_lastSegment _ _ Hid Hname).
  assert (isEmpty (getPublicUrl (iconPath id iconFile)) = false) as ->.
  { rewrite getPublicUrl_path. unfold isEmpty. by destruct publicBase. }
  assert (isEmpty (id +:+ "." +:+ lastPart "." (Api.fileName iconFile)) = false) as ->.
  { unfold isEmpty. by destruct id. }
  done.
Qed.

(** X16.  Icons, for a blob store whose public URL of a blob is a base
    followed by ['/'] and the path.  For a company id and a file name
    without slash, a stored company, and a file that the icon dialog
    accepts and the blob store takes: the company gets the public URL of
    [company-icons/<id>.<extension>], the blob is stored, and both
    [DELETE /companies/:id/icon] and [DELETE /companies/:id] afterwards
    hand exactly this path to the blob store for removal; the former also
    clears the company's iconUrl. *)
Theorem icon_upload_then_remove uploaded removed id iconFile now later st existing :
  includes "/" id = false -> includes "/" (Api.fileName iconFile) = false ->
  companies st !! companyKey id = Some existing ->
  CompanyIconUpload.handleFileSelect (Some iconFile) None = Some iconFile ->
  uploaded (iconPath id iconFile) = true ->
  let result := uploadIcon getPublicUrl uploaded removed id (Some iconFile) now st in
  let stored := snd result in
  let updated := withIconUrl (Some (getPublicUrl (iconPath id iconFile))) now existing in
  fst result = success (companyValue updated)
  /\ companies stored !! companyKey id = Some updated
  /\ iconPath id iconFile ∈ iconBlobs stored
  /\ iconBlobs (snd (removeIcon removed id later stored))
     = storageRemove removed (iconPath id iconFile) (iconBlobs stored)
  /\ companies (snd (removeIcon removed id later stored)) !! companyKey id
     = Some (withIconUrl None later updated)
  /\ iconBlobs (snd (deleteCompany removed id stored))
     = storageRemove removed (iconPath id iconFile) (iconBlobs stored).
Proof.
  intros Hid Hname Hex Hsel Hup result stored updated.
  assert (String.prefix "image/" (Api.fileType iconFile) = true
          /\ (Api.fileSize iconFile >? 5 * 1024 * 1024) = false) as [Htype Hsize].
  { revert Hsel. unfold CompanyIconUpload.handleFileSelect.
    destruct (String.prefix "image/" (Api.fileType iconFile)); [|done]. simpl.
    destruct (Z.gtb_spec (Api.fileSize iconFile) (2 * 1024 * 1024)); [done|]. intros _.
    split; [done|]. destruct (Z.gtb_spec (Api.fileSize iconFile) (5 * 1024 * 1024)); [lia|done]. }
  assert (result = (success (companyValue updated),
                    withCompanies (<[companyKey id := updated]> (companies st))
                      (withIconBlobs (iconBlobs (removeOldIcon removed existing st)
                                        ∪ {[iconPath id iconFile]})
                         (removeOldIcon removed existing st)))) as Hresult.
  { subst result. unfold uploadIcon, Kv.get. rewrite Hex, Htype, Hsize. simpl negb. cbv iota.
    fold (iconPath id iconFile). rewrite Hup. simpl. unfold Kv.set.
    destruct (removeOldIcon_tables removed existing st) as (-> & _). done. }
  subst stored. rewrite Hresult. simpl fst. simpl snd.
  assert (companies (withCompanies (<[companyKey id := updated]> (companies st))
                       (withIconBlobs (iconBlobs (removeOldIcon removed existing st)
                                         ∪ {[iconPath id iconFile]})
                          (removeOldIcon removed existing st))) !! companyKey id
          = Some updated) as Hstored by apply lookup_insert_eq.
  split; [done|]. split; [done|]. split; [|split; [|split]].
  - simpl. apply elem_of_union. right. by apply elem_of_singleton.
  - unfold removeIcon, Kv.get. rewrite Hstored. simpl snd. cbn [iconBlobs withCompanies].
    subst updated. by rewrite (removeOldIcon_uploaded removed id iconFile now existing _ Hid Hname).
  - unfold removeIcon, Kv.get. rewrite Hstored. simpl snd. cbn [companies withCompanies].
    unfold Kv.set. apply lookup_insert_eq.
  - rewrite (deleteCompany_unfold _ _ _ _ Hstored). cbv zeta. simpl snd.
    cbn [iconBlobs withCompanies].
    destruct (deleteReports_fields removed id
                (Kv.getByPrefix (reportPrefix id)
                   (reports (afterIcon removed updated
                      (withCompanies (<[companyKey id := updated]> (companies st))
                         (withIconBlobs (iconBlobs (removeOldIcon removed existing st)
                                           ∪ {[iconPath id iconFile]})
                            (removeOldIcon removed existing st))))))
                (afterIcon removed updated
                   (withCompanies (<[companyKey id := updated]> (companies st))
                      (withIconBlobs (iconBlobs (removeOldIcon removed existing st)
                                        ∪ {[iconPath id iconFile]})
                         (removeOldIcon removed existing st)))))
      as (_ & -> & _).
    change (afterIcon removed updated ?s) with (removeOldIcon removed updated s).
    subst updated. by rewrite (removeOldIcon_uploaded removed id iconFile now existing _ Hid Hname).
Qed.

End IconFacts.

Definition pngFile : Api.File :=
  {| Api.fileName := "logo.png"; Api.fileType := "image/png"; Api.fileSize := 4096;
     Api.fileBytes := "" |}.

Definition cdnUrl (path : string) : string := "https://cdn.example" +:+ "/" +:+ path.

Lemma icon_upload_then_remove_witness :
  let stored := snd (Server.uploadIcon cdnUrl (fun _ => true) (fun _ => true) "c1"
                       (Some pngFile) "2024-01-03T00:00:00.000Z" sampleStore) in
  ("company-icons/c1.png" ∈ Server.iconBlobs stored)
  /\ Server.iconBlobs (snd (Server.removeIcon (fun _ => true) "c1"
                              "2024-01-03T00:00:00.000Z" stored))
     = Server.iconBlobs stored ∖ {["company-icons/c1.png"]}
  /\ Server.iconBlobs (snd (Server.deleteCompany (fun _ => true) "c1" stored))
     = Server.iconBlobs stored ∖ {["company-icons/c1.png"]}.
Proof.
  intros stored.
  destruct (icon_upload_then_remove cdnUrl "https://cdn.example" (fun path => eq_refl)
              (fun _ => true) (fun _ => true) "c1" pngFile "2024-01-03T00:00:00.000Z"
              "2024-01-03T00:00:00.000Z" sampleStore (sampleCompany "c1" (Some 0) jan1)
              eq_refl eq_refl eq_refl eq_refl eq_refl)
    as (_ & _ & Hblob & Hremove & _ & Hdelete).
  split; [exact Hblob|]. split; [exact Hremove|exact Hdelete].
Defined.

(* ===================================================================== *)
(** * Storage buckets at startup *)
(* ===================================================================== *)

Section Buckets.
Import Server.

Lemma initBucket_elem listing created existing name bucket :
  bucket ∈ initBucket listing created existing name <->
  bucket ∈ existing
  \/ (bucket = name /\ created name = true /\ listing name <> ListingThrows
      /\ (listing name = Lists -> name ∉ existing)).
Proof.
  unfold initBucket. destruct (listing name) eqn:Hl.
  - case_bool_decide as Hin.
    + split; [by left|]. intros [?| (-> & _ & _ & Hn)]; [done|]. by destruct Hn.
    + destruct (created name) eqn:Hc.
      * rewrite elem_of_union, elem_of_singleton. split.
        -- intros [?| ->]; [by left|]. right. done.
        -- intros [?| (-> & _)]; [by left|by right].
      * split; [by left|]. intros [?|(_ & ? & _)]; done.
  - destruct (created name) eqn:Hc.
    + rewrite elem_of_union, elem_of_singleton. split.
      * intros [?| ->]; [by left|]. right. done.
      * intros [?| (-> & _)]; [by left|by right].
    + split; [by left|]. intros [?|(_ & ? & _)]; done.
  - split; [by left|]. intros [?|(_ & _ & ? & _)]; done.
Qed.

(** X17.  [initStorage] only adds buckets, and only the two names of its
    list, [make-78971119-reports] and [make-78971119-icons].  The bucket
    the icon handlers read and write, [make-78971119-company-icons],
    exists afterwards exactly when it existed before.  The reports bucket
    exists afterwards when its creation succeeds and the listing does not
    throw. *)
Theorem initStorage_buckets listing created existing :
  let after := initStorage listing created existing in
  existing ⊆ after
  /\ (forall bucket, bucket ∈ after ->
        bucket ∈ existing \/ bucket = "make-78971119-reports" \/ bucket = "make-78971119-icons")
  /\ (companyIconsBucket ∈ after <-> companyIconsBucket ∈ existing)
  /\ (created reportsBucket = true -> listing reportsBucket <> ListingThrows ->
      reportsBucket ∈ after).
Proof.
  intros after. subst after. unfold initStorage, startupBuckets. cbn [fold_left].
  assert (forall bucket,
            bucket ∈ initBucket listing created
                       (initBucket listing created existing "make-78971119-reports")
                       "make-78971119-icons"
            -> bucket ∈ existing \/ bucket = "make-78971119-reports"
               \/ bucket = "make-78971119-icons") as Hall.
  { intros bucket [[?| (-> & _)]%initBucket_elem| (-> & _)]%initBucket_elem; auto. }
  split; [|split; [done|split]].
  - intros bucket Hb. apply initBucket_elem. left. apply initBucket_elem. by left.
  - split.
    + intros [?|[E|E]]%Hall; [done|discriminate E..].
    + intros Hb. apply initBucket_elem. left. apply initBucket_elem. by left.
  - intros Hc Hl. apply initBucket_elem. left.
    destruct (decide (reportsBucket ∈ existing)) as [Hin|Hin].
    + apply initBucket_elem. by left.
    + apply initBucket_elem. right. done.
Qed.

End Buckets.

Lemma initStorage_buckets_witness :
  let after := Server.initStorage (fun _ => Server.Lists) (fun _ => true) ∅ in
  (Server.reportsBucket ∈ after) /\ (Server.companyIconsBucket ∉ after).
Proof.
  intros after.
  destruct (initStorage_buckets (fun _ => Server.Lists) (fun _ => true) ∅)
    as (_ & _ & Hicons & Hreports).
  split.
  - apply Hreports; [reflexivity|discriminate].
  - intros Hin. apply (proj1 Hicons) in Hin. by apply elem_of_empty in Hin.
Defined.

(* ===================================================================== *)
(** * Reordering the reports of a company *)
(* ===================================================================== *)

Section ReportReorder.
Import Js Model Order Server.

Variable getTime : string -> option Z.

Lemma reportKey_inj companyId a b : reportKey companyId a = reportKey companyId b -> a = b.
Proof.
  unfold reportKey. intros E. apply (inj (String.append "report:")) in E.
  apply (inj (String.append companyId)) in E. by apply (inj (String.append ":")) in E.
Qed.

Lemma reportKey_prefix' companyId reportId :
  String.prefix (reportPrefix companyId) (reportKey companyId reportId) = true.
Proof.
  unfold reportPrefix, reportKey.
  replace ("report:" +:+ companyId +:+ ":" +:+ reportId)
    with (("report:" +:+ companyId +:+ ":") +:+ reportId).
  - apply prefix_append.
  - by rewrite !append_assoc.
Qed.

Lemma applyReportOrderUpdate_other companyId now t u key :
  key <> reportKey companyId (fst u) ->
  applyReportOrderUpdate companyId now t u !! key = t !! key.
Proof.
  intros Hne. unfold applyReportOrderUpdate, Kv.get, Kv.set.
  destruct (t !! reportKey companyId (fst u)); [|done]. by rewrite lookup_insert_ne.
Qed.

Lemma applyReportOrderUpdate_same companyId now t u :
  applyReportOrderUpdate companyId now t u !! reportKey companyId (fst u)
  = setReportOrder (snd u) now <$> t !! reportKey companyId (fst u).
Proof.
  unfold applyReportOrderUpdate, Kv.get, Kv.set.
  destruct (t !! reportKey companyId (fst u)) as [c|] eqn:E; simpl.
  - by rewrite lookup_insert_eq.
  - by rewrite E.
Qed.

Lemma reportUpdates_other companyId now updates t key :
  (forall u, u ∈ updates -> key <> reportKey companyId (fst u)) ->
  fold_left (applyReportOrderUpdate companyId now) updates t !! key = t !! key.
Proof.
  revert t. induction updates as [|u updates IH]; intros t Hne; [done|].
  simpl. rewrite IH by (intros u' Hu'; apply Hne; by right).
  apply applyReportOrderUpdate_other, Hne. by left.
Qed.

Lemma reportUpdates_listed companyId now updates t id o :
  NoDup (map fst updates) ->
  (id, o) ∈ updates ->
  fold_left (applyReportOrderUpdate companyId now) updates t !! reportKey companyId id
  = setReportOrder o now <$> t !! reportKey companyId id.
Proof.
  revert t. induction updates as [|u updates IH]; intros t Hnd Hin.
  - by apply elem_of_nil in Hin.
  - simpl in Hnd. apply NoDup_cons in Hnd as [Hu Hnd]. simpl.
    apply elem_of_cons in Hin as [<-|Hin].
    + rewrite reportUpdates_other; [apply applyReportOrderUpdate_same|].
      intros u' Hu' E. apply reportKey_inj in E. simpl in Hu. apply Hu.
      rewrite E. change (map fst updates) with (fst <$> updates).
      apply list_elem_of_fmap. by exists u'.
    + rewrite IH by done. f_equal. apply applyReportOrderUpdate_other.
      intros E. apply reportKey_inj in E. apply Hu. rewrite <- E.
      change (map fst updates) with (fst <$> updates).
      apply list_elem_of_fmap. by exists (id, o).
Qed.

(** An update changes the order and the time of the update of a record
    and nothing else, and leaves it at its key. *)
Lemma reportUpdates_inv companyId now updates t key v :
  fold_left (applyReportOrderUpdate companyId now) updates t !! key = Some v ->
  exists old, t !! key = Some old
              /\ (v = old \/ exists o, v = setReportOrder o now old).
Proof.
  revert t v. induction updates as [|u updates IH]; intros t v Hl.
  - exists v. split; [done|by left].
  - simpl in Hl. destruct (IH _ _ Hl) as (mid & Hmid & Hv).
    destruct (decide (key = reportKey companyId (fst u))) as [->|Hne].
    + rewrite applyReportOrderUpdate_same in Hmid.
      destruct (t !! reportKey companyId (fst u)) as [old|]; [|done].
      simpl in Hmid. injection Hmid as <-. exists old. split; [done|]. right.
      destruct Hv as [->|[o ->]]; [by exists (snd u)|by exists o].
    + rewrite applyReportOrderUpdate_other in Hmid by done. by exists mid.
Qed.

Lemma reportUpdates_dom companyId now updates t key :
  is_Some (fold_left (applyReportOrderUpdate companyId now) updates t !! key)
  <-> is_Some (t !! key).
Proof.
  revert t. induction updates as [|u updates IH]; intros t; [done|].
  simpl. rewrite IH.
  destruct (decide (key = reportKey companyId (fst u))) as [->|Hne].
  - rewrite applyReportOrderUpdate_same. by rewrite fmap_is_Some.
  - by rewrite applyReportOrderUpdate_other.
Qed.

(** The body of [reportApi.updateOrder] as [handleSortReports] builds it. *)
Definition reportOrderUpdates (reordered : list Report) : list (string * Z) :=
  imap (fun index report => (re_id report, Z.of_nat index)) reordered.

Lemma reportOrderUpdates_ids (l : list Report) :
  map fst (reportOrderUpdates l) = map re_id l.
Proof.
  unfold reportOrderUpdates. apply list_eq. intros i.
  change (map ?f ?x) with (f <$> x).
  rewrite !list_lookup_fmap, list_lookup_imap. by destruct (l !! i).
Qed.

Lemma strictly_sorted_by_index {B : Type} (key : B -> Z) (l : list B) :
  (forall i v, l !! i = Some v -> key v = Z.of_nat i) ->
  StronglySorted (fun a b => key a < key b) l.
Proof.
  intros Hl.
  assert (forall k, StronglySorted (fun a b => key a < key b) (drop k l)) as Hgen.
  { intros k. remember (length l - k)%nat as n eqn:En. revert k En.
    induction n as [|n IH]; intros k En.
    - rewrite drop_ge by lia. constructor.
    - destruct (l !! k) as [v|] eqn:Hk.
      + rewrite (drop_S _ _ _ Hk). constructor; [apply IH; lia|].
        apply Forall_forall. intros w Hw. apply list_elem_of_lookup in Hw as [j Hj].
        rewrite lookup_drop in Hj. rewrite (Hl _ _ Hk), (Hl _ _ Hj). lia.
      + apply lookup_ge_None in Hk. lia. }
  apply (Hgen 0%nat).
Qed.

Section RoundTrip.

Variables companyId now : string.
Variable reordered : list Report.
Variable st : Store.

Hypothesis Hnd : NoDup (map re_id reordered).
Hypothesis Hkeys : keyedByIds st.
Hypothesis Hcompany : colonFree companyId.
Hypothesis Hlisted :
  forall key r, reports st !! key = Some r ->
    String.prefix (reportPrefix companyId) key = true -> re_id r ∈ map re_id reordered.
Hypothesis Hall :
  forall r, r ∈ reordered -> is_Some (reports st !! reportKey companyId (re_id r)).

Definition commentsOf (reportId : string) : list Comment :=
  sort (compareComments getTime) (Kv.getByPrefix (commentPrefix companyId reportId) (comments st)).

(** The records as the handler leaves them and the list handler shows
    them, in the order of the list. *)
Definition reorderedReports : list Report :=
  imap (fun i r =>
          withCommentList (commentsOf (re_id r))
            (setReportOrder (Z.of_nat i) now
               (default r (reports st !! reportKey companyId (re_id r)))))
       reordered.

Definition updatedReports : gmap string Report :=
  fold_left (applyReportOrderUpdate companyId now) (reportOrderUpdates reordered) (reports st).

Definition attach (report : Report) : Report :=
  withCommentList (commentsOf (re_id report)) report.

Lemma stored_report_id id old :
  reports st !! reportKey companyId id = Some old -> re_id old = id.
Proof.
  intros Hold.
  pose proof (keyedByIds_report_keys st companyId _ old Hkeys Hcompany Hold
                (reportKey_prefix' companyId id)) as E.
  symmetry. by apply reportKey_inj in E.
Qed.

Lemma reorderedReports_lookup i r :
  reordered !! i = Some r ->
  exists old, reports st !! reportKey companyId (re_id r) = Some old
              /\ re_id old = re_id r
              /\ reorderedReports !! i = Some (attach (setReportOrder (Z.of_nat i) now old))
              /\ updatedReports !! reportKey companyId (re_id r)
                 = Some (setReportOrder (Z.of_nat i) now old).
Proof.
  intros Hl. destruct (Hall r) as [old Hold]; [by eapply list_elem_of_lookup_2|].
  exists old. pose proof (stored_report_id _ _ Hold) as Eid. split; [done|]. split; [done|].
  split.
  - unfold reorderedReports. rewrite list_lookup_imap, Hl; simpl. rewrite Hold. simpl.
    unfold attach. simpl. by rewrite Eid.
  - unfold updatedReports.
    rewrite (reportUpdates_listed companyId now _ _ (re_id r) (Z.of_nat i)).
    + by rewrite Hold.
    + by rewrite reportOrderUpdates_ids.
    + apply (list_elem_of_lookup_2 _ i). unfold reportOrderUpdates.
      by rewrite list_lookup_imap, Hl.
Qed.

Lemma reorderedReports_inv i v :
  reorderedReports !! i = Some v ->
  exists r, reordered !! i = Some r /\ re_id v = re_id r /\ re_order v = Some (Z.of_nat i).
Proof.
  unfold reorderedReports. rewrite list_lookup_imap.
  destruct (reordered !! i) as [r|] eqn:Hl; [|done]. simpl. intros [= <-].
  exists r. split; [done|]. split; [|done].
  destruct (reorderedReports_lookup i r Hl) as (old & Hold & Eid & _).
  by rewrite Hold.
Qed.

Lemma reorderedReports_ids : map re_id reorderedReports = map re_id reordered.
Proof.
  apply list_eq. intros i. change (map ?f ?x) with (f <$> x).
  rewrite !list_lookup_fmap.
  destruct (reordered !! i) as [r|] eqn:Hl.
  - destruct (reorderedReports_lookup i r Hl) as (old & _ & Eid & -> & _). simpl.
    by rewrite Eid.
  - unfold reorderedReports. by rewrite list_lookup_imap, Hl.
Qed.

Lemma reorderedReports_sorted :
  StronglySorted (fun a b : Report => effectiveOrder a < effectiveOrder b) reorderedReports.
Proof.
  apply strictly_sorted_by_index. intros i v Hv.
  destruct (reorderedReports_inv i v Hv) as (r & _ & _ & Ho).
  unfold effectiveOrder. simpl. by rewrite Ho.
Qed.

Lemma updated_report_id key v :
  updatedReports !! key = Some v ->
  exists old, reports st !! key = Some old /\ re_id v = re_id old.
Proof.
  intros Hl. destruct (reportUpdates_inv _ _ _ _ _ _ Hl) as (old & Hold & Hv).
  exists old. split; [done|]. by destruct Hv as [->|[o ->]].
Qed.

Lemma attached_reports_perm :
  map attach (Kv.getByPrefix (reportPrefix companyId) updatedReports) ≡ₚ reorderedReports.
Proof.
  apply NoDup_Permutation.
  - apply (NoDup_fmap_1 re_id). change (re_id <$> map attach ?l) with (re_id <$> (attach <$> l)).
    rewrite <- list_fmap_compose.
    unfold Kv.getByPrefix. change (map snd ?l) with (snd <$> l).
    rewrite <- list_fmap_compose.
    apply NoDup_fmap_2_strong; [|apply NoDup_map_to_list].
    intros [k1 v1] [k2 v2] H1 H2 E. simpl in E.
    apply elem_of_map_to_list, map_lookup_filter_Some in H1 as [H1 P1].
    apply elem_of_map_to_list, map_lookup_filter_Some in H2 as [H2 P2].
    simpl in P1, P2.
    destruct (updated_report_id _ _ H1) as (o1 & Ho1 & E1).
    destruct (updated_report_id _ _ H2) as (o2 & Ho2 & E2).
    pose proof (keyedByIds_report_keys st companyId _ _ Hkeys Hcompany Ho1 P1) as K1.
    pose proof (keyedByIds_report_keys st companyId _ _ Hkeys Hcompany Ho2 P2) as K2.
    assert (k1 = k2) as -> by (by rewrite K1, K2, <- E1, <- E2, E).
    rewrite H1 in H2. by injection H2 as ->.
  - apply (NoDup_fmap_1 re_id). change (re_id <$> ?l) with (map re_id l).
    by rewrite reorderedReports_ids.
  - intros v. change (map attach ?l) with (attach <$> l). rewrite list_elem_of_fmap. split.
    + intros (w & -> & Hw). apply elem_of_getByPrefix in Hw as (key & Hl & Hp).
      destruct (updated_report_id _ _ Hl) as (old & Hold & Eid).
      pose proof (Hlisted _ _ Hold Hp) as Hin. change (map ?f ?l) with (f <$> l) in Hin.
      apply list_elem_of_fmap in Hin as (r & Er & Hr).
      apply list_elem_of_lookup in Hr as [i Hi].
      destruct (reorderedReports_lookup i r Hi) as (old' & Hold' & _ & HT & HU).
      rewrite (keyedByIds_report_keys st companyId _ _ Hkeys Hcompany Hold Hp), Er in Hl.
      fold updatedReports in Hl. rewrite HU in Hl. injection Hl as <-.
      by apply (list_elem_of_lookup_2 _ i).
    + intros [i Hi]%list_elem_of_lookup.
      destruct (reorderedReports_inv i v Hi) as (r & Hr & _ & _).
      destruct (reorderedReports_lookup i r Hr) as (old & _ & _ & HT & HU).
      rewrite HT in Hi. injection Hi as <-.
      exists (setReportOrder (Z.of_nat i) now old). split; [done|].
      apply elem_of_getByPrefix. exists (reportKey companyId (re_id r)).
      split; [done|]. apply reportKey_prefix'.
Qed.

Lemma reports_after_reorder :
  computeDisplayOrder getTime
    (map attach (Kv.getByPrefix (reportPrefix companyId) updatedReports))
  = reorderedReports.
Proof.
  apply (strictly_sorted_unique effectiveOrder).
  - apply display_sorted_strict. rewrite attached_reports_perm.
    pose proof reorderedReports_sorted as Hs.
    induction Hs as [|x l Hl IH Hx]; simpl; constructor; [|done].
    rewrite Forall_forall in Hx. intros [y [E Hy]]%list_elem_of_fmap.
    pose proof (Hx y Hy). lia.
  - apply reorderedReports_sorted.
  - unfold computeDisplayOrder. by rewrite sort_perm, attached_reports_perm.
Qed.

End RoundTrip.

(** X18.  Reordering reports is a round trip.  In a store keyed by ids, for a
    list that names every stored report of the company exactly once,
    [POST /companies/:companyId/reports/reorder] with each id paired with
    its index answers success, and [GET /companies/:companyId/reports]
    then lists the reports in exactly the order of the list, each as it
    was stored but with its index as order, the time of the request as
    updatedAt and its comments attached.  The companies, comments and
    blobs, the set of report keys and the reports under other prefixes
    are unchanged. *)
Theorem report_reorder_round_trip companyId now reordered st :
  NoDup (map re_id reordered) ->
  keyedByIds st ->
  colonFree companyId ->
  (forall key r, reports st !! key = Some r ->
     String.prefix (reportPrefix companyId) key = true -> re_id r ∈ map re_id reordered) ->
  (forall r, r ∈ reordered -> is_Some (reports st !! reportKey companyId (re_id r))) ->
  let answer := reorderReports companyId (Some (reportOrderUpdates reordered)) now st in
  let listed := listReports getTime companyId (snd answer) in
  fst answer = successNoData
  /\ map re_id listed = map re_id reordered
  /\ (forall i r, listed !! i = Some r ->
        re_order r = Some (Z.of_nat i)
        /\ exists old,
             reports st !! reportKey companyId (re_id r) = Some old
             /\ r = withCommentList
                      (sort (compareComments getTime)
                         (Kv.getByPrefix (commentPrefix companyId (re_id r)) (comments st)))
                      (setReportOrder (Z.of_nat i) now old))
  /\ companies (snd answer) = companies st
  /\ comments (snd answer) = comments st
  /\ reportBlobs (snd answer) = reportBlobs st
  /\ (forall key, is_Some (reports (snd answer) !! key) <-> is_Some (reports st !! key))
  /\ (forall key, String.prefix (reportPrefix companyId) key = false ->
        reports (snd answer) !! key = reports st !! key).
Proof.
  intros Hnd Hkeys Hcompany Hlisted Hall answer listed.
  assert (listed = reorderedReports companyId now reordered st) as Hlist.
  { subst listed answer. unfold listReports. simpl.
    by rewrite <- (reports_after_reorder companyId now reordered st). }
  split; [done|]. split; [rewrite Hlist; by apply reorderedReports_ids|].
  split; [|split; [done|split; [done|split; [done|split]]]].
  - intros i r Hr. rewrite Hlist in Hr.
    destruct (reorderedReports_inv companyId now reordered st Hnd Hkeys Hcompany Hall i r Hr)
      as (r0 & Hr0 & Eid & Ho).
    split; [done|].
    destruct (reorderedReports_lookup companyId now reordered st Hnd Hkeys Hcompany Hall
                i r0 Hr0) as (old & Hold & Eold & HT & _).
    rewrite HT in Hr. injection Hr as <-. exists old. unfold attach, commentsOf. simpl.
    rewrite Eold. by split.
  - intros key. subst answer. simpl. apply reportUpdates_dom.
  - intros key Hp. subst answer. simpl. apply reportUpdates_other.
    intros u _ ->. by rewrite reportKey_prefix' in Hp.
Qed.

End ReportReorder.

Lemma sampleStore_keyedByIds : keyedByIds sampleStore.
Proof.
  split.
  - simpl. intros k r [[<- <-]|[_ H]]%lookup_insert_Some.
    + by repeat split.
    + apply lookup_singleton_Some in H as [<- <-]. by repeat split.
  - simpl. intros k c [[<- <-]|[_ H]]%lookup_insert_Some.
    + by exists "c1", "r1".
    + apply lookup_singleton_Some in H as [<- <-]. by exists "c1", "r2".
Qed.

Definition swappedReports : list Model.Report :=
  [sampleReport "c1" "r2" (Some 1); sampleReport "c1" "r1" (Some 0)].

Lemma report_reorder_round_trip_witness :
  let answer := Server.reorderReports "c1" (Some [("r2", 0); ("r1", 1)])
                  "2024-01-03T00:00:00.000Z" sampleStore in
  fst answer = Server.successNoData
  /\ map Model.re_id (Server.listReports sampleTime "c1" (snd answer)) = ["r2"; "r1"].
Proof.
  intros answer.
  destruct (report_reorder_round_trip sampleTime "c1" "2024-01-03T00:00:00.000Z"
              swappedReports sampleStore) as (Hanswer & Hlist & _).
  - apply (bool_decide_unpack _). vm_compute. exact I.
  - exact sampleStore_keyedByIds.
  - reflexivity.
  - simpl. intros key r [[<- <-]|[_ H]]%lookup_insert_Some _.
    + right. left.
    + apply lookup_singleton_Some in H as [<- <-]. left.
  - intros r Hr. repeat (apply elem_of_cons in Hr as [->|Hr]; [by eexists|]).
    by apply elem_of_nil in Hr.
  - split; [exact Hanswer|exact Hlist].
Defined.

(* ===================================================================== *)
(** * components/SortManager.tsx: the rows of the dialog and what it saves *)
(* ===================================================================== *)

Section DialogFacts.
Import Model Order.
Context {A : Type} `{Ordered A} `{Sortable A}.

Variable getTime : string -> option Z.
Variable blank : A.
Variable undefined : SortItem.

(** What the two instances have in common: a row carries the id of its
    item, and writing the order changes the order and nothing else that
    the dialog reads. *)
Hypothesis row_id : forall index item, si_id (sortItemOf index item) = itemId item.
Hypothesis withOrder_id : forall order item, itemId (withOrder order item) = itemId item.
Hypothesis withOrder_order : forall order item, orderOf (withOrder order item) = Some order.

(** The two buttons of a row. *)
Inductive Click := Up (index : nat) | Down (index : nat).

Definition rowOf (c : Click) : nat := match c with Up index | Down index => index end.

Definition click (st : SortState (A := SortItem)) (c : Click) : SortState (A := SortItem) :=
  match c with
  | Up index => moveUp undefined (Z.of_nat index) st
  | Down index => moveDown undefined (Z.of_nat index) st
  end.

Lemma moveItem_perm (st : SortState (A := SortItem)) (i : nat) (toIndex : Z) :
  (i < length (sortedItems st))%nat ->
  sortedItems (moveItem undefined (Z.of_nat i) toIndex st) ≡ₚ sortedItems st.
Proof.
  intros Hi. destruct st as [items changed]. simpl in Hi.
  destruct (lookup_lt_is_Some_2 items i Hi) as [x Hx].
  destruct (decide (0 <= toIndex < Z.of_nat (length items))) as [Hin|Hout].
  - replace toIndex with (Z.of_nat (Z.to_nat toIndex)) by lia.
    rewrite (moveItem_in_range undefined items changed i (Z.to_nat toIndex) x Hx) by lia.
    simpl. rewrite <- Permutation_middle, take_drop. symmetry. by apply delete_Permutation.
  - unfold moveItem. simpl sortedItems.
    destruct (Z.ltb_spec toIndex 0); [done|].
    destruct (Z.geb_spec toIndex (Z.of_nat (length items))); [done|lia].
Qed.

Lemma click_perm st c :
  (rowOf c < length (sortedItems st))%nat -> sortedItems (click st c) ≡ₚ sortedItems st.
Proof. destruct c; simpl; intros Hi; by apply moveItem_perm. Qed.

Lemma clicks_perm clicks st :
  Forall (fun c => (rowOf c < length (sortedItems st))%nat) clicks ->
  sortedItems (fold_left click clicks st) ≡ₚ sortedItems st.
Proof.
  revert st. induction clicks as [|c clicks IH]; intros st Hall; [done|].
  apply Forall_cons in Hall as [Hc Hall]. simpl.
  pose proof (click_perm st c Hc) as Hp. rewrite IH; [done|].
  eapply Forall_impl; [exact Hall|]. intros c' Hc'. simpl in Hc'.
  by rewrite (Permutation_length Hp).
Qed.

Lemma imap_ids {B : Type} (f : nat -> B -> SortItem) (g : B -> string) (l : list B) :
  (forall i x, si_id (f i x) = g x) -> map si_id (imap f l) = map g l.
Proof.
  revert f. induction l as [|x l IH]; intros f Hf; [done|]. simpl.
  rewrite Hf. f_equal. apply IH. intros i y. apply Hf.
Qed.

Lemma imap_strictly_sorted {B : Type} (key : A -> Z) (f : nat -> B -> A) (l : list B) (n : nat) :
  (forall i x, key (f i x) = Z.of_nat (n + i)) ->
  StronglySorted (fun a b => key a < key b) (imap f l).
Proof.
  revert f n. induction l as [|x l IH]; intros f n Hf; [constructor|]. simpl. constructor.
  - apply (IH _ (S n)). intros i y. simpl. rewrite Hf. f_equal. lia.
  - apply Forall_forall. intros y Hy. apply list_elem_of_lookup in Hy as [i Hi].
    rewrite list_lookup_imap in Hi. destruct (l !! i) as [z|]; [|done].
    simpl in Hi. injection Hi as <-. rewrite !Hf. lia.
Qed.

Lemma find_by_id (items : list A) (id : string) :
  id ∈ map itemId items ->
  exists original,
    List.find (fun item => String.eqb (itemId item) id) items = Some original
    /\ original ∈ items /\ itemId original = id.
Proof.
  induction items as [|x items IH]; intros Hin; [by apply elem_of_nil in Hin|].
  simpl. destruct (String.eqb_spec (itemId x) id) as [E|Hne].
  - exists x. split; [done|]. split; [by left|done].
  - simpl in Hin. apply elem_of_cons in Hin as [E|Hin]; [congruence|].
    destruct (IH Hin) as (o & Hf & Ho & Hid). exists o. split; [done|]. split; [by right|done].
Qed.

(** X19.  The sort dialog.  For a list that is not empty and any sequence of
    clicks on the up and down buttons of existing rows, the rows stay a
    permutation of the rows the dialog opened with (the items in display
    order).  Saving gives the items in the order of the rows: the same ids
    in the same sequence, each item being one of the given items with its
    position as order; the saved list is displayed in exactly the saved
    sequence. *)
Theorem sortManager_saves_dialog_order items clicks st0 :
  items <> [] ->
  Forall (fun c => (rowOf c < length items)%nat) clicks ->
  let st := fold_left click clicks (initSortItems getTime items st0) in
  let saved := handleSave blank items st in
  sortedItems st ≡ₚ imap sortItemOf (computeDisplayOrder getTime items)
  /\ map itemId saved = map si_id (sortedItems st)
  /\ map itemId saved ≡ₚ map itemId items
  /\ (forall i x, saved !! i = Some x ->
        orderOf x = Some (Z.of_nat i)
        /\ exists original, original ∈ items /\ x = withOrder (Z.of_nat i) original)
  /\ computeDisplayOrder getTime saved = saved.
Proof.
  intros Hne Hclicks st saved.
  set (rows := imap sortItemOf (computeDisplayOrder getTime items)).
  assert (initSortItems getTime items st0 = {| sortedItems := rows; hasChanges := false |})
    as Hinit by (by destruct items).
  assert (length rows = length items) as Hlen.
  { subst rows. rewrite length_imap. unfold computeDisplayOrder.
    apply Permutation_length, sort_perm. }
  assert (sortedItems st ≡ₚ rows) as Hperm.
  { subst st. rewrite Hinit. rewrite clicks_perm; [done|]. simpl. by rewrite Hlen. }
  assert (map si_id rows ≡ₚ map itemId items) as Hids.
  { subst rows. rewrite (imap_ids _ itemId) by apply row_id.
    apply Permutation_map. apply sort_perm. }
  assert (forall row, row ∈ sortedItems st ->
            exists original,
              List.find (fun item => String.eqb (itemId item) (si_id row)) items
              = Some original
              /\ original ∈ items /\ itemId original = si_id row) as Hfind.
  { intros row Hrow. apply find_by_id. rewrite <- Hids, <- Hperm.
    apply list_elem_of_fmap. by exists row. }
  assert (forall i x, saved !! i = Some x ->
            exists row original,
              sortedItems st !! i = Some row /\ original ∈ items
              /\ itemId original = si_id row
              /\ x = withOrder (Z.of_nat i) original) as Hsaved.
  { intros i x Hx. subst saved. unfold handleSave in Hx. rewrite list_lookup_imap in Hx.
    destruct (sortedItems st !! i) as [row|] eqn:Hrow; [|done]. simpl in Hx.
    injection Hx as <-.
    destruct (Hfind row (list_elem_of_lookup_2 _ _ _ Hrow)) as (o & Hf & Ho & Hid).
    exists row, o. rewrite Hf. done. }
  assert (map itemId saved = map si_id (sortedItems st)) as Hmap.
  { apply list_eq. intros i. change (map ?f ?l) with (f <$> l). rewrite !list_lookup_fmap.
    destruct (saved !! i) as [x|] eqn:Hx.
    - destruct (Hsaved i x Hx) as (row & o & Hrow & _ & Hid & ->).
      rewrite Hrow. simpl. by rewrite withOrder_id, Hid.
    - subst saved. unfold handleSave in Hx. rewrite list_lookup_imap in Hx.
      destruct (sortedItems st !! i); [done|done]. }
  split; [done|]. split; [done|]. split; [by rewrite Hmap, Hperm|]. split.
  - intros i x Hx. destruct (Hsaved i x Hx) as (row & o & _ & Ho & _ & ->).
    split; [apply withOrder_order|by exists o].
  - apply display_sorted_id. subst saved. unfold handleSave.
    apply (imap_strictly_sorted effectiveOrder _ _ 0). intros i row.
    unfold effectiveOrder. by rewrite withOrder_order.
Qed.

End DialogFacts.

Definition rowlessItem : Order.SortItem :=
  {| Order.si_id := ""; Order.si_name := ""; Order.si_subtitle := ""; Order.si_badge := "";
     Order.si_iconUrl := None; Order.si_type := Order.CompanyItem;
     Order.si_originalIndex := 0 |}.

Definition threeCompanies : list Model.Company :=
  [sampleCompany "a" (Some 2) jan1; sampleCompany "b" None jan1;
   sampleCompany "c" (Some 1) jan2].

Lemma sortManager_saves_dialog_order_witness :
  let st := fold_left (click rowlessItem) [Down 0; Up 2; Up 0]
              (Order.initSortItems sampleTime threeCompanies
                 {| Order.sortedItems := []; Order.hasChanges := false |}) in
  let saved := Order.handleSave (sampleCompany "" None None) threeCompanies st in
  map Order.itemId saved = map Order.si_id (Order.sortedItems st)
  /\ Order.computeDisplayOrder sampleTime saved = saved.
Proof.
  intros st saved.
  destruct (@sortManager_saves_dialog_order Model.Company Model.Company_Ordered
              Order.Company_Sortable sampleTime (sampleCompany "" None None)
              rowlessItem (fun _ _ => eq_refl) (fun _ _ => eq_refl) (fun _ _ => eq_refl)
              threeCompanies [Down 0; Up 2; Up 0]
              {| Order.sortedItems := []; Order.hasChanges := false |})
    as (_ & Hids & _ & _ & Hshown).
  - discriminate.
  - repeat constructor.
  - split; [exact Hids|exact Hshown].
Defined.

(* ===================================================================== *)
(** * components/CompanyDetail.tsx: what the upload dialog sends *)
(* ===================================================================== *)

Section UploadDialog.
Import Js Model Api CompanyDetail.
Variables projectId publicAnonKey : string.
(** A file the dialog lets into the form. *)
Definition checkedPdf (file : File) : Prop :=
  includes "pdf" (fileType file) = true /\ fileSize file <= 50 * 1024 * 1024.

Definition checkedForm (form : UploadForm) : Prop :=
  match uf_file form with Some file => checkedPdf file | None => True end.

(** An upload request as the dialog sends it. *)
Definition checkedUpload (companyId : string) (entry : string * RequestInit) : Prop :=
  exists data,
    entry = (API_BASE_URL projectId +:+ "/companies/" +:+ companyId +:+ "/reports",
             formOptions publicAnonKey (uploadForm data))
    /\ up_title data <> "" /\ up_analyst data <> "" /\ checkedPdf (up_file data).

Lemma complete_log s c : fetchLog (complete s c) = fetchLog s.
Proof.
  destruct c as [p resp|p e|p now|p e]; simpl.
  - unfold fetchResolved. destruct (inflight s !! p) as [rq|]; [|done].
    by destruct (rq_phase rq).
  - unfold fetchRejected. destruct (inflight s !! p) as [rq|]; [|done].
    by destruct (rq_phase rq).
  - unfold bodyRead. destruct (inflight s !! p) as [rq|]; [|done].
    destruct (rq_phase rq) as [|resp|resp]; try done.
    destruct (json resp) as [result|]; [|done]. unfold onJson.
    destruct (get "success" result) as [success|]; [|done].
    destruct (truthy success); [|done]. simpl. by destruct (cacheSlot _ _).
  - unfold bodyFailed. destruct (inflight s !! p) as [rq|]; [|done].
    by destruct (rq_phase rq).
Qed.

Lemma handleFileUpload_checked file form :
  checkedForm form -> checkedForm (handleFileUpload file form).
Proof.
  intros Hform. destruct file as [file|]; [|done]. unfold handleFileUpload.
  destruct (includes "pdf" (fileType file)) eqn:Hpdf; [|done]. simpl.
  destruct (Z.gtb_spec (fileSize file) (50 * 1024 * 1024)); [done|].
  unfold checkedForm, checkedPdf. simpl. split; [done|lia].
Qed.

Lemma react_checked companyId form s e :
  checkedForm form ->
  checkedForm (fst (react projectId publicAnonKey companyId (form, s) e))
  /\ (fetchLog (snd (react projectId publicAnonKey companyId (form, s) e)) = fetchLog s
      \/ exists entry,
           checkedUpload companyId entry
           /\ fetchLog (snd (react projectId publicAnonKey companyId (form, s) e))
              = fetchLog s ++ [entry]).
Proof.
  intros Hform. destruct e as [title|analyst|category|file|now|r|c]; simpl.
  - split; [done|by left].
  - split; [done|by left].
  - split; [done|by left].
  - split; [by apply handleFileUpload_checked|by left].
  - split; [done|]. unfold handleUploadSubmit.
    unfold checkedForm in Hform.
    destruct (uf_file form) as [file|]; [|by left].
    destruct (String.eqb_spec (uf_title form) ""); [by left|].
    destruct (String.eqb_spec (uf_analyst form) ""); [by left|]. simpl.
    unfold reportApi_upload.
    destruct (makeRequest _ _ _ _ _) as [r s'] eqn:Hreq. simpl.
    pose proof (f_equal snd Hreq) as Hs. simpl in Hs. subst s'.
    unfold makeRequest. destruct (truthy _); [by left|].
    destruct (pendingRequests _ !! _); [by left|]. right. eexists. split; [|done].
    eexists {| up_title := _; up_analyst := _; up_category := _; up_file := _ |}.
    split; [reflexivity|done].
  - destruct (outcome s r) as [[v|e]|]; simpl; (split; [done|by left]).
  - split; [done|]. left. apply complete_log.
Qed.

Lemma reacts_checked companyId events form s :
  checkedForm form ->
  exists sent,
    fetchLog (snd (fold_left (react projectId publicAnonKey companyId) events (form, s)))
    = fetchLog s ++ sent
    /\ Forall (checkedUpload companyId) sent.
Proof.
  revert form s. induction events as [|e events IH]; intros form s Hform.
  - exists []. simpl. by rewrite app_nil_r.
  - destruct (react_checked companyId form s e Hform) as [Hnext Hlog].
    cbn [fold_left].
    destruct (react projectId publicAnonKey companyId (form, s) e) as [form' s'] eqn:Hreact.
    cbn [fst snd] in Hnext, Hlog. destruct (IH form' s' Hnext) as (sent & Hsent & Hall).
    destruct Hlog as [Hlog|(entry & Hentry & Hlog)].
    + exists sent. by rewrite Hsent, Hlog.
    + exists (entry :: sent). rewrite Hsent, Hlog, <- app_assoc. split; [done|].
      by constructor.
Qed.

(** The form the server reads from the multipart body of an upload. *)
Definition formRead (data : UploadData) : Server.ReportForm :=
  {| Server.rf_title := up_title data; Server.rf_analyst := up_analyst data;
     Server.rf_category := up_category data; Server.rf_file := Some (up_file data) |}.

(** X20.  The upload dialog of the detail page.  Whatever the user does with
    the form (typing, choosing files, submitting, uploads coming back,
    requests moving on), every request the dialog adds to the log is an
    upload POST for the company whose title and analyst are not empty and
    whose file has a type containing ['pdf'] and at most 50 MB; with a
    category that is not empty the server's upload handler does not answer
    such a request with 400. *)
Theorem upload_dialog_sends_checked_pdfs companyId events s :
  exists sent,
    fetchLog (snd (fold_left (react projectId publicAnonKey companyId) events
                     (emptyUploadForm, s)))
    = fetchLog s ++ sent
    /\ Forall (fun entry =>
         exists data,
           entry = (API_BASE_URL projectId +:+ "/companies/" +:+ companyId +:+ "/reports",
                    formOptions publicAnonKey (uploadForm data))
           /\ up_title data <> "" /\ up_analyst data <> ""
           /\ includes "pdf" (fileType (up_file data)) = true
           /\ fileSize (up_file data) <= 50 * 1024 * 1024
           /\ forall uploaded uuid now st,
                up_category data <> "" ->
                status (fst (Server.uploadReport uploaded companyId (formRead data)
                               uuid now st)) <> 400) sent.
Proof.
  destruct (reacts_checked companyId events emptyUploadForm s) as (sent & Hlog & Hall);
    [done|].
  exists sent. split; [done|]. eapply Forall_impl; [exact Hall|].
  intros entry (data & -> & Htitle & Hanalyst & Hpdf & Hsize). exists data.
  repeat (split; [done|]). intros uploaded uuid now st Hcategory.
  unfold Server.uploadReport, formRead. simpl. unfold Server.isEmpty.
  destruct (String.eqb_spec (up_title data) ""); [done|].
  destruct (String.eqb_spec (up_analyst data) ""); [done|].
  destruct (String.eqb_spec (up_category data) ""); [done|]. simpl.
  rewrite Hpdf. simpl. by destruct (uploaded _).
Qed.

End UploadDialog.

(* ===================================================================== *)
(** * components/CompanyList.tsx and the report summaries *)
(* ===================================================================== *)

Section ListView.
Import Js Model Order CompanyList.
Variable toLowerCase : string -> string.
Variable getTime : string -> option Z.

(** The test of [filteredCompanies]. *)
Definition matchesFilter (searchTerm selectedType : string) (company : Company) : bool :=
  (includes (toLowerCase searchTerm) (toLowerCase (co_name company))
   || includes (toLowerCase searchTerm) (toLowerCase (co_code company)))
  && (String.eqb selectedType allTypes || String.eqb (co_type company) selectedType).

Lemma includes_empty s : includes "" s = true.
Proof. by destruct s. Qed.

Lemma NoDup_map_filter {B : Type} (key : B -> Z) (f : B -> bool) (l : list B) :
  NoDup (map key l) -> NoDup (map key (List.filter f l)).
Proof.
  induction l as [|x l IH]; [done|]. simpl. intros [Hx Hnd]%NoDup_cons.
  destruct (f x); [|by apply IH]. simpl. apply NoDup_cons. split; [|by apply IH].
  intros [y [E Hy]]%list_elem_of_fmap. apply Hx. apply list_elem_of_fmap. exists y.
  split; [done|]. apply list_elem_of_In. apply list_elem_of_In in Hy.
  by apply filter_In in Hy as [? _].
Qed.

(** X21.  The company list of the page.  The companies shown are those of
    the given list that pass the search and type filter, in display order;
    with pairwise distinct orders they are the displayed full list with
    the other companies left out, so filtering never changes the relative
    order; with an empty search (and a [toLowerCase] that keeps the empty
    string) and the type 'all' every company is shown. *)
Theorem sortedCompanies_view searchTerm selectedType companies :
  (forall company,
     company ∈ sortedCompanies toLowerCase getTime searchTerm selectedType companies
     <-> company ∈ companies /\ matchesFilter searchTerm selectedType company = true)
  /\ (NoDup (map effectiveOrder companies) ->
      sortedCompanies toLowerCase getTime searchTerm selectedType companies
      = List.filter (matchesFilter searchTerm selectedType)
          (computeDisplayOrder getTime companies))
  /\ (toLowerCase "" = "" ->
      sortedCompanies toLowerCase getTime "" allTypes companies
      = computeDisplayOrder getTime companies).
Proof.
  assert (forall term type,
            filteredCompanies toLowerCase term type companies
            = List.filter (matchesFilter term type) companies) as Hfilter by reflexivity.
  unfold sortedCompanies. rewrite !Hfilter.
  split; [|split].
  - intros company. unfold computeDisplayOrder. rewrite sort_elem.
    rewrite !list_elem_of_In. apply filter_In.
  - intros Hnd. apply (strictly_sorted_unique effectiveOrder).
    + apply display_sorted_strict. by apply NoDup_map_filter.
    + apply StronglySorted_filter. by apply display_sorted_strict.
    + unfold computeDisplayOrder at 1. rewrite sort_perm. apply filter_perm.
      symmetry. apply sort_perm.
  - intros Hlower. f_equal. apply filter_all. intros company _.
    unfold matchesFilter. by rewrite Hlower, !includes_empty.
Qed.

End ListView.

Section HelperFacts.
Import Model Helpers.
Variable getTime : string -> option Z.
Variable toLocaleDateString : string -> string.

Definition reportTime (report : Report) : option Z :=
  getTime (default "" (re_createdAt report)).

Lemma latestOf_spec (rest : list Report) (first : Report) (t0 : Z) :
  reportTime first = Some t0 ->
  (forall report, report ∈ rest -> is_Some (reportTime report)) ->
  exists t,
    reportTime (latestOf getTime first rest) = Some t
    /\ latestOf getTime first rest ∈ first :: rest
    /\ t0 <= t
    /\ forall report u, report ∈ rest -> reportTime report = Some u -> u <= t.
Proof.
  revert first t0. induction rest as [|x rest IH]; intros first t0 Hfirst Hall.
  - exists t0. simpl. split; [done|]. split; [by left|]. split; [lia|].
    intros report u Hin. by apply elem_of_nil in Hin.
  - destruct (Hall x) as [tx Hx]; [by left|].
    change (latestOf getTime first (x :: rest))
      with (latestOf getTime (if newer getTime x first then x else first) rest).
    assert (newer getTime x first = (t0 <? tx)) as ->.
    { unfold newer. fold (reportTime x). fold (reportTime first). by rewrite Hx, Hfirst. }
    destruct (Z.ltb_spec t0 tx) as [Hlt|Hge].
    + destruct (IH x tx Hx) as (t & Ht & Hin & Hle & Hmax);
        [intros; apply Hall; by right|].
      exists t. split; [done|]. split.
      { apply elem_of_cons in Hin as [->|Hin]; [right; by left|by do 2 right]. }
      split; [lia|]. intros report u [->|Hr]%elem_of_cons Hu.
      * rewrite Hx in Hu. injection Hu as <-. lia.
      * by apply (Hmax report).
    + destruct (IH first t0 Hfirst) as (t & Ht & Hin & Hle & Hmax);
        [intros; apply Hall; by right|].
      exists t. split; [done|]. split.
      { apply elem_of_cons in Hin as [->|Hin]; [by left|by do 2 right]. }
      split; [lia|]. intros report u [->|Hr]%elem_of_cons Hu.
      * rewrite Hx in Hu. injection Hu as <-. lia.
      * by apply (Hmax report).
Qed.

Lemma totalComments_from (reports : list Report) (start : Z) :
  fold_left (fun total report =>
               total + match re_comments report with
                       | Some comments => Z.of_nat (length comments)
                       | None => 0
                       end) reports start
  = start + getTotalComments reports.
Proof.
  unfold getTotalComments. revert start.
  induction reports as [|x l IH]; intros start; simpl; [lia|].
  rewrite IH. rewrite (IH (0 + _)). lia.
Qed.

(** X22.  The summaries of the report list.  For a list that is not empty
    and whose creation times parse, [getLatestReportDate] formats the
    creation time of a report of the list that no other report is newer
    than.  [getAnalystCount] is at most the number of reports, at least 1
    when there is a report, and the number of reports when the analysts
    are pairwise different.  [getTotalComments] is additive over
    concatenation and never negative. *)
Theorem report_summaries (reports : list Report) :
  (reports <> [] ->
   (forall report, report ∈ reports -> is_Some (reportTime report)) ->
   exists latest t,
     latest ∈ reports /\ reportTime latest = Some t
     /\ (forall report u, report ∈ reports -> reportTime report = Some u -> u <= t)
     /\ getLatestReportDate getTime toLocaleDateString reports
        = formatDate toLocaleDateString (default "" (re_createdAt latest)))
  /\ (getAnalystCount reports <= length reports)%nat
  /\ (forall analyst,
        analyst ∈ map re_analyst reports -> (1 <= getAnalystCount reports)%nat)
  /\ (NoDup (map re_analyst reports) -> getAnalystCount reports = length reports)
  /\ (forall more, getTotalComments (reports ++ more)
                   = getTotalComments reports + getTotalComments more)
  /\ 0 <= getTotalComments reports.
Proof.
  split; [|split; [|split; [|split; [|split]]]].
  - intros Hne Hall. destruct reports as [|first rest]; [done|].
    destruct (Hall first) as [t0 Ht0]; [by left|].
    destruct (latestOf_spec rest first t0 Ht0) as (t & Ht & Hin & Hle & Hmax);
      [intros; apply Hall; by right|].
    exists (latestOf getTime first rest), t. split; [done|]. split; [done|]. split; [|done].
    intros report u [->|Hr]%elem_of_cons Hu.
    + rewrite Ht0 in Hu. injection Hu as <-. lia.
    + by apply (Hmax report).
  - unfold getAnalystCount. rewrite <- (length_map re_analyst reports).
    generalize (map re_analyst reports). intros l.
    induction l as [|x l IH]; [done|]. simpl.
    destruct (decide (x ∈ (list_to_set l : gset string))) as [Hin|Hout].
    + rewrite (subseteq_union_1_L {[x]} (list_to_set l))
        by (by apply singleton_subseteq_l). lia.
    + rewrite size_union by (by apply disjoint_singleton_l). rewrite size_singleton. lia.
  - intros analyst Hin. unfold getAnalystCount.
    assert (size (list_to_set (map re_analyst reports) : gset string) <> 0)%nat; [|lia].
    apply size_non_empty_iff, (non_empty_inhabited analyst).
    by apply elem_of_list_to_set.
  - intros Hnd. unfold getAnalystCount. rewrite <- (length_map re_analyst reports).
    by apply size_list_to_set.
  - intros more. unfold getTotalComments at 1. rewrite fold_left_app.
    fold (getTotalComments reports). apply totalComments_from.
  - induction reports as [|x l IH] using rev_ind; [done|].
    unfold getTotalComments. rewrite fold_left_app. simpl.
    fold (getTotalComments l). destruct (re_comments x); lia.
Qed.

End HelperFacts.

Lemma sortedCompanies_view_witness :
  CompanyList.sortedCompanies (fun s => s) sampleTime "a" "HK" threeCompanies
  = List.filter (matchesFilter (fun s => s) "a" "HK")
      (Order.computeDisplayOrder sampleTime threeCompanies)
  /\ CompanyList.sortedCompanies (fun s => s) sampleTime "" CompanyList.allTypes
       threeCompanies
     = Order.computeDisplayOrder sampleTime threeCompanies.
Proof.
  destruct (sortedCompanies_view (fun s => s) sampleTime "a" "HK" threeCompanies)
    as (_ & Hfiltered & _).
  destruct (sortedCompanies_view (fun s => s) sampleTime "" CompanyList.allTypes
              threeCompanies) as (_ & _ & Hall).
  split.
  - apply Hfiltered. apply (bool_decide_unpack _). vm_compute. exact I.
  - by apply Hall.
Defined.

Lemma report_summaries_witness :
  exists latest t,
    latest ∈ swappedReports /\ reportTime sampleTime latest = Some t
    /\ Helpers.getLatestReportDate sampleTime (fun s => s) swappedReports
       = Helpers.formatDate (fun s => s) (default "" (Model.re_createdAt latest)).
Proof.
  destruct (report_summaries sampleTime (fun s => s) swappedReports) as (Hlatest & _).
  destruct Hlatest as (latest & t & Hin & Ht & _ & Hdate).
  - discriminate.
  - intros r Hr. repeat (apply elem_of_cons in Hr as [->|Hr]; [by eexists|]).
    by apply elem_of_nil in Hr.
  - by exists latest, t.
Defined.
